(** * CleanrCrew booking wizard: the derived-state engine

    A shallow embedding of [src/components/BookingWizard.tsx]: the booking
    record, the two room-count estimators, the pricing figures, the
    step counter and the availability effect, followed by the properties
    of the specification that concern them.

    JavaScript numbers are IEEE 754 binary64 values; they are modelled by
    Rocq's primitive [float], whose operations are the binary64 ones
    (round to nearest, ties to even) and are specified bit for bit by the
    Standard Library's [SpecFloat]. *)

From Stdlib Require Import ZArith List String Bool Lia.
From Stdlib Require Import Floats Uint63.
Import ListNotations.

Set Warnings "-inexact-float".

Local Open Scope float_scope.

(** ** JavaScript numbers and the [Math] functions the component calls *)

Module JS.

Definition number := float.

(** Conversion of a small natural number (below 2^63) to a number. *)
Definition of_Z (z : Z) : number := of_uint63 (Uint63.of_Z z).

(** [Math.ceil]: the least integer not below [x].  A finite binary64
    value is [(-1)^s * m * 2^e]; with [e >= 0] it is an integer already.
    Otherwise the magnitude has integer part [m / 2^-e] (below 2^52).
    NaN, the infinities and both zeros are returned unchanged, and a
    negative value above -1 gives -0, as ECMAScript prescribes. *)
Definition Math_ceil (x : number) : number :=
  match Prim2SF x with
  | S754_finite s m e =>
      if (0 <=? e)%Z then x
      else
        let d := (2 ^ (- e))%Z in
        let q := (Z.pos m / d)%Z in
        if s then (if (q =? 0)%Z then neg_zero else - of_Z q)
        else of_Z (if (Z.pos m mod d =? 0)%Z then q else q + 1)
  | _ => x
  end.

(** [Math.max] of two arguments: NaN if either is NaN, and +0 is
    larger than -0. *)
Definition Math_max (a b : number) : number :=
  if (PrimFloat.is_nan a || PrimFloat.is_nan b)%bool then nan
  else if a <? b then b
  else if b <? a then a
  else if get_sign a then b else a.

(** ToBoolean on a number: false exactly for +0, -0 and NaN. *)
Definition truthy (x : number) : bool := negb (PrimFloat.is_zero x || PrimFloat.is_nan x).

(** ToBoolean on a nullable string: false for [null] and for the empty
    string. *)
Definition truthy_string (s : option string) : bool :=
  match s with
  | Some s => negb (String.eqb s EmptyString)
  | None => false
  end.

(** [Object.is] on numbers (SameValue): NaN is NaN, +0 is not -0. *)
Definition Object_is (x y : number) : bool := PrimFloat.Leibniz.eqb x y.

(** [a || ''] on an optional string. *)
Definition or_empty (a : option string) : string :=
  match a with
  | Some s => s
  | None => EmptyString
  end.

End JS.
Import JS.

(** ** Data model (../types, as the component uses it)

    The type declarations are imported by the component and are not part
    of it; the fields below are the ones it reads and writes.  A service
    is held by its identifier (the component compares it with [s.id] and
    with ['office']) and a date as text; [null] is [None]. *)

Record ClientDetails := {
  firstName : string;
  lastName : string;
  email : string;
  phone : string;
  address : string;
  notes : string
}.

Inductive PaymentStatus := pending | processing | paid | failed.

Record TimeSlot := {
  start : string;
  end_ : string;
  available : bool
}.

Record BookingState := {
  step : number;
  service : option string;
  hours : number;
  date : option string;
  timeSlot : option TimeSlot;
  clientDetails : ClientDetails;
  paymentStatus : PaymentStatus
}.

(** An entry of the service catalog [SERVICE_OPTIONS] (../constants). *)
Record ServiceOption := {
  id : string;
  title : string;
  hourlyRate : number;
  recommendedHours : number
}.

(** The logged-in user handed to the component, every field optional. *)
Module User.
Record t := {
  firstName : option string;
  lastName : option string;
  email : option string;
  phone : option string;
  address : option string
}.
End User.

Record HomeEstimator := {
  bedrooms : number;
  bathrooms : number;
  kitchen : number;
  living : number
}.

Record OfficeEstimator := {
  rooms : number;
  cafeteria : number;
  desks : number;
  washrooms : number
}.

(** [keyof typeof homeEstimator] and [keyof typeof officeEstimator]. *)
Inductive HomeField := Bedrooms | Bathrooms | Kitchen | Living.
Inductive OfficeField := Rooms | Cafeteria | Desks | Washrooms.

Definition INITIAL_STATE : BookingState := {|
  step := 1;
  service := None;
  hours := 3;
  date := None;
  timeSlot := None;
  clientDetails := {| firstName := ""; lastName := ""; email := "";
                      phone := ""; address := ""; notes := "" |};
  paymentStatus := pending
|}.

Definition HST_RATE : number := 0.13.

(** Object spreads [{ ...b, field: v }]. *)
Definition with_step (v : number) (b : BookingState) : BookingState :=
  {| step := v; service := service b; hours := hours b; date := date b;
     timeSlot := timeSlot b; clientDetails := clientDetails b;
     paymentStatus := paymentStatus b |}.

Definition with_hours (v : number) (b : BookingState) : BookingState :=
  {| step := step b; service := service b; hours := v; date := date b;
     timeSlot := timeSlot b; clientDetails := clientDetails b;
     paymentStatus := paymentStatus b |}.

Definition with_clientDetails (v : ClientDetails) (b : BookingState) : BookingState :=
  {| step := step b; service := service b; hours := hours b; date := date b;
     timeSlot := timeSlot b; clientDetails := v;
     paymentStatus := paymentStatus b |}.

(** ** Estimators *)

Definition home_get (f : HomeField) (e : HomeEstimator) : number :=
  match f with
  | Bedrooms => bedrooms e
  | Bathrooms => bathrooms e
  | Kitchen => kitchen e
  | Living => living e
  end.

Definition home_set (f : HomeField) (v : number) (e : HomeEstimator) : HomeEstimator :=
  match f with
  | Bedrooms => {| bedrooms := v; bathrooms := bathrooms e; kitchen := kitchen e; living := living e |}
  | Bathrooms => {| bedrooms := bedrooms e; bathrooms := v; kitchen := kitchen e; living := living e |}
  | Kitchen => {| bedrooms := bedrooms e; bathrooms := bathrooms e; kitchen := v; living := living e |}
  | Living => {| bedrooms := bedrooms e; bathrooms := bathrooms e; kitchen := kitchen e; living := v |}
  end.

Definition office_get (f : OfficeField) (e : OfficeEstimator) : number :=
  match f with
  | Rooms => rooms e
  | Cafeteria => cafeteria e
  | Desks => desks e
  | Washrooms => washrooms e
  end.

Definition office_set (f : OfficeField) (v : number) (e : OfficeEstimator) : OfficeEstimator :=
  match f with
  | Rooms => {| rooms := v; cafeteria := cafeteria e; desks := desks e; washrooms := washrooms e |}
  | Cafeteria => {| rooms := rooms e; cafeteria := v; desks := desks e; washrooms := washrooms e |}
  | Desks => {| rooms := rooms e; cafeteria := cafeteria e; desks := v; washrooms := washrooms e |}
  | Washrooms => {| rooms := rooms e; cafeteria := cafeteria e; desks := desks e; washrooms := v |}
  end.

(** The body of the updater passed to [setHomeEstimator]: the new counters
    and the hours it hands to [setBooking]. *)
Definition homeUpdate (field : HomeField) (delta : number) (prev : HomeEstimator)
  : HomeEstimator * number :=
  let nextValue := Math_max 0 (home_get field prev + delta) in
  let newState := home_set field nextValue prev in
  let hours := 0 in
  let hours := hours + kitchen newState * 0.75 in
  let hours := hours + bathrooms newState * 0.5 in
  let hours := hours + bedrooms newState * 0.3 in
  let hours := hours + living newState * 0.25 in
  let rounded := Math_ceil (hours * 2) / 2 in
  let finalHours := Math_max 2 rounded in
  (newState, finalHours).

(** The body of the updater passed to [setOfficeEstimator]. *)
Definition officeUpdate (field : OfficeField) (delta : number) (prev : OfficeEstimator)
  : OfficeEstimator * number :=
  let nextValue := Math_max 0 (office_get field prev + delta) in
  let newState := office_set field nextValue prev in
  let hours := 0 in
  let hours := hours + rooms newState * 0.3 in
  let hours := hours + cafeteria newState * 0.67 in
  let hours := hours + desks newState * 0.133 in
  let hours := hours + washrooms newState * 0.42 in
  let hours := hours + 0.75 in
  let rounded := Math_ceil (hours * 2) / 2 in
  let finalHours := Math_max 3 rounded in
  (newState, finalHours).

(** ** Component state

    [booking], the two estimators, the slot list and its loading flag are
    the [useState] cells of the component.  [inFlight] holds the calls of
    [getRealAvailability] that have been issued and have not settled,
    each with the arguments it was issued with; [nextFetch] names the
    next call.  [console] collects what [console.error] was given. *)

Record Fetch := {
  fetch_id : nat;
  fetch_date : option string;
  fetch_duration : number
}.

Record Wizard := {
  booking : BookingState;
  homeEstimator : HomeEstimator;
  officeEstimator : OfficeEstimator;
  availableSlots : list TimeSlot;
  isLoadingSlots : bool;
  inFlight : list Fetch;
  nextFetch : nat;
  console : list (string * string)
}.

Definition with_booking (v : BookingState) (w : Wizard) : Wizard :=
  {| booking := v; homeEstimator := homeEstimator w;
     officeEstimator := officeEstimator w; availableSlots := availableSlots w;
     isLoadingSlots := isLoadingSlots w; inFlight := inFlight w;
     nextFetch := nextFetch w; console := console w |}.

Definition setHomeEstimator (v : HomeEstimator) (w : Wizard) : Wizard :=
  {| booking := booking w; homeEstimator := v;
     officeEstimator := officeEstimator w; availableSlots := availableSlots w;
     isLoadingSlots := isLoadingSlots w; inFlight := inFlight w;
     nextFetch := nextFetch w; console := console w |}.

Definition setOfficeEstimator (v : OfficeEstimator) (w : Wizard) : Wizard :=
  {| booking := booking w; homeEstimator := homeEstimator w;
     officeEstimator := v; availableSlots := availableSlots w;
     isLoadingSlots := isLoadingSlots w; inFlight := inFlight w;
     nextFetch := nextFetch w; console := console w |}.

Definition setAvailableSlots (v : list TimeSlot) (w : Wizard) : Wizard :=
  {| booking := booking w; homeEstimator := homeEstimator w;
     officeEstimator := officeEstimator w; availableSlots := v;
     isLoadingSlots := isLoadingSlots w; inFlight := inFlight w;
     nextFetch := nextFetch w; console := console w |}.

Definition setIsLoadingSlots (v : bool) (w : Wizard) : Wizard :=
  {| booking := booking w; homeEstimator := homeEstimator w;
     officeEstimator := officeEstimator w; availableSlots := availableSlots w;
     isLoadingSlots := v; inFlight := inFlight w;
     nextFetch := nextFetch w; console := console w |}.

Definition console_error (msg err : string) (w : Wizard) : Wizard :=
  {| booking := booking w; homeEstimator := homeEstimator w;
     officeEstimator := officeEstimator w; availableSlots := availableSlots w;
     isLoadingSlots := isLoadingSlots w; inFlight := inFlight w;
     nextFetch := nextFetch w; console := (msg, err) :: console w |}.

(** Issue [getRealAvailability(d, duration)]: the call is in flight until
    it settles. *)
Definition getRealAvailability (d : option string) (duration : number) (w : Wizard) : Wizard :=
  {| booking := booking w; homeEstimator := homeEstimator w;
     officeEstimator := officeEstimator w; availableSlots := availableSlots w;
     isLoadingSlots := isLoadingSlots w;
     inFlight := inFlight w ++ [{| fetch_id := nextFetch w; fetch_date := d;
                                   fetch_duration := duration |}];
     nextFetch := S (nextFetch w); console := console w |}.

Definition drop_fetch (n : nat) (w : Wizard) : Wizard :=
  {| booking := booking w; homeEstimator := homeEstimator w;
     officeEstimator := officeEstimator w; availableSlots := availableSlots w;
     isLoadingSlots := isLoadingSlots w;
     inFlight := filter (fun f => negb (Nat.eqb (fetch_id f) n)) (inFlight w);
     nextFetch := nextFetch w; console := console w |}.

Definition is_in_flight (n : nat) (w : Wizard) : bool :=
  existsb (fun f => Nat.eqb (fetch_id f) n) (inFlight w).

(** ** The availability effect, [useEffect(..., [booking.date, booking.hours])] *)

(** How the awaited promise settles. *)
Inductive Settled :=
| Fulfilled (slots : list TimeSlot)
| Rejected (err : string).

(** How a block of statements completes. *)
Inductive Completion :=
| Normal
| Throw (err : string).

Definition Block := Wizard -> Wizard * Completion.

Definition try_catch (body : Block) (handler : string -> Block) : Block :=
  fun w =>
    match body w with
    | (w', Normal) => (w', Normal)
    | (w', Throw err) => handler err w'
    end.

(** [finally] with a block that cannot throw: it runs either way and the
    completion of the protected block is kept. *)
Definition try_finally (body : Block) (fin : Wizard -> Wizard) : Block :=
  fun w => let (w', c) := body w in (fin w', c).

(** [fetchSlots] up to its [await]: the guard, the loading flag and the
    call of the availability service with [Math.ceil(booking.hours)]. *)
Definition fetchSlots (w : Wizard) : Wizard :=
  if (truthy_string (date (booking w)) && truthy (hours (booking w)))%bool then
    let w := setIsLoadingSlots true w in
    let duration := Math_ceil (hours (booking w)) in
    getRealAvailability (date (booking w)) duration w
  else w.

(** [fetchSlots] from its [await] on, once the promise has settled:
    [try { setAvailableSlots(slots) } catch { console.error } finally
    { setIsLoadingSlots(false) }]. *)
Definition fetchSlots_resume (r : Settled) : Block :=
  try_finally
    (try_catch
       (fun w =>
          match r with
          | Fulfilled slots => (setAvailableSlots slots w, Normal)
          | Rejected err => (w, Throw err)
          end)
       (fun err w => (console_error "Failed to load slots" err w, Normal)))
    (setIsLoadingSlots false).

(** The effect body. *)
Definition availabilityEffect (w : Wizard) : Wizard :=
  fetchSlots (setAvailableSlots [] w).

(** The promise of call [n] settles: its continuation runs, if the call
    is in flight. *)
Definition settle (n : nat) (r : Settled) (w : Wizard) : Wizard * Completion :=
  if is_in_flight n w then fetchSlots_resume r (drop_fetch n w)
  else (w, Normal).

Definition option_string_eqb (a b : option string) : bool :=
  match a, b with
  | Some x, Some y => String.eqb x y
  | None, None => true
  | _, _ => false
  end.

(** React compares the dependency array [booking.date, booking.hours]
    of two renders entry by entry with [Object.is]. *)
Definition deps_changed (old new : BookingState) : bool :=
  negb (option_string_eqb (date old) (date new)
        && Object_is (hours old) (hours new)).

(** [setBooking(updater)] followed by the render it causes: the effect
    runs when a dependency changed. *)
Definition setBooking (updater : BookingState -> BookingState) (w : Wizard) : Wizard :=
  let w' := with_booking (updater (booking w)) w in
  if deps_changed (booking w) (booking w') then availabilityEffect w' else w'.

(** ** Handlers *)

Definition handleNext : Wizard -> Wizard :=
  setBooking (fun prev => with_step (step prev + 1) prev).

Definition handleBack : Wizard -> Wizard :=
  setBooking (fun prev => with_step (step prev - 1) prev).

Definition handleHomeChange (field : HomeField) (delta : number) (w : Wizard) : Wizard :=
  let (newState, finalHours) := homeUpdate field delta (homeEstimator w) in
  setBooking (fun b => with_hours finalHours b) (setHomeEstimator newState w).

Definition handleOfficeChange (field : OfficeField) (delta : number) (w : Wizard) : Wizard :=
  let (newState, finalHours) := officeUpdate field delta (officeEstimator w) in
  setBooking (fun b => with_hours finalHours b) (setOfficeEstimator newState w).

(** The [onChange] of the range input; [value] is
    [parseFloat(e.target.value)]. *)
Definition sliderChange (value : number) (w : Wizard) : Wizard :=
  setBooking (fun _ => with_hours value (booking w)) w.

(** What a range input with [min=2 max=10 step=0.5] can report. *)
Definition slider_values : list number :=
  [2; 2.5; 3; 3.5; 4; 4.5; 5; 5.5; 6; 6.5; 7; 7.5; 8; 8.5; 9; 9.5; 10].

(** ** Mount *)

Definition initial : Wizard := {|
  booking := INITIAL_STATE;
  homeEstimator := {| bedrooms := 2; bathrooms := 1; kitchen := 1; living := 1 |};
  officeEstimator := {| rooms := 6; cafeteria := 0; desks := 20; washrooms := 2 |};
  availableSlots := [];
  isLoadingSlots := false;
  inFlight := [];
  nextFetch := O;
  console := []
|}.

(** The effect that copies the logged-in user into the client details. *)
Definition autofillEffect (currentUser : option User.t) (w : Wizard) : Wizard :=
  match currentUser with
  | Some u =>
      setBooking
        (fun prev =>
           with_clientDetails
             {| firstName := or_empty (User.firstName u);
                lastName := or_empty (User.lastName u);
                email := or_empty (User.email u);
                phone := or_empty (User.phone u);
                address := or_empty (User.address u);
                notes := notes (clientDetails prev) |}
             prev)
        w
  | None => w
  end.

(** First render and its two effects, in the order they are declared. *)
Definition mount (currentUser : option User.t) : Wizard :=
  availabilityEffect (autofillEffect currentUser initial).

(** ** Pricing, recomputed on each render *)

Section Pricing.

Variable SERVICE_OPTIONS : list ServiceOption.

(** [s.id === booking.service] *)
Definition id_strict_eq (a : string) (b : option string) : bool :=
  match b with
  | Some b => String.eqb a b
  | None => false
  end.

Definition currentService (b : BookingState) : option ServiceOption :=
  find (fun s => id_strict_eq (id s) (service b)) SERVICE_OPTIONS.

Definition isOfficeService (b : BookingState) : bool :=
  match currentService b with
  | Some s => String.eqb (id s) "office"
  | None => false
  end.

Definition subtotal (b : BookingState) : number :=
  match currentService b with
  | Some s => hourlyRate s * hours b
  | None => 0
  end.

Definition hstAmount (b : BookingState) : number := subtotal b * HST_RATE.
Definition totalCost (b : BookingState) : number := subtotal b + hstAmount b.
Definition depositAmount (b : BookingState) : number := totalCost b * 0.30.
Definition remainingAmount (b : BookingState) : number := totalCost b * 0.70.

End Pricing.

(** ** Events of a session

    What can happen to a mounted wizard: the two step buttons, a counter
    button of either estimator (the buttons pass +1 or -1), the slider,
    the settling of an availability call, and any other write to the
    booking record that leaves [hours] alone (choosing a service, a date
    or a slot, typing client details, payment status). *)

Inductive Event :=
| Next
| Back
| HomeCounter (field : HomeField) (delta : number)
| OfficeCounter (field : OfficeField) (delta : number)
| Slider (value : number)
| Settle (n : nat) (r : Settled)
| OtherWrite (updater : BookingState -> BookingState).

Definition run (ev : Event) (w : Wizard) : Wizard :=
  match ev with
  | Next => handleNext w
  | Back => handleBack w
  | HomeCounter field delta => handleHomeChange field delta w
  | OfficeCounter field delta => handleOfficeChange field delta w
  | Slider value => sliderChange value w
  | Settle n r => fst (settle n r w)
  | OtherWrite updater => setBooking updater w
  end.

Definition possible (ev : Event) : Prop :=
  match ev with
  | HomeCounter _ delta | OfficeCounter _ delta => delta = 1 \/ delta = -1
  | Slider value => In value slider_values
  | OtherWrite updater => forall b, hours (updater b) = hours b
  | _ => True
  end.

Inductive reachable (currentUser : option User.t) : Wizard -> Prop :=
| reachable_mount : reachable currentUser (mount currentUser)
| reachable_run w ev :
    reachable currentUser w -> possible ev -> reachable currentUser (run ev w).

Fixpoint run_all (evs : list Event) (w : Wizard) : Wizard :=
  match evs with
  | [] => w
  | ev :: evs => run_all evs (run ev w)
  end.

(** ** Properties of numbers used in the statements *)

(** The sign bit is clear and the value is not NaN: +0, a positive finite
    value or +Infinity. *)
Definition SFnonneg (x : spec_float) : bool :=
  match x with
  | S754_zero false | S754_infinity false | S754_finite false _ _ => true
  | _ => false
  end.

Definition SFpositive (x : spec_float) : bool :=
  match x with
  | S754_finite false _ _ => true
  | _ => false
  end.

Definition SFfinite (x : spec_float) : bool :=
  match x with
  | S754_zero _ | S754_finite _ _ _ => true
  | _ => false
  end.

(** [m * 2^e] is a multiple of [2^t]: either [e >= t], or the low
    [t - e] bits of [m] are zero. *)
Definition scaled (t : Z) (m e : Z) : Prop :=
  (t <= e)%Z \/ (m mod 2 ^ (t - e) = 0)%Z.

Definition scaledb (t : Z) (m e : Z) : bool :=
  ((t <=? e)%Z || (m mod 2 ^ (t - e) =? 0)%Z)%bool.

(** A finite value that is a multiple of [2^t]. *)
Definition SFmultiple (t : Z) (x : spec_float) : bool :=
  match x with
  | S754_zero _ => true
  | S754_finite _ m e => scaledb t (Z.pos m) e
  | _ => false
  end.

Definition nonneg (x : number) : bool := SFnonneg (Prim2SF x).
Definition finite (x : number) : bool := SFfinite (Prim2SF x).

(** [x] is finite and a whole number. *)
Definition is_integer (x : number) : bool := SFmultiple 0 (Prim2SF x).

(** [x] is finite and a multiple of 0.5. *)
Definition multiple_of_half (x : number) : bool := SFmultiple (-1) (Prim2SF x).

(** Non-negative, finite and below [2^k]. *)
Definition SFbelow (k : Z) (x : spec_float) : bool :=
  match x with
  | S754_zero false => true
  | S754_finite false m e => (Z.pos (digits2_pos m) + e <=? k)%Z
  | _ => false
  end.

(** A whole number between 0 and 2^53: what a counter that starts at a
    small whole number and moves by one can hold. *)
Definition SFcounter (x : spec_float) : bool :=
  match x with
  | S754_zero false => true
  | S754_finite false m e =>
      (scaledb 0 (Z.pos m) e && (Z.pos (digits2_pos m) + e <=? 53)%Z
       || (Z.pos m =? 2 ^ 52)%Z && (e =? 1)%Z)%bool
  | _ => false
  end.

Definition SFone : spec_float := S754_finite false 4503599627370496 (-52).
Definition SFminus_one : spec_float := S754_finite true 4503599627370496 (-52).
Definition SFtwo : spec_float := S754_finite false 4503599627370496 (-51).

(** [0 <= x < 2^k]. *)
Definition below (k : Z) (x : number) : bool := SFbelow k (Prim2SF x).

(** [x] is a whole number with [0 <= x <= 2^53]. *)
Definition is_counter (x : number) : bool := SFcounter (Prim2SF x).

Definition home_counters (e : HomeEstimator) : Prop :=
  is_counter (bedrooms e) = true /\ is_counter (bathrooms e) = true /\
  is_counter (kitchen e) = true /\ is_counter (living e) = true.

Definition office_counters (e : OfficeEstimator) : Prop :=
  is_counter (rooms e) = true /\ is_counter (cafeteria e) = true /\
  is_counter (desks e) = true /\ is_counter (washrooms e) = true.

Definition home_nonneg (e : HomeEstimator) : Prop :=
  nonneg (bedrooms e) = true /\ nonneg (bathrooms e) = true /\
  nonneg (kitchen e) = true /\ nonneg (living e) = true.

Definition office_nonneg (e : OfficeEstimator) : Prop :=
  nonneg (rooms e) = true /\ nonneg (cafeteria e) = true /\
  nonneg (desks e) = true /\ nonneg (washrooms e) = true.

(** ** The estimator formulas in the words of the specification (4.1) *)

Definition roundUpToHalf (x : number) : number := Math_ceil (x * 2) / 2.

Definition homeHours (counts : HomeEstimator) : number :=
  let raw := kitchen counts * 0.75 + bathrooms counts * 0.5
             + bedrooms counts * 0.3 + living counts * 0.25 in
  Math_max 2 (roundUpToHalf raw).

Definition officeHours (counts : OfficeEstimator) : number :=
  let raw := rooms counts * 0.3 + cafeteria counts * 0.67
             + desks counts * 0.133 + washrooms counts * 0.42 + 0.75 in
  Math_max 3 (roundUpToHalf raw).

(** ** Other writes to the booking record

    The handlers that choose a service, a date and a time slot are
    elided in the source ([renderServiceSelection],
    [renderDateTimeSelection]).  The properties below take them as
    instances of an arbitrary write that leaves [hours] alone; these are
    the spreads such a handler passes to [setBooking]. *)

(** Modelled from the spec: the service choice, which is elided in the
    source, writes [service] ("service: ServiceType or none"). *)
Definition with_service (v : option string) (b : BookingState) : BookingState :=
  {| step := step b; service := v; hours := hours b; date := date b;
     timeSlot := timeSlot b; clientDetails := clientDetails b;
     paymentStatus := paymentStatus b |}.

(** Modelled from the spec: the date choice, which is elided in the
    source, writes [date] ("date: date or none"). *)
Definition with_date (v : option string) (b : BookingState) : BookingState :=
  {| step := step b; service := service b; hours := hours b; date := v;
     timeSlot := timeSlot b; clientDetails := clientDetails b;
     paymentStatus := paymentStatus b |}.

(** Modelled from the spec: the slot choice, which is elided in the
    source, writes [timeSlot] ("timeSlot: TimeSlot or none"). *)
Definition with_timeSlot (v : option TimeSlot) (b : BookingState) : BookingState :=
  {| step := step b; service := service b; hours := hours b; date := date b;
     timeSlot := v; clientDetails := clientDetails b;
     paymentStatus := paymentStatus b |}.

(** ** Concrete data for the examples *)

(** A two-entry catalog: the home service of the specification's
    scenario (50 dollars an hour) and an office service. *)
Definition example_catalog : list ServiceOption :=
  [ {| id := "standard"; title := "Standard Home Clean";
       hourlyRate := 50; recommendedHours := 3 |};
    {| id := "office"; title := "Office Cleaning";
       hourlyRate := 65; recommendedHours := 4 |} ].

Definition slot_9 : TimeSlot :=
  {| start := "09:00"; end_ := "12:00"; available := true |}.

Definition slot_13 : TimeSlot :=
  {| start := "13:00"; end_ := "16:00"; available := true |}.



(** The initial wizard with a date chosen. *)
Definition dated : Wizard :=
  with_booking (with_date (Some "2025-06-02"%string) INITIAL_STATE) initial.





(** ** What holds of [booking.hours] throughout a session *)

(** Not NaN and not negative, at least 2, and a (finite) multiple of
    one half. *)
Definition hours_ok (h : number) : Prop :=
  nonneg h = true /\ (2 <=? h) = true /\ multiple_of_half h = true.

Definition session_invariant (w : Wizard) : Prop :=
  home_counters (homeEstimator w) /\ office_counters (officeEstimator w) /\
  hours_ok (hours (booking w)).

(** ** The counter component and the estimator section of the duration
    step *)

(** A rendered button: what a click does, and whether the button is
    disabled. *)
Record Button := {
  onClick : Wizard -> Wizard;
  disabled : bool
}.

(** What [Counter] renders: its label, the note when there is one, the
    value, and the minus and plus buttons. *)
Record CounterView := {
  counter_label : string;
  counter_note : option string;
  counter_value : number;
  minus : Button;
  plus : Button
}.

(** The [Counter] component: the note is rendered when it is truthy,
    the minus button passes -1 and is disabled when [value === 0], the
    plus button passes 1. *)
Definition Counter (label : string) (value : number)
    (onChange : number -> Wizard -> Wizard) (note : option string) : CounterView :=
  {| counter_label := label;
     counter_note := if truthy_string note then note else None;
     counter_value := value;
     minus := {| onClick := onChange (-1); disabled := (value =? 0) |};
     plus := {| onClick := onChange 1; disabled := false |} |}.

(** The counters [renderDurationSelection] shows under "Time Estimator":
    those of the office estimator for the office service, those of the
    home estimator otherwise. *)
Definition estimatorSection (SERVICE_OPTIONS : list ServiceOption) (w : Wizard)
  : list CounterView :=
  if isOfficeService SERVICE_OPTIONS (booking w) then
    [ Counter "General Rooms/Open Areas" (rooms (officeEstimator w))
        (handleOfficeChange Rooms) (Some "Conference rooms, open floors"%string);
      Counter "Cafeteria/Break Rooms" (cafeteria (officeEstimator w))
        (handleOfficeChange Cafeteria) (Some "Food areas take longer"%string);
      Counter "Desks/Workstations" (desks (officeEstimator w))
        (handleOfficeChange Desks) (Some "Quick wipe per desk"%string);
      Counter "Washrooms/Restrooms" (washrooms (officeEstimator w))
        (handleOfficeChange Washrooms) (Some "Full disinfection"%string) ]
  else
    [ Counter "Bedrooms" (bedrooms (homeEstimator w))
        (handleHomeChange Bedrooms) None;
      Counter "Bathrooms" (bathrooms (homeEstimator w))
        (handleHomeChange Bathrooms) None;
      Counter "Kitchens" (kitchen (homeEstimator w))
        (handleHomeChange Kitchen) None;
      Counter "Living Areas" (living (homeEstimator w))
        (handleHomeChange Living) None ].

(** The raw estimate of [handleHomeChange]: [hours] as it stands before
    it is rounded. *)
Definition homeRaw (e : HomeEstimator) : number :=
  let hours := 0 in
  let hours := hours + kitchen e * 0.75 in
  let hours := hours + bathrooms e * 0.5 in
  let hours := hours + bedrooms e * 0.3 in
  let hours := hours + living e * 0.25 in
  hours.

(** The raw estimate of [handleOfficeChange], base time included. *)
Definition officeRaw (e : OfficeEstimator) : number :=
  let hours := 0 in
  let hours := hours + rooms e * 0.3 in
  let hours := hours + cafeteria e * 0.67 in
  let hours := hours + desks e * 0.133 in
  let hours := hours + washrooms e * 0.42 in
  let hours := hours + 0.75 in
  hours.

(** Counter by counter, the home counters [a] are at most [b]. *)
Definition home_le (a b : HomeEstimator) : Prop :=
  (bedrooms a <=? bedrooms b) = true /\ (bathrooms a <=? bathrooms b) = true /\
  (kitchen a <=? kitchen b) = true /\ (living a <=? living b) = true.

(** Counter by counter, the office counters [a] are at most [b]. *)
Definition office_le (a b : OfficeEstimator) : Prop :=
  (rooms a <=? rooms b) = true /\ (cafeteria a <=? cafeteria b) = true /\
  (desks a <=? desks b) = true /\ (washrooms a <=? washrooms b) = true.

(** ** Non-negative numbers by their value

    For the order and round-trip properties a non-negative binary64
    number is read as a whole number of units of 2^-2200, small enough
    for every exact sum and product of two numbers to be a whole number
    of units. *)

(** [m * 2^e] in units of 2^-2200. *)
Definition scale (m e : Z) : Z := (m * 2 ^ (e + 2200))%Z.

(** 2^1024 in these units: what stands for +Infinity. *)
Definition top : Z := (2 ^ 3224)%Z.

(** The value of a non-negative number in these units; what is negative
    or NaN counts as 0. *)
Definition SFvalue (x : spec_float) : Z :=
  match x with
  | S754_finite false m e => scale (Z.pos m) e
  | S754_infinity false => top
  | _ => 0%Z
  end.

(** [v / 2^k] rounded to the nearest whole number, ties to even. *)
Definition rne (v k : Z) : Z :=
  let q := (v / 2 ^ k)%Z in
  match (2 * (v mod 2 ^ k) ?= 2 ^ k)%Z with
  | Lt => q
  | Eq => if Z.even q then q else (q + 1)%Z
  | Gt => (q + 1)%Z
  end.

(** The value of 1 in these units. *)
Definition whole : Z := (2 ^ 2200)%Z.

(** The value of 0.5 in these units. *)
Definition half_whole : Z := (2 ^ 2199)%Z.

(** The value of a non-negative number; +Infinity counts as 2^1024. *)
Definition value (x : number) : Z := SFvalue (Prim2SF x).

(** A value rounded to binary64: to the nearest multiple of the unit in
    the last place of its binade (2^-1074 at least), ties to even. *)
Definition round64 (v : Z) : Z :=
  let n := (fexp 53 1024 (Zdigits2 v - 2200) + 2200)%Z in
  (rne v n * 2 ^ n)%Z.

(** [mrs] holds [v] shifted right by [k] bits, with the position of
    what was shifted out. *)
Definition shifted (v k : Z) (mrs : shr_record) : Prop :=
  exists r, (0 <= r < 2 ^ k)%Z /\ v = (shr_m mrs * 2 ^ k + r)%Z /\
    loc_of_shr_record mrs
    = if (r =? 0)%Z then loc_Exact else loc_Inexact (2 * r ?= 2 ^ k)%Z.

(** * Facts about binary64 rounding

    The Standard Library specifies the primitive operations through
    [SpecFloat]; what follows are the consequences of that specification
    the properties below rest on: rounding a non-negative quantity never
    produces a negative value or NaN, and rounding a multiple of [2^t]
    gives a multiple of [2^t]. *)

Section Rounding.

Local Open Scope Z_scope.

Variables prec emax : Z.

Lemma iter_pos_invariant {A} (f : A -> A) (P : A -> Prop) :
  (forall x, P x -> P (f x)) -> forall n x, P x -> P (iter_pos f n x).
Proof.
  intros Hf. induction n as [n IH | n IH |]; intros x Hx; simpl; auto.
Qed.

Lemma shr_1_nonneg mrs : 0 <= shr_m mrs -> 0 <= shr_m (shr_1 mrs).
Proof.
  destruct mrs as [m r s]. simpl.
  destruct m as [| p | p]; simpl; try lia.
  destruct p; simpl; lia.
Qed.

Lemma shr_nonneg mrs e n :
  0 <= shr_m mrs -> 0 <= shr_m (fst (shr mrs e n)).
Proof.
  intros H. destruct n; simpl; auto.
  apply iter_pos_invariant; auto using shr_1_nonneg.
Qed.

Lemma shr_record_of_loc_m m l : shr_m (shr_record_of_loc m l) = m.
Proof. destruct l as [| []]; reflexivity. Qed.

Lemma shr_fexp_nonneg m e l :
  0 <= m -> 0 <= shr_m (fst (shr_fexp prec emax m e l)).
Proof.
  intros H. unfold shr_fexp. apply shr_nonneg.
  rewrite shr_record_of_loc_m. exact H.
Qed.

Lemma round_nearest_even_nonneg m l :
  0 <= m -> 0 <= round_nearest_even m l.
Proof.
  intros H. destruct l as [| []]; simpl; try lia.
  destruct (Z.even m); lia.
Qed.

(** Rounding a non-negative mantissa gives a zero, a finite value or an
    infinity of the sign asked for, never NaN. *)
Lemma binary_round_aux_sign s m e l :
  0 <= m ->
  match binary_round_aux prec emax s m e l with
  | S754_zero s' | S754_infinity s' | S754_finite s' _ _ => s' = s
  | S754_nan => False
  end.
Proof.
  intros H. unfold binary_round_aux.
  pose proof (shr_fexp_nonneg m e l H) as H1.
  destruct (shr_fexp prec emax m e l) as [mrs' e'] eqn:E1. simpl in H1.
  pose proof (shr_fexp_nonneg
                (round_nearest_even (shr_m mrs') (loc_of_shr_record mrs')) e'
                loc_Exact (round_nearest_even_nonneg _ _ H1)) as H2.
  destruct (shr_fexp prec emax _ e' loc_Exact) as [mrs'' e''] eqn:E2.
  simpl in H2.
  destruct (shr_m mrs'') as [| p | p]; try lia; auto.
  destruct (e'' <=? emax - prec); reflexivity.
Qed.

Lemma binary_round_aux_nonneg m e l :
  0 <= m -> SFnonneg (binary_round_aux prec emax false m e l) = true.
Proof.
  intros H. pose proof (binary_round_aux_sign false m e l H) as S.
  destruct (binary_round_aux prec emax false m e l); try contradiction;
    subst; reflexivity.
Qed.

Lemma binary_round_sign s m e :
  match binary_round prec emax s m e with
  | S754_zero s' | S754_infinity s' | S754_finite s' _ _ => s' = s
  | S754_nan => False
  end.
Proof.
  unfold binary_round. destruct (shl_align m e _) as [mz ez].
  apply binary_round_aux_sign. lia.
Qed.

Lemma binary_round_nonneg m e :
  SFnonneg (binary_round prec emax false m e) = true.
Proof.
  pose proof (binary_round_sign false m e) as S.
  destruct (binary_round prec emax false m e); try contradiction;
    subst; reflexivity.
Qed.

Lemma binary_normalize_nonneg m e :
  0 <= m -> SFnonneg (binary_normalize prec emax m e false) = true.
Proof.
  intros H. destruct m as [| p | p]; simpl; try lia; auto.
  apply binary_round_nonneg.
Qed.

Lemma SFmul_nonneg x y :
  SFnonneg x = true -> SFpositive y = true ->
  SFnonneg (SFmul prec emax x y) = true.
Proof.
  destruct x as [[]|[]| |[] mx ex]; destruct y as [[]|[]| |[] my ey];
    simpl; try discriminate; auto.
  intros _ _. apply binary_round_aux_nonneg. lia.
Qed.

Lemma SFdiv_nonneg x y :
  SFnonneg x = true -> SFpositive y = true ->
  SFnonneg (SFdiv prec emax x y) = true.
Proof.
  destruct x as [[]|[]| |[] mx ex]; destruct y as [[]|[]| |[] my ey];
    simpl; try discriminate; auto.
  intros _ _.
  unfold SFdiv_core_binary.
  set (m' := match _ with Z0 => _ | Z.pos _ => _ | Z.neg _ => _ end).
  assert (Hm' : 0 <= m').
  { subst m'. destruct (_ - _ - _); try lia. apply Z.shiftl_nonneg. lia. }
  pose proof (Z_div_mod m' (Z.pos my) eq_refl) as D.
  destruct (Z.div_eucl m' (Z.pos my)) as [q r].
  apply binary_round_aux_nonneg. nia.
Qed.

(** ** Multiples of a power of two *)

Lemma shr_1_double y :
  0 <= y ->
  shr_1 {| shr_m := 2 * y; shr_r := false; shr_s := false |}
  = {| shr_m := y; shr_r := false; shr_s := false |}.
Proof.
  intros H. destruct y as [| p | p]; try lia; reflexivity.
Qed.

Lemma pow2_xO p : 2 ^ Z.pos p~0 = 2 ^ Z.pos p * 2 ^ Z.pos p.
Proof.
  replace (Z.pos p~0) with (Z.pos p + Z.pos p) by lia.
  apply Z.pow_add_r; lia.
Qed.

Lemma pow2_xI p : 2 ^ Z.pos p~1 = 2 * (2 ^ Z.pos p * 2 ^ Z.pos p).
Proof.
  replace (Z.pos p~1) with (1 + (Z.pos p + Z.pos p)) by lia.
  rewrite !Z.pow_add_r by lia. reflexivity.
Qed.

(** Shifting out [p] zero bits is exact. *)
Lemma iter_shr_1_exact p : forall z,
  0 <= z ->
  iter_pos shr_1 p {| shr_m := z * 2 ^ Z.pos p; shr_r := false; shr_s := false |}
  = {| shr_m := z; shr_r := false; shr_s := false |}.
Proof.
  induction p as [p IH | p IH |]; intros z Hz; cbn [iter_pos].
  - assert (H2 : 0 < 2 ^ Z.pos p) by (apply Z.pow_pos_nonneg; lia).
    replace (z * 2 ^ Z.pos p~1) with (2 * ((z * 2 ^ Z.pos p) * 2 ^ Z.pos p))
      by (rewrite pow2_xI; ring).
    rewrite shr_1_double by nia.
    rewrite IH by nia. apply IH, Hz.
  - assert (H2 : 0 < 2 ^ Z.pos p) by (apply Z.pow_pos_nonneg; lia).
    replace (z * 2 ^ Z.pos p~0) with ((z * 2 ^ Z.pos p) * 2 ^ Z.pos p)
      by (rewrite pow2_xO; ring).
    rewrite IH by nia. apply IH, Hz.
  - rewrite Z.pow_1_r, Z.mul_comm. apply shr_1_double, Hz.
Qed.

Lemma scaled_split t m e :
  scaled t m e -> e < t -> exists z, m = z * 2 ^ (t - e).
Proof.
  intros [H | H] Hlt; [lia|].
  exists (m / 2 ^ (t - e)).
  rewrite (Z.div_mod m (2 ^ (t - e))) at 1 by (apply Z.pow_nonzero; lia).
  rewrite H. ring.
Qed.

Lemma scaled_mul t z e k :
  0 <= k -> t - e <= k -> scaled t (z * 2 ^ k) e.
Proof.
  intros Hk Hle. destruct (Z_le_gt_dec t e) as [H | H]; [left; exact H | right].
  replace k with ((k - (t - e)) + (t - e)) by lia.
  rewrite Z.pow_add_r, Z.mul_assoc by lia.
  apply Z.mod_mul. apply Z.pow_nonzero; lia.
Qed.

Lemma scaledb_true t m e : scaled t m e -> scaledb t m e = true.
Proof.
  unfold scaledb. intros [H | H].
  - apply Z.leb_le in H. rewrite H. reflexivity.
  - apply Z.eqb_eq in H. rewrite H. apply orb_true_r.
Qed.

Lemma scaledb_scaled t m e : scaledb t m e = true -> scaled t m e.
Proof.
  unfold scaledb. intros H. apply orb_true_iff in H. destruct H as [H | H].
  - left. apply Z.leb_le, H.
  - right. apply Z.eqb_eq, H.
Qed.

Lemma shr_scaled t m e n :
  0 <= m -> scaled t m e ->
  let mrs := fst (shr {| shr_m := m; shr_r := false; shr_s := false |} e n) in
  let e' := snd (shr {| shr_m := m; shr_r := false; shr_s := false |} e n) in
  scaled t (shr_m mrs) e' /\ (e' < t -> loc_of_shr_record mrs = loc_Exact).
Proof.
  intros Hm Hs. destruct n as [| p | p]; simpl.
  - split; [exact Hs | intros _; reflexivity].
  - destruct (Z_le_gt_dec t (e + Z.pos p)) as [H | H].
    + split; [left; exact H | lia].
    + destruct (scaled_split t m e Hs) as [z Hz]; [lia|].
      assert (Hz0 : 0 <= z).
      { assert (0 < 2 ^ (t - e)) by (apply Z.pow_pos_nonneg; lia). nia. }
      replace m with ((z * 2 ^ (t - e - Z.pos p)) * 2 ^ Z.pos p).
      * rewrite iter_shr_1_exact.
        -- simpl. split; [|reflexivity].
           apply scaled_mul; lia.
        -- apply Z.mul_nonneg_nonneg; [exact Hz0|]. apply Z.pow_nonneg; lia.
      * rewrite Hz, <- Z.mul_assoc, <- Z.pow_add_r by lia.
        f_equal. f_equal. lia.
  - split; [exact Hs | intros _; reflexivity].
Qed.

Lemma shr_exponent mrs e n : e <= snd (shr mrs e n).
Proof. destruct n; simpl; lia. Qed.

(** One rounding shift keeps multiples of [2^t], and is exact as long as
    the exponent stays below [t]. *)
Lemma shr_fexp_scaled t m e l :
  0 <= m -> scaled t m e -> (e < t -> l = loc_Exact) ->
  let mrs := fst (shr_fexp prec emax m e l) in
  let e' := snd (shr_fexp prec emax m e l) in
  scaled t (shr_m mrs) e' /\ (e' < t -> loc_of_shr_record mrs = loc_Exact).
Proof.
  intros Hm Hs Hl. unfold shr_fexp.
  destruct (Z_le_gt_dec t e) as [H | H].
  - pose proof (shr_exponent (shr_record_of_loc m l) e
                  (fexp prec emax (Zdigits2 m + e) - e)) as He.
    split; [left; lia | lia].
  - rewrite (Hl ltac:(lia)). simpl shr_record_of_loc.
    apply shr_scaled; assumption.
Qed.

Lemma binary_round_aux_scaled t s m e l :
  0 <= m -> scaled t m e -> (e < t -> l = loc_Exact) ->
  match binary_round_aux prec emax s m e l with
  | S754_finite _ m' e' => scaled t (Z.pos m') e'
  | _ => True
  end.
Proof.
  intros Hm Hs Hl. unfold binary_round_aux.
  pose proof (shr_fexp_scaled t m e l Hm Hs Hl) as [S1 L1].
  pose proof (shr_fexp_nonneg m e l Hm) as N1.
  destruct (shr_fexp prec emax m e l) as [mrs' e'] eqn:E1.
  simpl in S1, L1, N1.
  set (m1 := round_nearest_even (shr_m mrs') (loc_of_shr_record mrs')).
  assert (N2 : 0 <= m1) by (apply round_nearest_even_nonneg, N1).
  assert (S2 : scaled t m1 e').
  { destruct (Z_le_gt_dec t e') as [H | H]; [left; exact H|].
    unfold m1. rewrite L1 by lia. exact S1. }
  pose proof (shr_fexp_scaled t m1 e' loc_Exact N2 S2 (fun _ => eq_refl)) as [S3 _].
  destruct (shr_fexp prec emax m1 e' loc_Exact) as [mrs'' e''] eqn:E2.
  simpl in S3.
  destruct (shr_m mrs'') as [| p | p]; auto.
  destruct (e'' <=? emax - prec); auto.
Qed.

Lemma shl_align_scaled t m e e' :
  scaled t (Z.pos m) e ->
  scaled t (Z.pos (fst (shl_align m e e'))) (snd (shl_align m e e')).
Proof.
  intros Hs. unfold shl_align.
  destruct (e' - e) as [| d | d] eqn:E; simpl; auto.
  change (Pos.iter xO m d) with (Zpower.shift_pos d m).
  rewrite Zpower.shift_pos_correct.
  change (Z.pow_pos 2 d) with (2 ^ Z.pos d). rewrite Z.mul_comm.
  destruct (Z_le_gt_dec t e) as [H | H].
  - apply scaled_mul; lia.
  - destruct (scaled_split t _ e Hs) as [z Hz]; [lia|].
    rewrite Hz, <- Z.mul_assoc, <- Z.pow_add_r by lia.
    apply scaled_mul; lia.
Qed.

Lemma binary_round_scaled t s m e :
  scaled t (Z.pos m) e ->
  match binary_round prec emax s m e with
  | S754_finite _ m' e' => scaled t (Z.pos m') e'
  | _ => True
  end.
Proof.
  intros Hs. unfold binary_round.
  pose proof (shl_align_scaled t m e
                (fexp prec emax (Z.pos (digits2_pos m) + e)) Hs) as H.
  destruct (shl_align m e _) as [mz ez]. simpl in H.
  apply binary_round_aux_scaled; [lia | exact H | reflexivity].
Qed.

(** Converting a whole number in [0, 2^63) gives a whole number. *)
Lemma binary_normalize_integer m :
  0 <= m ->
  match binary_normalize prec emax m 0 false with
  | S754_finite _ m' e' => scaled 0 (Z.pos m') e'
  | _ => True
  end.
Proof.
  intros Hm. destruct m as [| p | p]; simpl; auto; try lia.
  apply binary_round_scaled. left. lia.
Qed.

(** Division by two ([2 = 2^52 * 2^-51]) of a whole number: the quotient
    handed to the rounding is a multiple of one half, exactly. *)
Lemma SFdiv_core_two m e :
  scaled 0 (Z.pos m) e ->
  let '(q, e', l) := SFdiv_core_binary prec emax (Z.pos m) e (2 ^ 52) (-51) in
  0 <= q /\ scaled (-1) q e' /\ (e' < -1 -> l = loc_Exact).
Proof.
  intros Hs. unfold SFdiv_core_binary.
  set (e' := Z.min _ _).
  assert (He' : e' <= e + 51) by (subst e'; lia).
  set (m' := match (e - -51 - e') with Z0 => _ | Z.pos _ => _ | Z.neg _ => _ end).
  assert (Hm' : m' = Z.pos m * 2 ^ (e + 51 - e')).
  { subst m'. destruct (e - -51 - e') as [| p | p] eqn:E; try lia.
    - replace (e + 51 - e') with 0 by lia. rewrite Z.pow_0_r. lia.
    - rewrite Z.shiftl_mul_pow2 by lia. f_equal. f_equal. lia. }
  clearbody m' e'.
  assert (Hq : Z.div_eucl m' (2 ^ 52) = (m' / 2 ^ 52, m' mod 2 ^ 52)).
  { unfold Z.div, Z.modulo. destruct (Z.div_eucl m' (2 ^ 52)); reflexivity. }
  rewrite Hq.
  assert (P52 : 0 < 2 ^ 52) by reflexivity.
  assert (Ps : 0 < 2 ^ (e + 51 - e')) by (apply Z.pow_pos_nonneg; lia).
  split; [apply Z.div_pos; nia|].
  destruct (Z_le_gt_dec (-1) e') as [H | H].
  - split; [left; exact H | lia].
  - assert (exists k, 0 <= k /\ m' = (k * 2 ^ (-1 - e')) * 2 ^ 52) as [k [Hk Hmk]].
    { destruct (Z_le_gt_dec 0 e) as [G | G].
      - exists (Z.pos m * 2 ^ e).
        split; [apply Z.mul_nonneg_nonneg; [lia | apply Z.pow_nonneg; lia]|].
        rewrite Hm', <- !Z.mul_assoc, <- !Z.pow_add_r by lia.
        f_equal. f_equal. lia.
      - destruct (scaled_split 0 _ e Hs) as [z Hz]; [lia|].
        assert (0 < 2 ^ (0 - e)) by (apply Z.pow_pos_nonneg; lia).
        exists z. split; [nia|].
        rewrite Hm', Hz, <- !Z.mul_assoc, <- !Z.pow_add_r by lia.
        f_equal. f_equal. lia. }
    rewrite Hmk, Z.div_mul, Z.mod_mul by lia.
    split; [| intros _; reflexivity].
    right. apply Z.mod_mul. apply Z.pow_nonzero; lia.
Qed.

End Rounding.

(** * Magnitudes and exact sums in binary64

    Bounds on what rounding returns, from the number of bits of the
    mantissa, and the cases in which it returns its argument unchanged.
    They give that a counter moved by one stays a whole number of at
    most 2^53, and that the hours computed from such counters are
    finite. *)

Section Binary64.

Local Open Scope Z_scope.

Lemma digits2_pos_bounds p :
  2 ^ (Z.pos (digits2_pos p) - 1) <= Z.pos p < 2 ^ Z.pos (digits2_pos p).
Proof.
  induction p as [p IH | p IH |]; cbn [digits2_pos].
  - rewrite Pos2Z.inj_succ.
    replace (Z.succ (Z.pos (digits2_pos p)) - 1) with (Z.pos (digits2_pos p) - 1 + 1) by lia.
    rewrite Z.pow_succ_r, Z.pow_add_r, Z.pow_1_r by lia. lia.
  - rewrite Pos2Z.inj_succ.
    replace (Z.succ (Z.pos (digits2_pos p)) - 1) with (Z.pos (digits2_pos p) - 1 + 1) by lia.
    rewrite Z.pow_succ_r, Z.pow_add_r, Z.pow_1_r by lia. lia.
  - simpl. lia.
Qed.

Lemma Zdigits2_le m k : 0 <= m -> 0 <= k -> m < 2 ^ k -> Zdigits2 m <= k.
Proof.
  intros Hm Hk H. destruct m as [| p | p]; simpl; try lia.
  pose proof (digits2_pos_bounds p) as [L _].
  destruct (Z_le_gt_dec (Z.pos (digits2_pos p)) k) as [G | G]; [exact G|].
  assert (2 ^ k <= 2 ^ (Z.pos (digits2_pos p) - 1)) by (apply Z.pow_le_mono_r; lia).
  lia.
Qed.

Lemma shr_1_m mrs : 0 <= shr_m mrs -> shr_m (shr_1 mrs) = shr_m mrs / 2.
Proof.
  destruct mrs as [m r s]. cbn [shr_m]. intros H.
  destruct m as [| [p | p |] | p]; try lia; cbn [shr_1 shr_m].
  - reflexivity.
  - rewrite Pos2Z.inj_xI. apply Z.div_unique with 1; lia.
  - rewrite Pos2Z.inj_xO. apply Z.div_unique with 0; lia.
  - reflexivity.
Qed.

Lemma shr_1_nonneg' mrs : 0 <= shr_m mrs -> 0 <= shr_m (shr_1 mrs).
Proof.
  intros H. rewrite shr_1_m by exact H. apply Z.div_pos; lia.
Qed.

Lemma iter_shr_1_m p : forall mrs,
  0 <= shr_m mrs ->
  0 <= shr_m (iter_pos shr_1 p mrs) /\
  shr_m (iter_pos shr_1 p mrs) = shr_m mrs / 2 ^ Z.pos p.
Proof.
  induction p as [p IH | p IH |]; intros mrs H; cbn [iter_pos].
  - pose proof (shr_1_nonneg' mrs H) as H1.
    destruct (IH _ H1) as [H2 E2]. destruct (IH _ H2) as [H3 E3].
    split; [exact H3|].
    rewrite E3, E2, shr_1_m by exact H.
    rewrite !Z.div_div by (try apply Z.pow_pos_nonneg; lia).
    f_equal. replace (Z.pos p~1) with (1 + (Z.pos p + Z.pos p)) by lia.
    rewrite !Z.pow_add_r by lia. reflexivity.
  - destruct (IH _ H) as [H2 E2]. destruct (IH _ H2) as [H3 E3].
    split; [exact H3|].
    rewrite E3, E2.
    rewrite !Z.div_div by (try apply Z.pow_pos_nonneg; lia).
    f_equal. replace (Z.pos p~0) with (Z.pos p + Z.pos p) by lia.
    rewrite !Z.pow_add_r by lia. reflexivity.
  - split; [apply shr_1_nonneg', H|]. rewrite shr_1_m by exact H. reflexivity.
Qed.

(** The rounding shift: the new exponent and the new mantissa. *)
Lemma shr_fexp_value m e l :
  0 <= m ->
  let e' := Z.max e (fexp 53 1024 (Zdigits2 m + e)) in
  snd (shr_fexp 53 1024 m e l) = e' /\
  shr_m (fst (shr_fexp 53 1024 m e l)) = m / 2 ^ (e' - e).
Proof.
  intros Hm e'. unfold shr_fexp, shr.
  destruct (fexp 53 1024 (Zdigits2 m + e) - e) as [| p | p] eqn:E; cbn [fst snd].
  - split; [lia|]. rewrite shr_record_of_loc_m.
    replace (e' - e) with 0 by lia. rewrite Z.pow_0_r, Z.div_1_r. reflexivity.
  - split; [lia|].
    destruct (iter_shr_1_m p (shr_record_of_loc m l)) as [_ V].
    { rewrite shr_record_of_loc_m. exact Hm. }
    rewrite V, shr_record_of_loc_m. f_equal. f_equal. lia.
  - split; [lia|]. rewrite shr_record_of_loc_m.
    replace (e' - e) with 0 by lia. rewrite Z.pow_0_r, Z.div_1_r. reflexivity.
Qed.

Lemma round_nearest_even_le m l : round_nearest_even m l <= m + 1.
Proof.
  destruct l as [| []]; simpl; try lia. destruct (Z.even m); lia.
Qed.

Lemma round_nearest_even_ge m l : m <= round_nearest_even m l.
Proof.
  destruct l as [| []]; simpl; try lia. destruct (Z.even m); lia.
Qed.

Lemma div_pow2_lt m a b :
  0 <= m -> 0 <= b -> b <= a -> m < 2 ^ a -> m / 2 ^ b < 2 ^ (a - b).
Proof.
  intros Hm Hb Hab H.
  apply Z.div_lt_upper_bound; [apply Z.pow_pos_nonneg; lia|].
  rewrite <- Z.pow_add_r by lia. replace (b + (a - b)) with a by lia. exact H.
Qed.

(** Rounding a non-negative quantity below [2^k] gives a value that is
    at most [2^k], hence below [2^(k+1)], and finite when [k <= 1023]. *)
Lemma binary_round_aux_below s m e l k :
  0 <= m -> e <= 971 -> -1074 <= k <= 1023 -> m < 2 ^ (k - e) ->
  match binary_round_aux 53 1024 s m e l with
  | S754_zero s' => s' = s
  | S754_finite s' m' e' => s' = s /\ Z.pos (digits2_pos m') + e' <= k + 1
  | _ => False
  end.
Proof.
  intros Hm He Hk Hv.
  assert (Hke : e <= k).
  { destruct (Z_le_gt_dec e k) as [G | G]; [exact G|].
    rewrite Z.pow_neg_r in Hv by lia. lia. }
  assert (Hd : Zdigits2 m + e <= k).
  { pose proof (Zdigits2_le m (k - e) ltac:(lia) ltac:(lia) Hv). lia. }
  unfold binary_round_aux.
  destruct (shr_fexp_value m e l ltac:(lia)) as [E1 V1].
  destruct (shr_fexp 53 1024 m e l) as [mrs' e1]. cbn [fst snd] in E1, V1.
  rewrite <- E1 in V1.
  set (m1 := round_nearest_even (shr_m mrs') (loc_of_shr_record mrs')).
  assert (He1 : e <= e1 <= k /\ e1 <= 971).
  { rewrite E1. unfold fexp, emin. lia. }
  assert (H1 : 0 <= shr_m mrs' < 2 ^ (k - e1)).
  { rewrite V1. split; [apply Z.div_pos; [lia | apply Z.pow_pos_nonneg; lia]|].
    replace (k - e1) with ((k - e) - (e1 - e)) by lia.
    apply div_pow2_lt; lia. }
  assert (Hm1 : 0 <= m1 < 2 ^ (k + 1 - e1)).
  { unfold m1. pose proof (round_nearest_even_le (shr_m mrs') (loc_of_shr_record mrs')).
    pose proof (round_nearest_even_ge (shr_m mrs') (loc_of_shr_record mrs')).
    replace (k + 1 - e1) with (Z.succ (k - e1)) by lia.
    rewrite Z.pow_succ_r by lia. lia. }
  destruct (shr_fexp_value m1 e1 loc_Exact ltac:(lia)) as [E2 V2].
  destruct (shr_fexp 53 1024 m1 e1 loc_Exact) as [mrs'' e2]. cbn [fst snd] in E2, V2.
  rewrite <- E2 in V2.
  assert (Hd1 : Zdigits2 m1 + e1 <= k + 1).
  { pose proof (Zdigits2_le m1 (k + 1 - e1) ltac:(lia) ltac:(lia) ltac:(lia)). lia. }
  assert (He2 : e1 <= e2 <= k + 1 /\ e2 <= 971).
  { rewrite E2. unfold fexp, emin. lia. }
  assert (H2 : 0 <= shr_m mrs'' < 2 ^ (k + 1 - e2)).
  { rewrite V2. split; [apply Z.div_pos; [lia | apply Z.pow_pos_nonneg; lia]|].
    replace (k + 1 - e2) with ((k + 1 - e1) - (e2 - e1)) by lia.
    apply div_pow2_lt; lia. }
  destruct (shr_m mrs'') as [| p | p] eqn:Em; try lia; [reflexivity|].
  replace (e2 <=? 1024 - 53) with true by (symmetry; apply Z.leb_le; lia).
  split; [reflexivity|].
  pose proof (Zdigits2_le (Z.pos p) (k + 1 - e2) ltac:(lia) ltac:(lia) ltac:(lia)) as D.
  simpl in D. lia.
Qed.

Lemma Zdigits2_unique m d :
  0 < m -> 2 ^ (d - 1) <= m < 2 ^ d -> Zdigits2 m = d.
Proof.
  intros Hm [L U]. destruct m as [| p | p]; try lia. simpl.
  pose proof (digits2_pos_bounds p) as [L' U'].
  assert (0 < d).
  { destruct (Z_lt_ge_dec 0 d); [assumption|].
    destruct (Z.eq_dec d 0) as [-> | N]; [simpl in U; lia|].
    rewrite Z.pow_neg_r in U by lia. lia. }
  assert (Z.pos (digits2_pos p) - 1 < d).
  { apply (Z.pow_lt_mono_r_iff 2); lia. }
  assert (d - 1 < Z.pos (digits2_pos p)).
  { apply (Z.pow_lt_mono_r_iff 2); lia. }
  lia.
Qed.

Lemma Zdigits2_shift z n :
  0 < z -> 0 <= n -> Zdigits2 (z * 2 ^ n) = Zdigits2 z + n.
Proof.
  intros Hz Hn.
  assert (P : 0 < 2 ^ n) by (apply Z.pow_pos_nonneg; lia).
  apply Zdigits2_unique; [nia|].
  destruct z as [| p | p]; try lia. cbn [Zdigits2].
  pose proof (digits2_pos_bounds p) as [L U].
  replace (Z.pos (digits2_pos p) + n - 1) with (Z.pos (digits2_pos p) - 1 + n) by lia.
  rewrite !Z.pow_add_r by lia. nia.
Qed.

(** A multiple of [2^t] with at most 53 significant bits above [2^t]
    is rounded to itself. *)
Lemma binary_round_aux_exact s m e t :
  0 < m -> scaled t m e -> e <= t -> -1074 <= t <= 971 ->
  Zdigits2 m + e <= 53 + t ->
  exists m1,
    let e1 := Z.max e (fexp 53 1024 (Zdigits2 m + e)) in
    binary_round_aux 53 1024 s m e loc_Exact = S754_finite s m1 e1 /\
    Z.pos m1 * 2 ^ (e1 - e) = m /\ e <= e1 <= t /\
    scaled t (Z.pos m1) e1 /\
    Z.pos (digits2_pos m1) + e1 = Zdigits2 m + e.
Proof.
  intros Hm Hs He Ht Hd.
  set (e1 := Z.max e (fexp 53 1024 (Zdigits2 m + e))).
  assert (He1 : e <= e1 <= t) by (unfold e1, fexp, emin; lia).
  assert (exists z, 0 < z /\ m = z * 2 ^ (e1 - e) /\ scaled t z e1) as (z & Hz & Em & Sz).
  { destruct (Z.eq_dec e1 e) as [E | N].
    - exists m. rewrite E, Z.sub_diag, Z.pow_0_r. repeat split; try lia. exact Hs.
    - destruct (scaled_split t m e Hs ltac:(lia)) as [y Hy].
      exists (y * 2 ^ (t - e1)).
      assert (0 < 2 ^ (t - e)) by (apply Z.pow_pos_nonneg; lia).
      assert (0 < 2 ^ (t - e1)) by (apply Z.pow_pos_nonneg; lia).
      split; [nia|]. split.
      + rewrite Hy, <- Z.mul_assoc, <- Z.pow_add_r by lia. f_equal. f_equal. lia.
      + apply scaled_mul; lia. }
  assert (S1 : shr_fexp 53 1024 m e loc_Exact
               = ({| shr_m := z; shr_r := false; shr_s := false |}, e1)).
  { unfold shr_fexp, shr. cbn [shr_record_of_loc].
    destruct (fexp 53 1024 (Zdigits2 m + e) - e) as [| p | p] eqn:E.
    - assert (e1 = e) by (unfold e1; lia).
      replace (e1 - e) with 0 in Em by lia. rewrite Z.pow_0_r in Em.
      f_equal; [f_equal|]; lia.
    - assert (e1 - e = Z.pos p) by (unfold e1; lia).
      rewrite Em. replace (e1 - e) with (Z.pos p) by lia.
      rewrite iter_shr_1_exact by lia. f_equal. lia.
    - assert (e1 = e) by (unfold e1; lia).
      replace (e1 - e) with 0 in Em by lia. rewrite Z.pow_0_r in Em.
      f_equal; [f_equal|]; lia. }
  assert (Dz : Zdigits2 z + e1 = Zdigits2 m + e).
  { rewrite Em, Zdigits2_shift by lia. lia. }
  assert (S2 : shr_fexp 53 1024 z e1 loc_Exact
               = ({| shr_m := z; shr_r := false; shr_s := false |}, e1)).
  { unfold shr_fexp, shr. cbn [shr_record_of_loc]. rewrite Dz.
    destruct (fexp 53 1024 (Zdigits2 m + e) - e1) as [| p | p] eqn:E;
      try reflexivity.
    unfold e1 in E. lia. }
  unfold binary_round_aux. rewrite S1. cbn [shr_m loc_of_shr_record round_nearest_even].
  rewrite S2. cbn [shr_m].
  destruct z as [| p | p]; try lia.
  exists p. cbv zeta. fold e1.
  replace (e1 <=? 1024 - 53) with true by (symmetry; apply Z.leb_le; lia).
  split; [reflexivity|]. split; [lia|]. split; [lia|]. split; [exact Sz | exact Dz].
Qed.

Lemma shl_align_value m e e' :
  snd (shl_align m e e') = Z.min e e' /\
  Z.pos (fst (shl_align m e e')) = Z.pos m * 2 ^ (e - Z.min e e').
Proof.
  unfold shl_align. destruct (e' - e) as [| d | d] eqn:E; cbn [fst snd].
  - replace (Z.min e e') with e by lia. rewrite Z.sub_diag, Z.pow_0_r. lia.
  - replace (Z.min e e') with e by lia. rewrite Z.sub_diag, Z.pow_0_r. lia.
  - replace (Z.min e e') with e' by lia. split; [reflexivity|].
    change (Pos.iter xO m d) with (Zpower.shift_pos d m).
    rewrite Zpower.shift_pos_correct.
    change (Z.pow_pos 2 d) with (2 ^ Z.pos d).
    replace (e - e') with (Z.pos d) by lia. ring.
Qed.

(** Rounding a whole number of at most 2^53. *)
Lemma binary_round_counter p e j :
  e <= -52 -> Z.pos p = j * 2 ^ (- e) -> j <= 2 ^ 53 ->
  SFcounter (binary_round 53 1024 false p e) = true.
Proof.
  intros He Hp Hj.
  assert (P : 0 < 2 ^ (- e)) by (apply Z.pow_pos_nonneg; lia).
  assert (J : 0 < j) by nia.
  unfold binary_round.
  destruct (shl_align_value p e (fexp 53 1024 (Z.pos (digits2_pos p) + e)))
    as [E0 V0].
  destruct (shl_align p e _) as [mz e0]. cbn [fst snd] in E0, V0.
  assert (He0 : e0 <= e) by lia.
  assert (P0 : 0 < 2 ^ (e - e0)) by (apply Z.pow_pos_nonneg; lia).
  assert (Vz : Z.pos mz = j * 2 ^ (- e0)).
  { rewrite V0, <- E0, Hp, <- Z.mul_assoc, <- Z.pow_add_r by lia.
    f_equal. f_equal. lia. }
  assert (D0 : Zdigits2 (Z.pos mz) + e0 = Zdigits2 j).
  { rewrite Vz, Zdigits2_shift by lia. lia. }
  destruct (Z_lt_ge_dec j (2 ^ 53)) as [L | G].
  - assert (Dj : Zdigits2 j <= 53) by (apply Zdigits2_le; lia).
    destruct (binary_round_aux_exact false (Z.pos mz) e0 0) as (m1 & R & V & B & S & D);
      try lia.
    { rewrite Vz. apply scaled_mul; lia. }
    cbv zeta in R, V, B, S, D. rewrite R. cbn [SFcounter].
    rewrite (scaledb_true _ _ _ S).
    replace (_ <=? 53) with true by (symmetry; apply Z.leb_le; lia).
    reflexivity.
  - assert (j = 2 ^ 53) by lia. subst j.
    assert (Dj : Zdigits2 (2 ^ 53) = 54) by reflexivity.
    destruct (binary_round_aux_exact false (Z.pos mz) e0 1) as (m1 & R & V & B & S & D);
      try lia.
    { rewrite Vz. replace (2 ^ 53) with (2 ^ 52 * 2 ^ 1) by reflexivity.
      rewrite <- Z.mul_assoc, <- Z.pow_add_r by lia. apply scaled_mul; lia. }
    cbv zeta in R, V, B, S, D. rewrite R. cbn [SFcounter].
    set (e1 := Z.max e0 (fexp 53 1024 (Zdigits2 (Z.pos mz) + e0))) in *.
    assert (E1 : e1 = 1) by (unfold e1, fexp, emin; lia).
    assert (M1 : Z.pos m1 = 2 ^ 52).
    { rewrite E1 in V. rewrite Vz in V.
      assert (Q : 2 ^ (- e0) = 2 ^ 1 * 2 ^ (-1 - e0) /\ 2 ^ (1 - e0) = 2 ^ 2 * 2 ^ (-1 - e0)).
      { rewrite <- !Z.pow_add_r by lia. split; f_equal; lia. }
      destruct Q as [Q1 Q2]. rewrite Q1, Q2 in V.
      assert (0 < 2 ^ (-1 - e0)) by (apply Z.pow_pos_nonneg; lia).
      change (2 ^ 53) with 9007199254740992 in V.
      change (2 ^ 52) with 4503599627370496.
      change (2 ^ 1) with 2 in V. change (2 ^ 2) with 4 in V. nia. }
    rewrite E1, M1. simpl. apply orb_true_r.
Qed.

(** The whole number a counter holds, scaled to the exponent [ez]. *)
Lemma counter_aligned m e ez :
  scaled 0 (Z.pos m) e -> Z.pos (digits2_pos m) + e <= 53 -> ez <= e -> ez <= 0 ->
  exists j, 0 < j < 2 ^ 53 /\ Z.pos m * 2 ^ (e - ez) = j * 2 ^ (- ez).
Proof.
  intros Hs Hd Hez Hz.
  pose proof (digits2_pos_bounds m) as [_ U].
  destruct (Z_le_gt_dec 0 e) as [G | G].
  - exists (Z.pos m * 2 ^ e).
    assert (0 < 2 ^ e) by (apply Z.pow_pos_nonneg; lia).
    split.
    + split; [nia|].
      apply Z.lt_le_trans with (2 ^ Z.pos (digits2_pos m) * 2 ^ e); [nia|].
      rewrite <- Z.pow_add_r by lia. apply Z.pow_le_mono_r; lia.
    + rewrite <- Z.mul_assoc, <- Z.pow_add_r by lia. reflexivity.
  - destruct (scaled_split 0 _ e Hs ltac:(lia)) as [z Hz'].
    assert (0 < 2 ^ (0 - e)) by (apply Z.pow_pos_nonneg; lia).
    exists z. split.
    + split; [nia|].
      assert (2 ^ Z.pos (digits2_pos m) <= 2 ^ (53 - e)) by (apply Z.pow_le_mono_r; lia).
      replace (53 - e) with (53 + (0 - e)) in * by lia.
      rewrite Z.pow_add_r in * by lia. nia.
    + rewrite Hz', <- Z.mul_assoc, <- Z.pow_add_r by lia. f_equal. f_equal. lia.
Qed.

Lemma SFcounter_cases m e :
  SFcounter (S754_finite false m e) = true ->
  (scaled 0 (Z.pos m) e /\ Z.pos (digits2_pos m) + e <= 53)
  \/ (m = 4503599627370496%positive /\ e = 1).
Proof.
  cbn [SFcounter]. intros H. apply orb_true_iff in H. destruct H as [H | H].
  - apply andb_true_iff in H. destruct H as [S D].
    left. split; [apply scaledb_scaled, S | apply Z.leb_le, D].
  - apply andb_true_iff in H. destruct H as [M E].
    right. apply Z.eqb_eq in M, E. split; [|exact E].
    change (2 ^ 52) with (Z.pos 4503599627370496) in M. congruence.
Qed.

Lemma SFadd_counter_one x :
  SFcounter x = true -> SFcounter (SFadd 53 1024 x SFone) = true.
Proof.
  destruct x as [[] | [] | | [] m e]; try discriminate; intros H.
  - reflexivity.
  - destruct (SFcounter_cases m e H) as [[S D] | [-> ->]]; [|vm_compute; reflexivity].
    unfold SFone. cbn [SFadd cond_Zopp].
    set (ez := Z.min e (-52)).
    destruct (shl_align_value m e ez) as [_ Vx].
    destruct (shl_align_value 4503599627370496 (-52) ez) as [_ Vy].
    replace (Z.min e ez) with ez in Vx by lia.
    replace (Z.min (-52) ez) with ez in Vy by lia.
    destruct (counter_aligned m e ez S D) as (j & Hj & Ej); try lia.
    set (a := fst (shl_align m e ez)) in *.
    set (b := fst (shl_align 4503599627370496 (-52) ez)) in *.
    change (Z.pos a + Z.pos b) with (Z.pos (a + b)). cbn [binary_normalize].
    apply (binary_round_counter (a + b) ez (j + 1)); try lia.
    rewrite Pos2Z.inj_add, Vx, Vy, Ej.
    change (Z.pos 4503599627370496) with (2 ^ 52).
    rewrite <- Z.pow_add_r by lia.
    replace (52 + (-52 - ez)) with (- ez) by lia. ring.
Qed.

Lemma SFadd_counter_minus_one x :
  SFcounter x = true ->
  SFadd 53 1024 x SFminus_one = SFminus_one \/
  SFcounter (SFadd 53 1024 x SFminus_one) = true.
Proof.
  destruct x as [[] | [] | | [] m e]; try discriminate; intros H.
  - left. reflexivity.
  - right.
    destruct (SFcounter_cases m e H) as [[S D] | [-> ->]]; [|vm_compute; reflexivity].
    unfold SFminus_one. cbn [SFadd cond_Zopp].
    set (ez := Z.min e (-52)).
    destruct (shl_align_value m e ez) as [_ Vx].
    destruct (shl_align_value 4503599627370496 (-52) ez) as [_ Vy].
    replace (Z.min e ez) with ez in Vx by lia.
    replace (Z.min (-52) ez) with ez in Vy by lia.
    destruct (counter_aligned m e ez S D) as (j & Hj & Ej); try lia.
    set (a := fst (shl_align m e ez)) in *.
    set (b := fst (shl_align 4503599627370496 (-52) ez)) in *.
    assert (Vb : Z.pos b = 2 ^ (- ez)).
    { rewrite Vy. change (Z.pos 4503599627370496) with (2 ^ 52).
      rewrite <- Z.pow_add_r by lia. f_equal. lia. }
    assert (P : 0 < 2 ^ (- ez)) by (apply Z.pow_pos_nonneg; lia).
    assert (E : Z.pos a + - Z.pos b = (j - 1) * 2 ^ (- ez)).
    { rewrite Vx, Ej, Vb. ring. }
    destruct (Z.pos a + - Z.pos b) as [| p | p] eqn:Es.
    + reflexivity.
    + cbn [binary_normalize].
      apply (binary_round_counter p ez (j - 1)); lia.
    + nia.
Qed.

Lemma SFbelow_mono a b x : a <= b -> SFbelow a x = true -> SFbelow b x = true.
Proof.
  intros L. destruct x as [[] | [] | | [] m e]; simpl; try congruence.
  intros H. apply Z.leb_le in H. apply Z.leb_le. lia.
Qed.

Lemma SFbelow_value k m e :
  SFbelow k (S754_finite false m e) = true -> Z.pos m < 2 ^ (k - e) /\ e < k.
Proof.
  cbn [SFbelow]. intros H. apply Z.leb_le in H.
  pose proof (digits2_pos_bounds m) as [_ U].
  split; [|lia].
  apply Z.lt_le_trans with (1 := U). apply Z.pow_le_mono_r; lia.
Qed.

Lemma binary_round_aux_SFbelow m e l k :
  0 <= m -> e <= 971 -> -1074 <= k <= 1023 -> m < 2 ^ (k - e) ->
  SFbelow (k + 1) (binary_round_aux 53 1024 false m e l) = true.
Proof.
  intros Hm He Hk Hv.
  pose proof (binary_round_aux_below false m e l k Hm He Hk Hv) as R.
  destruct (binary_round_aux 53 1024 false m e l) as [s | s | | s m' e'];
    try contradiction.
  - subst s. reflexivity.
  - destruct R as [-> R]. cbn [SFbelow]. apply Z.leb_le, R.
Qed.

Lemma binary_round_SFbelow p e k :
  e <= 971 -> -1074 <= k <= 1023 -> Z.pos p < 2 ^ (k - e) ->
  SFbelow (k + 1) (binary_round 53 1024 false p e) = true.
Proof.
  intros He Hk Hv. unfold binary_round.
  destruct (shl_align_value p e (fexp 53 1024 (Z.pos (digits2_pos p) + e)))
    as [E0 V0].
  destruct (shl_align p e _) as [mz e0]. cbn [fst snd] in E0, V0.
  assert (e <= k).
  { destruct (Z_le_gt_dec e k) as [G | G]; [exact G|].
    rewrite Z.pow_neg_r in Hv by lia. lia. }
  apply binary_round_aux_SFbelow; try lia.
  rewrite V0, <- E0.
  replace (k - e0) with ((k - e) + (e - e0)) by lia.
  rewrite Z.pow_add_r by lia.
  assert (0 < 2 ^ (e - e0)) by (apply Z.pow_pos_nonneg; lia). nia.
Qed.

Lemma SFmul_below a b x y :
  SFbelow a x = true -> SFbelow b y = true -> -1074 <= a + b <= 973 ->
  SFbelow (a + b + 1) (SFmul 53 1024 x y) = true.
Proof.
  intros Hx Hy R.
  destruct x as [[] | [] | | [] mx ex]; try discriminate;
    destruct y as [[] | [] | | [] my ey]; try discriminate; try reflexivity.
  destruct (SFbelow_value a mx ex Hx) as [Vx Ex].
  destruct (SFbelow_value b my ey Hy) as [Vy Ey].
  cbn [SFmul xorb].
  apply binary_round_aux_SFbelow; try lia.
  rewrite Pos2Z.inj_mul.
  replace (a + b - (ex + ey)) with ((a - ex) + (b - ey)) by lia.
  rewrite Z.pow_add_r by lia. nia.
Qed.

Lemma SFadd_below a b x y :
  SFbelow a x = true -> SFbelow b y = true -> -1075 <= Z.max a b <= 970 ->
  SFbelow (Z.max a b + 2) (SFadd 53 1024 x y) = true.
Proof.
  intros Hx Hy R.
  destruct x as [[] | [] | | [] mx ex]; try discriminate;
    destruct y as [[] | [] | | [] my ey]; try discriminate; try reflexivity.
  - apply SFbelow_mono with (2 := Hy). lia.
  - apply SFbelow_mono with (2 := Hx). lia.
  - destruct (SFbelow_value a mx ex Hx) as [Vx Ex].
    destruct (SFbelow_value b my ey Hy) as [Vy Ey].
    cbn [SFadd cond_Zopp].
    set (ez := Z.min ex ey).
    destruct (shl_align_value mx ex ez) as [_ Wx].
    destruct (shl_align_value my ey ez) as [_ Wy].
    replace (Z.min ex ez) with ez in Wx by lia.
    replace (Z.min ey ez) with ez in Wy by lia.
    set (u := fst (shl_align mx ex ez)) in *.
    set (v := fst (shl_align my ey ez)) in *.
    change (Z.pos u + Z.pos v) with (Z.pos (u + v)). cbn [binary_normalize].
    replace (Z.max a b + 2) with ((Z.max a b + 1) + 1) by lia.
    apply binary_round_SFbelow; try lia.
    rewrite Pos2Z.inj_add, Wx, Wy.
    assert (Px : 0 < 2 ^ (ex - ez)) by (apply Z.pow_pos_nonneg; lia).
    assert (Py : 0 < 2 ^ (ey - ez)) by (apply Z.pow_pos_nonneg; lia).
    assert (Bx : Z.pos mx * 2 ^ (ex - ez) < 2 ^ (Z.max a b - ez)).
    { apply Z.lt_le_trans with (2 ^ (a - ex) * 2 ^ (ex - ez)); [nia|].
      rewrite <- Z.pow_add_r by lia. apply Z.pow_le_mono_r; lia. }
    assert (By : Z.pos my * 2 ^ (ey - ez) < 2 ^ (Z.max a b - ez)).
    { apply Z.lt_le_trans with (2 ^ (b - ey) * 2 ^ (ey - ez)); [nia|].
      rewrite <- Z.pow_add_r by lia. apply Z.pow_le_mono_r; lia. }
    replace (Z.max a b + 1 - ez) with (Z.succ (Z.max a b - ez)) by lia.
    rewrite Z.pow_succ_r by lia. lia.
Qed.

Lemma SFdiv_two_below a x :
  SFbelow a x = true -> -1073 <= a <= 920 ->
  SFbelow a (SFdiv 53 1024 x SFtwo) = true.
Proof.
  intros Hx R.
  destruct x as [[] | [] | | [] m e]; try discriminate; try reflexivity.
  destruct (SFbelow_value a m e Hx) as [V E].
  assert (D : Z.pos (digits2_pos m) + e <= a) by (apply Z.leb_le, Hx).
  unfold SFtwo. cbn [SFdiv xorb]. unfold SFdiv_core_binary.
  set (e' := Z.min _ _).
  assert (He' : e' <= e + 51 /\ e' <= a - 1).
  { subst e'. unfold fexp, emin. cbn [Zdigits2]. lia. }
  set (m' := match (e - -51 - e') with Z0 => _ | Z.pos _ => _ | Z.neg _ => _ end).
  assert (Hm' : m' = Z.pos m * 2 ^ (e + 51 - e')).
  { subst m'. destruct (e - -51 - e') as [| p | p] eqn:Q; try lia.
    - replace (e + 51 - e') with 0 by lia. rewrite Z.pow_0_r. lia.
    - rewrite Z.shiftl_mul_pow2 by lia. f_equal. f_equal. lia. }
  clearbody m' e'.
  assert (Hq : Z.div_eucl m' (Z.pos 4503599627370496)
               = (m' / 2 ^ 52, m' mod 2 ^ 52)).
  { change (Z.pos 4503599627370496) with (2 ^ 52).
    unfold Z.div, Z.modulo. destruct (Z.div_eucl m' (2 ^ 52)); reflexivity. }
  rewrite Hq.
  assert (Ps : 0 < 2 ^ (e + 51 - e')) by (apply Z.pow_pos_nonneg; lia).
  replace a with ((a - 1) + 1) at 1 by lia.
  apply binary_round_aux_SFbelow; try lia.
  - apply Z.div_pos; [nia | reflexivity].
  - apply Z.div_lt_upper_bound; [reflexivity|].
    rewrite <- Z.pow_add_r by lia. rewrite Hm'.
    replace (52 + (a - 1 - e')) with ((a - e) + (e + 51 - e')) by lia.
    rewrite Z.pow_add_r by lia. nia.
Qed.

End Binary64.

(** * Facts about JavaScript numbers *)

Lemma SFcompare_refl x : x <> S754_nan -> SFcompare x x = Some Eq.
Proof.
  destruct x as [s | s | | s m e]; intros H; try congruence.
  - reflexivity.
  - destruct s; reflexivity.
  - simpl. rewrite Z.compare_refl, Pos.compare_cont_refl. destruct s; reflexivity.
Qed.

Lemma is_nan_spec x :
  PrimFloat.is_nan x = match Prim2SF x with S754_nan => true | _ => false end.
Proof.
  unfold PrimFloat.is_nan. rewrite FloatAxioms.eqb_spec. unfold SFeqb.
  destruct (Prim2SF x) eqn:E; try reflexivity;
    rewrite SFcompare_refl by discriminate; reflexivity.
Qed.

Lemma nonneg_not_nan x : nonneg x = true -> PrimFloat.is_nan x = false.
Proof.
  unfold nonneg. rewrite is_nan_spec.
  destruct (Prim2SF x); try reflexivity. discriminate.
Qed.

Lemma nonneg_mul x c :
  nonneg x = true -> SFpositive (Prim2SF c) = true -> nonneg (x * c) = true.
Proof.
  unfold nonneg. rewrite FloatAxioms.mul_spec. apply SFmul_nonneg.
Qed.

Lemma nonneg_div x c :
  nonneg x = true -> SFpositive (Prim2SF c) = true -> nonneg (x / c) = true.
Proof.
  unfold nonneg. rewrite FloatAxioms.div_spec. apply SFdiv_nonneg.
Qed.

(** [0 + x] is [x], except that it turns -0 into +0. *)
Lemma add_zero_l x : Prim2SF x <> S754_zero true -> 0 + x = x.
Proof.
  intros H. apply Prim2SF_inj. rewrite FloatAxioms.add_spec.
  change (Prim2SF 0) with (S754_zero false).
  destruct (Prim2SF x) as [[] | s | | s m e]; try reflexivity. congruence.
Qed.

Lemma nonneg_not_neg_zero x : nonneg x = true -> Prim2SF x <> S754_zero true.
Proof.
  unfold nonneg. intros H E. rewrite E in H. discriminate.
Qed.

Lemma mul_nan_l c : nan * c = nan.
Proof.
  apply Prim2SF_inj. rewrite FloatAxioms.mul_spec.
  change (Prim2SF nan) with S754_nan. reflexivity.
Qed.

Lemma ltb_leb a b : (a <? b) = true -> (a <=? b) = true.
Proof.
  rewrite FloatAxioms.ltb_spec, FloatAxioms.leb_spec. unfold SFltb, SFleb.
  destruct (SFcompare (Prim2SF a) (Prim2SF b)) as [[]|]; congruence.
Qed.

Lemma leb_refl a : PrimFloat.is_nan a = false -> (a <=? a) = true.
Proof.
  rewrite is_nan_spec, FloatAxioms.leb_spec. unfold SFleb. intros H.
  rewrite SFcompare_refl; [reflexivity|].
  intros E. rewrite E in H. discriminate.
Qed.

Lemma ltb_nonneg a b : nonneg a = true -> (a <? b) = true -> nonneg b = true.
Proof.
  unfold nonneg. rewrite FloatAxioms.ltb_spec. unfold SFltb.
  destruct (Prim2SF a) as [[]|[]| |[] ma ea]; try discriminate;
    destruct (Prim2SF b) as [[]|[]| |[] mb eb]; simpl; congruence.
Qed.

Lemma get_sign_nonneg a : nonneg a = true -> get_sign a = false.
Proof.
  unfold nonneg, get_sign, PrimFloat.is_zero. intros H.
  rewrite FloatAxioms.eqb_spec. change (Prim2SF 0) with (S754_zero false).
  destruct (Prim2SF a) as [[]|[]| |[] m e] eqn:E; try discriminate;
    unfold SFeqb; simpl.
  - rewrite FloatAxioms.ltb_spec, FloatAxioms.div_spec, E. reflexivity.
  - rewrite FloatAxioms.ltb_spec, E. reflexivity.
  - rewrite FloatAxioms.ltb_spec, E. reflexivity.
Qed.

(** [Math.max(a, b)] for a non-negative [a] and a [b] that is not NaN:
    one of the two, not below [a], and non-negative. *)
Lemma Math_max_spec a b :
  nonneg a = true -> PrimFloat.is_nan b = false ->
  (Math_max a b = a \/ Math_max a b = b) /\
  (a <=? Math_max a b) = true /\
  nonneg (Math_max a b) = true.
Proof.
  intros Ha Hb. unfold Math_max.
  rewrite (nonneg_not_nan a Ha), Hb. simpl.
  destruct (a <? b) eqn:Eab.
  - split; [right; reflexivity|]. split; [apply ltb_leb, Eab|].
    exact (ltb_nonneg a b Ha Eab).
  - assert (R : (a <=? a) = true) by (apply leb_refl, nonneg_not_nan, Ha).
    destruct (b <? a); [auto|].
    rewrite (get_sign_nonneg a Ha). auto.
Qed.

Lemma of_Z_nonneg z : nonneg (of_Z z) = true.
Proof.
  unfold nonneg, of_Z. rewrite of_uint63_spec.
  apply binary_normalize_nonneg. apply Uint63.to_Z_bounded.
Qed.

Lemma of_Z_integer z :
  match Prim2SF (of_Z z) with
  | S754_finite _ m e => scaled 0 (Z.pos m) e
  | _ => True
  end.
Proof.
  unfold of_Z. rewrite of_uint63_spec.
  apply binary_normalize_integer. apply Uint63.to_Z_bounded.
Qed.

Lemma Math_ceil_nonneg x : nonneg x = true -> nonneg (Math_ceil x) = true.
Proof.
  intros H. unfold Math_ceil.
  destruct (Prim2SF x) as [s | s | | s m e] eqn:E; try exact H.
  destruct (0 <=? e)%Z; [exact H|].
  unfold nonneg in H. rewrite E in H. destruct s; [discriminate|].
  apply of_Z_nonneg.
Qed.

(** [Math.ceil] returns a whole number whenever it returns a finite one. *)
Lemma Math_ceil_integer x :
  finite (Math_ceil x) = true -> is_integer (Math_ceil x) = true.
Proof.
  unfold finite, is_integer, Math_ceil.
  destruct (Prim2SF x) as [s | s | | s m e] eqn:E; try (rewrite E; simpl; congruence).
  destruct (0 <=? e)%Z eqn:He.
  - rewrite E. simpl. unfold scaledb. rewrite He. reflexivity.
  - destruct s.
    + destruct (_ =? 0)%Z; [reflexivity|].
      rewrite FloatAxioms.opp_spec. pose proof (of_Z_integer (Z.pos m / 2 ^ (- e))) as I.
      destruct (Prim2SF (of_Z _)); simpl; try congruence.
      intros _. apply scaledb_true, I.
    + match goal with |- context [of_Z ?z] => pose proof (of_Z_integer z) as I end.
      destruct (Prim2SF (of_Z _)); simpl; try congruence.
      intros _. apply scaledb_true, I.
Qed.

(** Half of a whole number is a multiple of one half, if finite. *)
Lemma div_two_half c :
  is_integer c = true -> finite (c / 2) = true -> multiple_of_half (c / 2) = true.
Proof.
  unfold is_integer, finite, multiple_of_half. rewrite FloatAxioms.div_spec.
  change (Prim2SF 2) with (S754_finite false 4503599627370496 (-51)).
  destruct (Prim2SF c) as [s | s | | s m e]; simpl; try congruence.
  intros I. apply scaledb_scaled in I.
  pose proof (SFdiv_core_two prec emax m e I) as C.
  change (2 ^ 52)%Z with (Z.pos 4503599627370496) in C.
  unfold SF64div, SFdiv.
  destruct (SFdiv_core_binary prec emax (Z.pos m) e
              (Z.pos 4503599627370496) (-51)) as [[q e'] l].
  destruct C as [Hq [Hs Hl]].
  pose proof (binary_round_aux_scaled prec emax (-1) (xorb s false) q e' l Hq Hs Hl) as R.
  destruct (binary_round_aux prec emax (xorb s false) q e' l); simpl; try congruence.
  intros _. apply scaledb_true, R.
Qed.

Lemma finite_div_two c : finite (c / 2) = true -> finite c = true.
Proof.
  unfold finite. rewrite FloatAxioms.div_spec.
  change (Prim2SF 2) with (S754_finite false 4503599627370496 (-51)).
  destruct (Prim2SF c) as [s | s | | s m e]; simpl; congruence.
Qed.

(** ** The decimal literals and the [Math] functions at sample points *)

(** Each decimal literal of the source denotes the binary64 value
    nearest to it: the correctly rounded quotient of two whole numbers. *)
Lemma literals_are_nearest :
  0.75 = 3 / 4 /\ 0.5 = 1 / 2 /\ 0.3 = 3 / 10 /\ 0.25 = 1 / 4 /\
  0.67 = 67 / 100 /\ 0.133 = 133 / 1000 /\ 0.42 = 42 / 100 /\
  0.13 = 13 / 100 /\ 0.30 = 30 / 100 /\ 0.70 = 70 / 100 /\
  1.13 = 113 / 100.
Proof. repeat split; reflexivity. Qed.

Lemma Math_ceil_samples :
  Math_ceil 4.2 = 5 /\ Math_ceil 4 = 4 /\ Math_ceil 0.2 = 1 /\
  Math_ceil (-2.5) = -2 /\ Math_ceil (-0.5) = neg_zero /\
  Math_ceil 12.100000000000001 = 13 /\
  Math_ceil 4503599627370495.5 = 4503599627370496 /\
  Math_ceil 1e300 = 1e300 /\
  Math_ceil infinity = infinity /\ Math_ceil nan = nan /\
  Math_ceil 0 = 0 /\ Math_ceil neg_zero = neg_zero.
Proof. repeat split; reflexivity. Qed.

Lemma Math_max_samples :
  Math_max 0 (-1) = 0 /\ Math_max 0 3 = 3 /\ Math_max 2 2.5 = 2.5 /\
  Math_max 3 2.5 = 3 /\ Math_max 0 nan = nan /\ Math_max nan 1 = nan /\
  Math_max 0 neg_zero = 0 /\ Math_max neg_zero 0 = 0 /\
  Math_max 2 infinity = infinity.
Proof. repeat split; reflexivity. Qed.

(** * What the effect and the setters leave alone *)

Lemma fetchSlots_frame w :
  booking (fetchSlots w) = booking w /\
  homeEstimator (fetchSlots w) = homeEstimator w /\
  officeEstimator (fetchSlots w) = officeEstimator w /\
  availableSlots (fetchSlots w) = availableSlots w /\
  console (fetchSlots w) = console w.
Proof.
  unfold fetchSlots.
  destruct (truthy_string (date (booking w)) && truthy (hours (booking w)))%bool;
    repeat split; reflexivity.
Qed.

Lemma availabilityEffect_frame w :
  booking (availabilityEffect w) = booking w /\
  homeEstimator (availabilityEffect w) = homeEstimator w /\
  officeEstimator (availabilityEffect w) = officeEstimator w /\
  availableSlots (availabilityEffect w) = [] /\
  console (availabilityEffect w) = console w.
Proof.
  unfold availabilityEffect.
  destruct (fetchSlots_frame (setAvailableSlots [] w)) as (B & H & O & A & C).
  rewrite B, H, O, A, C. repeat split; reflexivity.
Qed.

Lemma setBooking_frame updater w :
  booking (setBooking updater w) = updater (booking w) /\
  homeEstimator (setBooking updater w) = homeEstimator w /\
  officeEstimator (setBooking updater w) = officeEstimator w /\
  console (setBooking updater w) = console w.
Proof.
  unfold setBooking.
  destruct (deps_changed _ _).
  - destruct (availabilityEffect_frame (with_booking (updater (booking w)) w))
      as (B & H & O & _ & C).
    rewrite B, H, O, C. repeat split; reflexivity.
  - repeat split; reflexivity.
Qed.

Lemma booking_setBooking updater w :
  booking (setBooking updater w) = updater (booking w).
Proof. apply setBooking_frame. Qed.

Lemma fetchSlots_resume_frame r w :
  booking (fst (fetchSlots_resume r w)) = booking w /\
  homeEstimator (fst (fetchSlots_resume r w)) = homeEstimator w /\
  officeEstimator (fst (fetchSlots_resume r w)) = officeEstimator w.
Proof. destruct r; repeat split; reflexivity. Qed.

Lemma settle_frame n r w :
  booking (fst (settle n r w)) = booking w /\
  homeEstimator (fst (settle n r w)) = homeEstimator w /\
  officeEstimator (fst (settle n r w)) = officeEstimator w.
Proof.
  unfold settle. destruct (is_in_flight n w); [|repeat split; reflexivity].
  destruct (fetchSlots_resume_frame r (drop_fetch n w)) as (B & H & O).
  rewrite B, H, O. repeat split; reflexivity.
Qed.

Lemma handleHomeChange_frame field delta w :
  booking (handleHomeChange field delta w)
  = with_hours (snd (homeUpdate field delta (homeEstimator w))) (booking w) /\
  homeEstimator (handleHomeChange field delta w)
  = fst (homeUpdate field delta (homeEstimator w)) /\
  officeEstimator (handleHomeChange field delta w) = officeEstimator w.
Proof.
  unfold handleHomeChange.
  destruct (homeUpdate field delta (homeEstimator w)) as [newState finalHours].
  destruct (setBooking_frame (fun b => with_hours finalHours b)
              (setHomeEstimator newState w)) as (B & H & O & _).
  rewrite B, H, O. repeat split; reflexivity.
Qed.

Lemma handleOfficeChange_frame field delta w :
  booking (handleOfficeChange field delta w)
  = with_hours (snd (officeUpdate field delta (officeEstimator w))) (booking w) /\
  homeEstimator (handleOfficeChange field delta w) = homeEstimator w /\
  officeEstimator (handleOfficeChange field delta w)
  = fst (officeUpdate field delta (officeEstimator w)).
Proof.
  unfold handleOfficeChange.
  destruct (officeUpdate field delta (officeEstimator w)) as [newState finalHours].
  destruct (setBooking_frame (fun b => with_hours finalHours b)
              (setOfficeEstimator newState w)) as (B & H & O & _).
  rewrite B, H, O. repeat split; reflexivity.
Qed.

Lemma mount_frame currentUser :
  hours (booking (mount currentUser)) = 3 /\
  homeEstimator (mount currentUser) = homeEstimator initial /\
  officeEstimator (mount currentUser) = officeEstimator initial.
Proof.
  unfold mount.
  destruct (availabilityEffect_frame (autofillEffect currentUser initial))
    as (B & H & O & _).
  rewrite B, H, O. unfold autofillEffect.
  destruct currentUser as [u|]; [|repeat split; reflexivity].
  match goal with |- context [setBooking ?f initial] =>
    destruct (setBooking_frame f initial) as (B' & H' & O' & _) end.
  rewrite B', H', O'. repeat split; reflexivity.
Qed.

(** * Properties of the estimators *)

Lemma roundUpToHalf_nonneg x : nonneg x = true -> nonneg (roundUpToHalf x) = true.
Proof.
  intros H. unfold roundUpToHalf.
  apply nonneg_div; [|reflexivity].
  apply Math_ceil_nonneg, nonneg_mul; [exact H | reflexivity].
Qed.

Lemma roundUpToHalf_half x :
  finite (roundUpToHalf x) = true -> multiple_of_half (roundUpToHalf x) = true.
Proof.
  unfold roundUpToHalf. intros F.
  apply div_two_half; [|exact F].
  apply Math_ceil_integer, finite_div_two, F.
Qed.

(** The floor applied to a rounded estimate: at least the floor, never
    NaN, and a multiple of one half unless it overflowed. *)
Lemma floor_at_least c x :
  nonneg c = true -> multiple_of_half c = true -> nonneg x = true ->
  let h := Math_max c (roundUpToHalf x) in
  nonneg h = true /\ (c <=? h) = true /\
  (finite h = true -> multiple_of_half h = true).
Proof.
  intros Hc Mc Hx h.
  pose proof (roundUpToHalf_nonneg x Hx) as Hr.
  destruct (Math_max_spec c (roundUpToHalf x) Hc (nonneg_not_nan _ Hr))
    as (E & L & N).
  fold h in E, L, N. repeat split; auto.
  destruct E as [E | E]; rewrite E; intros F.
  - exact Mc.
  - apply roundUpToHalf_half, F.
Qed.

(** The hours the home updater hands to [setBooking] are the documented
    formula of its new counters, whenever the kitchen count is not -0. *)
Lemma homeUpdate_formula field delta prev :
  Prim2SF (kitchen (fst (homeUpdate field delta prev)) * 0.75) <> S754_zero true ->
  snd (homeUpdate field delta prev) = homeHours (fst (homeUpdate field delta prev)).
Proof.
  unfold homeUpdate, homeHours, roundUpToHalf. cbn [fst snd]. intros H.
  rewrite add_zero_l by exact H. reflexivity.
Qed.

Lemma officeUpdate_formula field delta prev :
  Prim2SF (rooms (fst (officeUpdate field delta prev)) * 0.3) <> S754_zero true ->
  snd (officeUpdate field delta prev) = officeHours (fst (officeUpdate field delta prev)).
Proof.
  unfold officeUpdate, officeHours, roundUpToHalf. cbn [fst snd]. intros H.
  rewrite add_zero_l by exact H. reflexivity.
Qed.

(** A product with a positive constant is never -0 when the counter is
    non-negative or NaN. *)
Lemma product_not_neg_zero v c :
  nonneg v = true \/ v = nan -> SFpositive (Prim2SF c) = true ->
  Prim2SF (v * c) <> S754_zero true.
Proof.
  intros [H | H] Hc.
  - apply nonneg_not_neg_zero, nonneg_mul; assumption.
  - subst v. rewrite mul_nan_l. discriminate.
Qed.

(** [Math.max(0, y)] is non-negative, or NaN when [y] is. *)
Lemma clamp_cases y : nonneg (Math_max 0 y) = true \/ Math_max 0 y = nan.
Proof.
  destruct (PrimFloat.is_nan y) eqn:E.
  - right. unfold Math_max. rewrite E. reflexivity.
  - left. apply Math_max_spec; [reflexivity | exact E].
Qed.

(** * The estimators (claims C6, C7, C10) *)

Lemma home_kitchen_product field delta prev :
  home_nonneg prev ->
  Prim2SF (kitchen (fst (homeUpdate field delta prev)) * 0.75) <> S754_zero true.
Proof.
  intros (A & B & C & D). apply product_not_neg_zero; [|reflexivity].
  unfold homeUpdate. cbn [fst].
  destruct field; cbn [home_set home_get kitchen]; auto.
  apply clamp_cases.
Qed.

Lemma office_rooms_product field delta prev :
  office_nonneg prev ->
  Prim2SF (rooms (fst (officeUpdate field delta prev)) * 0.3) <> S754_zero true.
Proof.
  intros (A & B & C & D). apply product_not_neg_zero; [|reflexivity].
  unfold officeUpdate. cbn [fst].
  destruct field; cbn [office_set office_get rooms]; auto.
  apply clamp_cases.
Qed.

Lemma home_mutation_writes_homeHours_aux w field delta :
  home_nonneg (homeEstimator w) ->
  hours (booking (handleHomeChange field delta w))
  = homeHours (homeEstimator (handleHomeChange field delta w)).
Proof.
  intros H. destruct (handleHomeChange_frame field delta w) as (B & E & _).
  rewrite B, E. cbn [hours with_hours].
  apply homeUpdate_formula, home_kitchen_product, H.
Qed.



Lemma office_mutation_writes_officeHours_aux w field delta :
  office_nonneg (officeEstimator w) ->
  hours (booking (handleOfficeChange field delta w))
  = officeHours (officeEstimator (handleOfficeChange field delta w)).
Proof.
  intros H. destruct (handleOfficeChange_frame field delta w) as (B & _ & E).
  rewrite B, E. cbn [hours with_hours].
  apply officeUpdate_formula, office_rooms_product, H.
Qed.



(** Two numbers that [Object.is] tells apart are different. *)
Lemma number_neq (a b : number) : Object_is a b = false -> a <> b.
Proof.
  intros H E. apply Leibniz.eqb_spec in E. unfold Object_is in H. congruence.
Qed.

(** * The step counter (claim C9) *)

(** C9.  [handleBack] subtracts one from the step whatever the step is;
    on the first step, freshly mounted, it yields step 0, which lies
    below the first step. *)
Theorem handleBack_has_no_lower_bound :
  (forall w : Wizard,
     step (booking (handleBack w)) = step (booking w) - 1) /\
  (forall currentUser : option User.t,
     step (booking (mount currentUser)) = 1 /\
     step (booking (handleBack (mount currentUser))) = 0) /\
  (0 <? 1) = true.
Proof.
  assert (B : forall w, step (booking (handleBack w)) = step (booking w) - 1).
  { intros w. unfold handleBack. rewrite booking_setBooking. reflexivity. }
  split; [exact B|]. split; [|reflexivity].
  intros currentUser.
  assert (S1 : step (booking (mount currentUser)) = 1).
  { unfold mount.
    destruct (availabilityEffect_frame (autofillEffect currentUser initial))
      as (E & _).
    rewrite E. unfold autofillEffect.
    destruct currentUser as [u|]; [|reflexivity].
    rewrite booking_setBooking. reflexivity. }
  split; [exact S1|].
  rewrite B, S1. reflexivity.
Qed.

(** * Mount (claim C10) *)

Lemma unchanged_by_other_events ev w :
  possible ev ->
  match ev with
  | HomeCounter _ _ | OfficeCounter _ _ | Slider _ => True
  | _ => hours (booking (run ev w)) = hours (booking w)
  end.
Proof.
  intros P. destruct ev as [| | f d | f d | v | n r | updater]; simpl; auto.
  - unfold handleNext. rewrite booking_setBooking. reflexivity.
  - unfold handleBack. rewrite booking_setBooking. reflexivity.
  - destruct (settle_frame n r w) as (B & _). rewrite B. reflexivity.
  - rewrite booking_setBooking. apply P.
Qed.

(** C10.  At mount [booking.hours] is 3 whoever is logged in, although
    the home counters start at 2 bedrooms, 1 bathroom, 1 kitchen and
    1 living area, whose estimate is 2.5.  The estimate reaches the
    booking only through a counter mutation: every event other than a
    counter button or the slider leaves [hours] as it is, and one click
    up and down again on a counter brings the default counters back with
    2.5 hours in the booking. *)
Theorem mount_hours_ignore_estimator :
  forall currentUser : option User.t,
    let w := mount currentUser in
    hours (booking w) = 3 /\
    homeEstimator w
    = {| bedrooms := 2; bathrooms := 1; kitchen := 1; living := 1 |} /\
    homeHours (homeEstimator w) = 2.5 /\
    (hours (booking w) =? homeHours (homeEstimator w)) = false /\
    (forall ev w',
       possible ev ->
       hours (booking (run ev w')) <> hours (booking w') ->
       exists v, ev = Slider v \/ (exists f, ev = HomeCounter f v)
                 \/ (exists f, ev = OfficeCounter f v)) /\
    (let w2 := run_all [HomeCounter Bedrooms 1; HomeCounter Bedrooms (-1)] w in
     homeEstimator w2 = homeEstimator w /\ hours (booking w2) = 2.5).
Proof.
  intros currentUser w.
  destruct (mount_frame currentUser) as (H3 & HE & _). fold w in H3, HE.
  split; [exact H3|]. split; [exact HE|].
  rewrite HE, H3. split; [reflexivity|]. split; [reflexivity|]. split.
  - intros ev w' P D.
    pose proof (unchanged_by_other_events ev w' P) as U.
    destruct ev as [| | f d | f d | v | n r | updater]; try contradiction.
    + exists d. right. left. exists f. reflexivity.
    + exists d. right. right. exists f. reflexivity.
    + exists v. left. reflexivity.
  - cbn [run_all run].
    destruct (handleHomeChange_frame Bedrooms 1 w) as (B1 & E1 & _).
    destruct (handleHomeChange_frame Bedrooms (-1) (handleHomeChange Bedrooms 1 w))
      as (B2 & E2 & _).
    rewrite B2, E2, E1, HE. split; reflexivity.
Qed.

Lemma mount_hours_ignore_estimator_witness :
  hours (booking (mount None)) = 3 /\
  exists v, Slider 4 = Slider v \/ (exists f, Slider 4 = HomeCounter f v)
            \/ (exists f, Slider 4 = OfficeCounter f v).
Proof.
  split.
  - apply (mount_hours_ignore_estimator None).
  - apply (mount_hours_ignore_estimator None) with (w' := mount None).
    + simpl. tauto.
    + apply number_neq. reflexivity.
Defined.

(** * Pricing (claims C4, C5) *)

Lemma currentService_some SERVICE_OPTIONS b s :
  currentService SERVICE_OPTIONS b = Some s ->
  In s SERVICE_OPTIONS /\ service b = Some (id s).
Proof.
  unfold currentService. intros H. apply find_some in H. destruct H as [I E].
  split; [exact I|].
  unfold id_strict_eq in E. destruct (service b) as [sid|]; [|discriminate].
  apply String.eqb_eq in E. rewrite E. reflexivity.
Qed.




(** * The availability effect (claims C8, C1, C3) *)


Lemma availabilityEffect_issues w :
  truthy_string (date (booking w)) = true ->
  truthy (hours (booking w)) = true ->
  availabilityEffect w
  = getRealAvailability (date (booking w)) (Math_ceil (hours (booking w)))
      (setIsLoadingSlots true (setAvailableSlots [] w)).
Proof.
  intros D H. unfold availabilityEffect, fetchSlots.
  cbn [booking setAvailableSlots]. rewrite D, H. reflexivity.
Qed.





Lemma setBooking_changed updater w :
  deps_changed (booking w) (updater (booking w)) = true ->
  setBooking updater w = availabilityEffect (with_booking (updater (booking w)) w).
Proof.
  intros H. unfold setBooking. cbn [booking with_booking]. rewrite H. reflexivity.
Qed.

Lemma settle_fulfilled n slots w :
  is_in_flight n w = true ->
  fst (settle n (Fulfilled slots) w)
  = setIsLoadingSlots false (setAvailableSlots slots (drop_fetch n w)).
Proof.
  intros H. unfold settle. rewrite H. reflexivity.
Qed.

(** C1, as the code has it.  The continuation of an availability call
    writes the slots it receives without looking at the booking state:
    whichever call settles last fills the slot list.  So when the date or
    hours change twice (A, then B), both calls are issued with their own
    arguments, and if B's call succeeds first and A's second, the slot
    list ends up holding A's slots while the booking holds B's date and
    hours. *)
Theorem last_settled_fetch_fills_slots :
  (forall w n slots,
     is_in_flight n w = true ->
     availableSlots (fst (settle n (Fulfilled slots) w)) = slots /\
     booking (fst (settle n (Fulfilled slots) w)) = booking w) /\
  (forall w updA updB slotsA slotsB,
     let bA := updA (booking w) in
     let bB := updB bA in
     deps_changed (booking w) bA = true ->
     deps_changed bA bB = true ->
     truthy_string (date bA) = true -> truthy (hours bA) = true ->
     truthy_string (date bB) = true -> truthy (hours bB) = true ->
     let w2 := setBooking updB (setBooking updA w) in
     let w3 := fst (settle (S (nextFetch w)) (Fulfilled slotsB) w2) in
     let w4 := fst (settle (nextFetch w) (Fulfilled slotsA) w3) in
     inFlight w2
     = inFlight w
       ++ [{| fetch_id := nextFetch w; fetch_date := date bA;
              fetch_duration := Math_ceil (hours bA) |};
           {| fetch_id := S (nextFetch w); fetch_date := date bB;
              fetch_duration := Math_ceil (hours bB) |}] /\
     availableSlots w3 = slotsB /\
     availableSlots w4 = slotsA /\
     booking w4 = bB).
Proof.
  split.
  - intros w n slots H. rewrite (settle_fulfilled n slots w H).
    split; reflexivity.
  - intros w updA updB slotsA slotsB bA bB CA CB DA HA DB HB w2 w3 w4.
    assert (E1 : setBooking updA w
                 = getRealAvailability (date bA) (Math_ceil (hours bA))
                     (setIsLoadingSlots true
                        (setAvailableSlots [] (with_booking bA w)))).
    { rewrite (setBooking_changed updA w CA).
      apply availabilityEffect_issues; assumption. }
    set (w1 := setBooking updA w) in *.
    assert (B1 : booking w1 = bA) by (rewrite E1; reflexivity).
    assert (E2 : w2
                 = getRealAvailability (date bB) (Math_ceil (hours bB))
                     (setIsLoadingSlots true
                        (setAvailableSlots [] (with_booking bB w1)))).
    { unfold w2. rewrite setBooking_changed; rewrite B1; [|exact CB].
      apply availabilityEffect_issues; assumption. }
    assert (N1 : nextFetch w1 = S (nextFetch w)) by (rewrite E1; reflexivity).
    assert (I1 : inFlight w1
                 = inFlight w ++ [{| fetch_id := nextFetch w; fetch_date := date bA;
                                     fetch_duration := Math_ceil (hours bA) |}])
      by (rewrite E1; reflexivity).
    assert (I2 : inFlight w2
                 = inFlight w
                   ++ [{| fetch_id := nextFetch w; fetch_date := date bA;
                          fetch_duration := Math_ceil (hours bA) |};
                       {| fetch_id := S (nextFetch w); fetch_date := date bB;
                          fetch_duration := Math_ceil (hours bB) |}]).
    { rewrite E2. cbn [inFlight nextFetch getRealAvailability setIsLoadingSlots
                       setAvailableSlots with_booking].
      rewrite I1, N1, <- app_assoc. reflexivity. }
    assert (F2 : is_in_flight (S (nextFetch w)) w2 = true).
    { unfold is_in_flight. rewrite I2, existsb_app. cbn [existsb fetch_id].
      rewrite Nat.eqb_refl, !orb_true_r. reflexivity. }
    assert (E3 : w3 = setIsLoadingSlots false
                        (setAvailableSlots slotsB (drop_fetch (S (nextFetch w)) w2)))
      by (apply settle_fulfilled, F2).
    assert (F3 : is_in_flight (nextFetch w) w3 = true).
    { rewrite E3. unfold is_in_flight.
      cbn [inFlight setIsLoadingSlots setAvailableSlots drop_fetch].
      rewrite I2, filter_app, existsb_app. cbn [filter existsb fetch_id negb].
      replace (Nat.eqb (nextFetch w) (S (nextFetch w))) with false
        by (symmetry; apply Nat.eqb_neq; lia).
      cbn [negb existsb fetch_id]. rewrite Nat.eqb_refl, orb_true_r.
      reflexivity. }
    assert (E4 : w4 = setIsLoadingSlots false
                        (setAvailableSlots slotsA (drop_fetch (nextFetch w) w3)))
      by (apply settle_fulfilled, F3).
    split; [exact I2|]. split; [rewrite E3; reflexivity|].
    split; [rewrite E4; reflexivity|].
    rewrite E4, E3, E2. reflexivity.
Qed.

Lemma last_settled_fetch_fills_slots_witness :
  let w2 := setBooking (with_date (Some "2025-06-03"%string))
              (setBooking (with_date (Some "2025-06-02"%string)) (mount None)) in
  let w3 := fst (settle 1 (Fulfilled [slot_13]) w2) in
  let w4 := fst (settle 0 (Fulfilled [slot_9]) w3) in
  inFlight w2
  = [{| fetch_id := 0; fetch_date := Some "2025-06-02"%string;
        fetch_duration := 3 |};
     {| fetch_id := 1; fetch_date := Some "2025-06-03"%string;
        fetch_duration := 3 |}] /\
  availableSlots w3 = [slot_13] /\
  availableSlots w4 = [slot_9] /\
  booking w4
  = with_date (Some "2025-06-03"%string)
      (with_date (Some "2025-06-02"%string) (booking (mount None))).
Proof.
  apply (proj2 last_settled_fetch_fills_slots (mount None)
           (with_date (Some "2025-06-02"%string))
           (with_date (Some "2025-06-03"%string))
           [slot_9] [slot_13]); reflexivity.
Defined.

(** C1 fails as stated: the date changes from 2 June to 3 June while the
    call for 2 June is in flight; the call for 3 June succeeds first, the
    call for 2 June afterwards, and its slots replace those of 3 June
    although the booking is for 3 June. *)
Lemma stale_fetch_overwrites_slots :
  let w2 := run_all [OtherWrite (with_date (Some "2025-06-02"%string));
                     OtherWrite (with_date (Some "2025-06-03"%string))]
              (mount None) in
  let w3 := run (Settle 1 (Fulfilled [slot_13])) w2 in
  let w4 := run (Settle 0 (Fulfilled [slot_9])) w3 in
  map fetch_date (inFlight w2)
  = [Some "2025-06-02"%string; Some "2025-06-03"%string] /\
  map fetch_id (inFlight w2) = [0%nat; 1%nat] /\
  availableSlots w3 = [slot_13] /\
  date (booking w4) = Some "2025-06-03"%string /\
  availableSlots w4 = [slot_9] /\
  availableSlots w4 <> availableSlots w3.
Proof.
  repeat split; try reflexivity.
  cbv. discriminate.
Qed.

Lemma timeSlot_kept ev w :
  match ev with
  | OtherWrite _ => True
  | _ => timeSlot (booking (run ev w)) = timeSlot (booking w)
  end.
Proof.
  destruct ev as [| | f d | f d | v | n r | updater]; simpl; auto.
  - unfold handleNext. rewrite booking_setBooking. reflexivity.
  - unfold handleBack. rewrite booking_setBooking. reflexivity.
  - destruct (handleHomeChange_frame f d w) as (B & _). rewrite B. reflexivity.
  - destruct (handleOfficeChange_frame f d w) as (B & _). rewrite B. reflexivity.
  - unfold sliderChange. rewrite booking_setBooking. reflexivity.
  - destruct (settle_frame n r w) as (B & _). rewrite B. reflexivity.
Qed.

(** C3, as the code has it.  No handler of the source file clears
    [booking.timeSlot]: the step buttons, both estimators, the slider and
    the settling of a call leave it as it is.  When a write changes the
    date or the hours, the effect empties the slot list and touches
    nothing of the booking record, so a slot chosen before the change
    stays selected while the list it came from is gone. *)
Theorem hours_change_keeps_timeSlot :
  forall w : Wizard,
    (forall ev,
       match ev with
       | OtherWrite _ => True
       | _ => timeSlot (booking (run ev w)) = timeSlot (booking w)
       end) /\
    (forall updater,
       deps_changed (booking w) (updater (booking w)) = true ->
       availableSlots (setBooking updater w) = [] /\
       booking (setBooking updater w) = updater (booking w)).
Proof.
  intros w. split.
  - intros ev. apply timeSlot_kept.
  - intros updater H. rewrite (setBooking_changed updater w H).
    destruct (availabilityEffect_frame (with_booking (updater (booking w)) w))
      as (B & _ & _ & A & _).
    rewrite A, B. split; reflexivity.
Qed.

Lemma hours_change_keeps_timeSlot_witness :
  availableSlots (setBooking (with_hours 4) dated) = [] /\
  booking (setBooking (with_hours 4) dated) = with_hours 4 (booking dated).
Proof.
  apply (proj2 (hours_change_keeps_timeSlot dated) (with_hours 4)).
  reflexivity.
Defined.

(** C3 fails as stated: a date is chosen, its slots arrive, the 9:00
    slot is selected, and then the slider moves from 3 to 4 hours.  The
    slot list is emptied, yet the 9:00 slot is still the selected one. *)
Lemma selected_slot_survives_hours_change :
  let w0 := run_all [OtherWrite (with_date (Some "2025-06-02"%string));
                     Settle 0 (Fulfilled [slot_9; slot_13]);
                     OtherWrite (with_timeSlot (Some slot_9))]
              (mount None) in
  let w := run (Slider 4) w0 in
  timeSlot (booking w0) = Some slot_9 /\
  In slot_9 (availableSlots w0) /\
  hours (booking w0) = 3 /\
  hours (booking w) = 4 /\
  date (booking w) = date (booking w0) /\
  timeSlot (booking w) = Some slot_9 /\
  availableSlots w = [] /\
  ~ In slot_9 (availableSlots w).
Proof.
  repeat split; try reflexivity.
  - left. reflexivity.
  - intros H. exact H.
Qed.

(** * The range of hours (claim C2) *)

Lemma below_nonneg k x : below k x = true -> nonneg x = true.
Proof.
  unfold below, nonneg. destruct (Prim2SF x) as [[]|[]| |[] m e]; simpl; congruence.
Qed.

Lemma below_finite k x : below k x = true -> finite x = true.
Proof.
  unfold below, finite. destruct (Prim2SF x) as [[]|[]| |[] m e]; simpl; congruence.
Qed.

Lemma below_mono a b x : (a <= b)%Z -> below a x = true -> below b x = true.
Proof. unfold below. apply SFbelow_mono. Qed.

Lemma below_mul a b x c :
  below a x = true -> below b c = true -> (-1074 <= a + b <= 973)%Z ->
  below (a + b + 1) (x * c) = true.
Proof. unfold below. rewrite FloatAxioms.mul_spec. apply SFmul_below. Qed.

Lemma below_add a b x y :
  below a x = true -> below b y = true -> (-1075 <= Z.max a b <= 970)%Z ->
  below (Z.max a b + 2) (x + y) = true.
Proof. unfold below. rewrite FloatAxioms.add_spec. apply SFadd_below. Qed.

Lemma below_div_two a x :
  below a x = true -> (-1073 <= a <= 920)%Z -> below a (x / 2) = true.
Proof.
  unfold below. rewrite FloatAxioms.div_spec. apply SFdiv_two_below.
Qed.

Lemma of_Z_below z : (0 <= z < 2 ^ 53)%Z -> below 54 (of_Z z) = true.
Proof.
  intros Hz. unfold below, of_Z. rewrite of_uint63_spec, Uint63.of_Z_spec.
  rewrite Z.mod_small by (change wB with (2 ^ 63)%Z; lia).
  destruct z as [| p | p]; try lia; [reflexivity|].
  cbn [binary_normalize].
  apply (binary_round_SFbelow p 0 53); lia.
Qed.

(** [Math.ceil] of a value below [2^k] is below [2^k], for [k >= 54]: a
    value with a fractional part is below 2^52. *)
Lemma Math_ceil_below k x :
  (54 <= k)%Z -> below k x = true -> below k (Math_ceil x) = true.
Proof.
  intros Hk H. unfold Math_ceil.
  pose proof (Prim2SF_valid x) as V.
  destruct (Prim2SF x) as [s | s | | s m e] eqn:E; try exact H.
  destruct (0 <=? e)%Z eqn:He; [exact H|].
  apply Z.leb_gt in He.
  unfold below in H. rewrite E in H. destruct s; [discriminate|].
  apply below_mono with (a := 54%Z); [exact Hk|].
  apply of_Z_below.
  cbn [valid_binary] in V. unfold bounded, canonical_mantissa in V.
  apply andb_true_iff in V. destruct V as [V _]. apply Z.eqb_eq in V.
  unfold fexp, SpecFloat.emin in V.
  pose proof (digits2_pos_bounds m) as [_ U].
  assert (D : (Z.pos (digits2_pos m) <= 53)%Z)
    by (change prec with 53%Z in V; lia).
  assert (M : (Z.pos m < 2 ^ 53)%Z).
  { apply Z.lt_le_trans with (1 := U). apply Z.pow_le_mono_r; lia. }
  assert (P : (2 <= 2 ^ (- e))%Z).
  { change 2%Z with (2 ^ 1)%Z at 1. apply Z.pow_le_mono_r; lia. }
  assert (Q : (0 <= Z.pos m / 2 ^ (- e) < 2 ^ 52)%Z).
  { split; [apply Z.div_pos; lia|].
    apply Z.div_lt_upper_bound; [lia|].
    change (2 ^ 53)%Z with (2 * 2 ^ 52)%Z in M.
    assert (0 < 2 ^ 52)%Z by reflexivity. nia. }
  assert (2 ^ 52 + 1 < 2 ^ 53)%Z by reflexivity.
  destruct (_ =? 0)%Z; lia.
Qed.

Lemma Math_max_below k c r :
  below k c = true -> below k r = true -> below k (Math_max c r) = true.
Proof.
  intros Hc Hr.
  destruct (Math_max_spec c r (below_nonneg k c Hc)
              (nonneg_not_nan r (below_nonneg k r Hr))) as ([E | E] & _);
    rewrite E; assumption.
Qed.

Lemma is_counter_below c : is_counter c = true -> below 54 c = true.
Proof.
  unfold is_counter, below.
  destruct (Prim2SF c) as [[]|[]| |[] m e]; try discriminate; [reflexivity|].
  intros H. destruct (SFcounter_cases m e H) as [[_ D] | [-> ->]];
    [|reflexivity].
  cbn [SFbelow]. apply Z.leb_le. lia.
Qed.

Lemma is_counter_nonneg c : is_counter c = true -> nonneg c = true.
Proof. intros H. apply (below_nonneg 54), is_counter_below, H. Qed.

(** A counter after a click: [Math.max(0, c + 1)] or [Math.max(0, c - 1)]
    is again a whole number between 0 and 2^53. *)
Lemma counter_moves c delta :
  is_counter c = true -> delta = 1 \/ delta = -1 ->
  is_counter (Math_max 0 (c + delta)) = true.
Proof.
  intros Hc [-> | ->].
  - assert (K : is_counter (c + 1) = true).
    { unfold is_counter in *. rewrite FloatAxioms.add_spec.
      exact (SFadd_counter_one _ Hc). }
    destruct (Math_max_spec 0 (c + 1) eq_refl
                (nonneg_not_nan _ (is_counter_nonneg _ K))) as ([E | E] & _);
      rewrite E; [reflexivity | exact K].
  - assert (K : c + -1 = -1 \/ is_counter (c + -1) = true).
    { unfold is_counter in *.
      destruct (SFadd_counter_minus_one _ Hc) as [M | M].
      - left. apply Prim2SF_inj. rewrite FloatAxioms.add_spec. exact M.
      - right. rewrite FloatAxioms.add_spec. exact M. }
    destruct K as [K | K].
    + rewrite K. reflexivity.
    + destruct (Math_max_spec 0 (c + -1) eq_refl
                  (nonneg_not_nan _ (is_counter_nonneg _ K))) as ([E | E] & _);
        rewrite E; [reflexivity | exact K].
Qed.

Lemma home_counters_nonneg e : home_counters e -> home_nonneg e.
Proof.
  intros (A & B & C & D). repeat split; apply is_counter_nonneg; assumption.
Qed.

Lemma office_counters_nonneg e : office_counters e -> office_nonneg e.
Proof.
  intros (A & B & C & D). repeat split; apply is_counter_nonneg; assumption.
Qed.

Lemma home_set_counters field v e :
  home_counters e -> is_counter v = true -> home_counters (home_set field v e).
Proof.
  unfold home_counters. intros (A & B & C & D) V.
  destruct field; simpl; auto.
Qed.

Lemma office_set_counters field v e :
  office_counters e -> is_counter v = true ->
  office_counters (office_set field v e).
Proof.
  unfold office_counters. intros (A & B & C & D) V.
  destruct field; simpl; auto.
Qed.

Lemma home_get_counter field e :
  home_counters e -> is_counter (home_get field e) = true.
Proof. intros (A & B & C & D). destruct field; assumption. Qed.

Lemma office_get_counter field e :
  office_counters e -> is_counter (office_get field e) = true.
Proof. intros (A & B & C & D). destruct field; assumption. Qed.

(** A counter times one of the per-room constants, all below 1. *)
Lemma term_below c k :
  is_counter c = true -> below 0 k = true -> below 55 (c * k) = true.
Proof.
  intros Hc Hk. apply (below_mul 54 0); [apply is_counter_below, Hc | exact Hk | lia].
Qed.

(** The rounded estimate of a raw value below [2^k]. *)
Lemma roundUpToHalf_below k x :
  (51 <= k <= 900)%Z -> below k x = true ->
  below (k + 3) (roundUpToHalf x) = true.
Proof.
  intros Hk H. unfold roundUpToHalf.
  apply below_div_two; [|lia].
  apply Math_ceil_below; [lia|].
  replace (k + 3)%Z with (k + 2 + 1)%Z by lia.
  apply (below_mul k 2); [exact H | reflexivity | lia].
Qed.

Lemma leb_three_two r : (3 <=? r) = true -> (2 <=? r) = true.
Proof.
  rewrite !FloatAxioms.leb_spec.
  change (Prim2SF 3) with (S754_finite false 6755399441055744 (-51)).
  change (Prim2SF 2) with (S754_finite false 4503599627370496 (-51)).
  unfold SFleb, SFcompare.
  destruct (Prim2SF r) as [[]|[]| |[] m e]; try congruence.
  destruct (-51 ?= e)%Z; try congruence.
  change (Pos.compare_cont Eq 6755399441055744 m)
    with (Z.pos 6755399441055744 ?= Z.pos m)%Z.
  change (Pos.compare_cont Eq 4503599627370496 m)
    with (Z.pos 4503599627370496 ?= Z.pos m)%Z.
  destruct (Z.compare_spec (Z.pos 6755399441055744) (Z.pos m));
    destruct (Z.compare_spec (Z.pos 4503599627370496) (Z.pos m));
    try congruence; lia.
Qed.

(** The floor [c] (2 or 3) applied to the rounded estimate of a raw
    value that is finite. *)
Lemma floor_ok c k x :
  below 2 c = true -> multiple_of_half c = true ->
  (forall r, (c <=? r) = true -> (2 <=? r) = true) ->
  (51 <= k <= 900)%Z -> below k x = true ->
  hours_ok (Math_max c (roundUpToHalf x)) /\
  (c <=? Math_max c (roundUpToHalf x)) = true.
Proof.
  intros Bc Mc Tc Hk Hx.
  pose proof (roundUpToHalf_below k x Hk Hx) as Br.
  destruct (floor_at_least c x (below_nonneg _ _ Bc) Mc (below_nonneg _ _ Hx))
    as (N & L & M).
  assert (F : finite (Math_max c (roundUpToHalf x)) = true).
  { apply (below_finite (k + 3)), Math_max_below; [|exact Br].
    apply below_mono with (2 := Bc). lia. }
  split; [|exact L].
  split; [exact N|]. split; [exact (Tc _ L) | exact (M F)].
Qed.

Lemma homeUpdate_ok field delta prev :
  home_counters prev -> delta = 1 \/ delta = -1 ->
  home_counters (fst (homeUpdate field delta prev)) /\
  hours_ok (snd (homeUpdate field delta prev)).
Proof.
  intros Hp Hd.
  assert (N : home_counters (fst (homeUpdate field delta prev))).
  { unfold homeUpdate. cbn [fst]. apply home_set_counters; [exact Hp|].
    apply counter_moves; [apply home_get_counter, Hp | exact Hd]. }
  split; [exact N|].
  destruct N as (A & B & C & D).
  unfold homeUpdate in *. cbn [fst snd] in *.
  set (newState := home_set field (Math_max 0 (home_get field prev + delta)) prev) in *.
  pose proof (term_below _ 0.75 C eq_refl) as T1.
  pose proof (term_below _ 0.5 B eq_refl) as T2.
  pose proof (term_below _ 0.3 A eq_refl) as T3.
  pose proof (term_below _ 0.25 D eq_refl) as T4.
  pose proof (below_add 0 55 0 _ eq_refl T1 ltac:(lia)) as S1.
  pose proof (below_add 57 55 _ _ S1 T2 ltac:(lia)) as S2.
  pose proof (below_add 59 55 _ _ S2 T3 ltac:(lia)) as S3.
  pose proof (below_add 61 55 _ _ S3 T4 ltac:(lia)) as S4.
  apply (floor_ok 2 63 _ eq_refl eq_refl (fun r H => H) ltac:(lia) S4).
Qed.

Lemma officeUpdate_ok field delta prev :
  office_counters prev -> delta = 1 \/ delta = -1 ->
  office_counters (fst (officeUpdate field delta prev)) /\
  hours_ok (snd (officeUpdate field delta prev)) /\
  (3 <=? snd (officeUpdate field delta prev)) = true.
Proof.
  intros Hp Hd.
  assert (N : office_counters (fst (officeUpdate field delta prev))).
  { unfold officeUpdate. cbn [fst]. apply office_set_counters; [exact Hp|].
    apply counter_moves; [apply office_get_counter, Hp | exact Hd]. }
  split; [exact N|].
  destruct N as (A & B & C & D).
  unfold officeUpdate in *. cbn [fst snd] in *.
  set (newState := office_set field (Math_max 0 (office_get field prev + delta)) prev) in *.
  pose proof (term_below _ 0.3 A eq_refl) as T1.
  pose proof (term_below _ 0.67 B eq_refl) as T2.
  pose proof (term_below _ 0.133 C eq_refl) as T3.
  pose proof (term_below _ 0.42 D eq_refl) as T4.
  pose proof (below_add 0 55 0 _ eq_refl T1 ltac:(lia)) as S1.
  pose proof (below_add 57 55 _ _ S1 T2 ltac:(lia)) as S2.
  pose proof (below_add 59 55 _ _ S2 T3 ltac:(lia)) as S3.
  pose proof (below_add 61 55 _ _ S3 T4 ltac:(lia)) as S4.
  pose proof (below_add 63 0 _ 0.75 S4 eq_refl ltac:(lia)) as S5.
  apply (floor_ok 3 65 _ eq_refl eq_refl leb_three_two ltac:(lia) S5).
Qed.

Lemma slider_value_ok v :
  In v slider_values ->
  hours_ok v /\ (2 <=? v) = true /\ (v <=? 10) = true.
Proof.
  unfold slider_values. intros H. simpl in H.
  repeat (destruct H as [H | H];
          [subst v; repeat split; reflexivity|]).
  contradiction.
Qed.

Lemma mount_invariant currentUser : session_invariant (mount currentUser).
Proof.
  destruct (mount_frame currentUser) as (H & E & O).
  unfold session_invariant. rewrite H, E, O.
  repeat split; reflexivity.
Qed.

Lemma run_invariant ev w :
  session_invariant w -> possible ev -> session_invariant (run ev w).
Proof.
  intros (IH & IO & IB) P. unfold session_invariant.
  destruct ev as [| | f d | f d | v | n r | updater]; cbn [run].
  - unfold handleNext.
    destruct (setBooking_frame (fun prev => with_step (step prev + 1) prev) w)
      as (B & H & O & _).
    rewrite B, H, O. auto.
  - unfold handleBack.
    destruct (setBooking_frame (fun prev => with_step (step prev - 1) prev) w)
      as (B & H & O & _).
    rewrite B, H, O. auto.
  - destruct (handleHomeChange_frame f d w) as (B & H & O).
    rewrite B, H, O. cbn [hours with_hours].
    destruct (homeUpdate_ok f d (homeEstimator w) IH P) as (N & K).
    auto.
  - destruct (handleOfficeChange_frame f d w) as (B & H & O).
    rewrite B, H, O. cbn [hours with_hours].
    destruct (officeUpdate_ok f d (officeEstimator w) IO P) as (N & K & _).
    auto.
  - unfold sliderChange.
    destruct (setBooking_frame (fun _ => with_hours v (booking w)) w)
      as (B & H & O & _).
    rewrite B, H, O. cbn [hours with_hours].
    destruct (slider_value_ok v P) as (K & _). auto.
  - destruct (settle_frame n r w) as (B & H & O). rewrite B, H, O. auto.
  - destruct (setBooking_frame updater w) as (B & H & O & _).
    rewrite B, H, O. simpl in P. rewrite P. auto.
Qed.

Lemma reachable_invariant currentUser w :
  reachable currentUser w -> session_invariant w.
Proof.
  induction 1 as [| w ev R IH P].
  - apply mount_invariant.
  - apply run_invariant; assumption.
Qed.

Lemma reachable_run_all currentUser evs : forall w,
  reachable currentUser w -> Forall possible evs ->
  reachable currentUser (run_all evs w).
Proof.
  induction evs as [| ev evs IH]; intros w R F; [exact R|].
  inversion F as [| ? ? P F']; subst.
  cbn [run_all]. apply IH; [|exact F'].
  apply reachable_run; assumption.
Qed.

(** C2, as the code has it.  In every state a session can reach,
    [booking.hours] is a finite number, at least 2 and a multiple of one
    half.  Each writer gives what its code says: a home counter writes
    [homeHours], an office counter writes [officeHours], which is at
    least 3, the slider writes the value it reports, which lies in
    [2, 10], and nothing else changes the hours.  No writer looks at the
    selected service, and neither estimator has an upper bound. *)
Theorem hours_in_every_reachable_state :
  forall (currentUser : option User.t) (w : Wizard),
    reachable currentUser w ->
    hours_ok (hours (booking w)) /\
    (forall ev,
       possible ev ->
       match ev with
       | HomeCounter _ _ =>
           hours (booking (run ev w)) = homeHours (homeEstimator (run ev w))
       | OfficeCounter _ _ =>
           hours (booking (run ev w)) = officeHours (officeEstimator (run ev w)) /\
           (3 <=? hours (booking (run ev w))) = true
       | Slider value =>
           hours (booking (run ev w)) = value /\
           (2 <=? value) = true /\ (value <=? 10) = true
       | _ => hours (booking (run ev w)) = hours (booking w)
       end).
Proof.
  intros currentUser w R.
  destruct (reachable_invariant currentUser w R) as (IH & IO & IB).
  split; [exact IB|].
  intros ev P.
  pose proof (unchanged_by_other_events ev w P) as U.
  destruct ev as [| | f d | f d | v | n r | updater]; try exact U.
  - apply (home_mutation_writes_homeHours_aux w f d), home_counters_nonneg, IH.
  - split.
    + apply (office_mutation_writes_officeHours_aux w f d),
        office_counters_nonneg, IO.
    + cbn [run]. destruct (handleOfficeChange_frame f d w) as (B & _).
      rewrite B. cbn [hours with_hours].
      apply (officeUpdate_ok f d (officeEstimator w) IO P).
  - split.
    + cbn [run]. unfold sliderChange. rewrite booking_setBooking. reflexivity.
    + apply (slider_value_ok v P).
Qed.

Lemma hours_in_every_reachable_state_witness :
  hours_ok (hours (booking (mount None))) /\
  (3 <=? hours (booking (run (OfficeCounter Desks 1) (mount None)))) = true.
Proof.
  split.
  - apply (hours_in_every_reachable_state None (mount None)).
    apply reachable_mount.
  - apply (proj2 (hours_in_every_reachable_state None (mount None)
                    (reachable_mount None))
             (OfficeCounter Desks 1)).
    left. reflexivity.
Defined.

(** C2 fails as stated, in both of its bounds.  With the home service
    selected, eleven clicks on the kitchen counter give 10.5 hours, above
    10.  With the office service selected, the slider at its lowest
    position gives 2 hours, below 3. *)
Lemma hours_leave_the_claimed_ranges :
  let home := run_all (OtherWrite (with_service (Some "standard"%string))
                       :: repeat (HomeCounter Kitchen 1) 11) (mount None) in
  let office := run_all [OtherWrite (with_service (Some "office"%string));
                         Slider 2] (mount None) in
  (reachable None home /\
   isOfficeService example_catalog (booking home) = false /\
   kitchen (homeEstimator home) = 12 /\
   hours (booking home) = 10.5 /\
   (hours (booking home) <=? 10) = false) /\
  (reachable None office /\
   isOfficeService example_catalog (booking office) = true /\
   hours (booking office) = 2 /\
   (3 <=? hours (booking office)) = false).
Proof.
  split; (split; [|repeat split; reflexivity]).
  - apply reachable_run_all; [apply reachable_mount|].
    repeat constructor.
  - apply reachable_run_all; [apply reachable_mount|].
    repeat constructor.
Qed.

(** * Rounding in the pricing figures (claim C5) *)







(** * Rounding by value

    What [binary_round_aux] returns, as a function of the value it is
    given: the nearest multiple of the unit in the last place, ties to
    even.  Hence rounding is monotone and keeps what is representable. *)

Section Value.

Local Open Scope Z_scope.

Lemma pow2_pos k : 0 <= k -> 0 < 2 ^ k.
Proof. intros H. apply Z.pow_pos_nonneg; lia. Qed.

Lemma pow2_split a b : 0 <= a -> 0 <= b -> 2 ^ (a + b) = 2 ^ a * 2 ^ b.
Proof. intros. apply Z.pow_add_r; assumption. Qed.

Lemma top_pos : 0 < top.
Proof. unfold top. apply Z.pow_pos_nonneg; lia. Qed.

Lemma whole_pos : 0 < whole.
Proof. unfold whole. apply Z.pow_pos_nonneg; lia. Qed.

Lemma top_whole : top = 2 ^ 1024 * whole.
Proof.
  unfold top, whole. rewrite <- Z.pow_add_r by lia. f_equal.
Qed.

(** ** The rounding shift in terms of quotient and remainder *)

Lemma iter_pos_steps {A} (f : A -> A) (P : Z -> A -> Prop) :
  (forall k x, 0 <= k -> P k x -> P (k + 1) (f x)) ->
  forall p k x, 0 <= k -> P k x -> P (k + Z.pos p) (iter_pos f p x).
Proof.
  intros Hf. induction p as [p IH | p IH |]; intros k x Hk Hx; cbn [iter_pos].
  - replace (k + Z.pos p~1) with (k + 1 + Z.pos p + Z.pos p) by lia.
    apply IH; [lia|]. apply IH; [lia|]. apply Hf; assumption.
  - replace (k + Z.pos p~0) with (k + Z.pos p + Z.pos p) by lia.
    apply IH; [lia|]. apply IH; assumption.
  - apply Hf; assumption.
Qed.

Lemma shifted_start v : shifted v 0 {| shr_m := v; shr_r := false; shr_s := false |}.
Proof. exists 0. simpl. repeat split; lia. Qed.

Lemma shifted_step v k mrs :
  0 <= k -> 0 <= shr_m mrs -> shifted v k mrs -> shifted v (k + 1) (shr_1 mrs).
Proof.
  intros Hk Hm (r & Hr & Hv & Hl).
  assert (P : 0 < 2 ^ k) by (apply pow2_pos, Hk).
  assert (E : 2 ^ (k + 1) = 2 * 2 ^ k)
    by (replace (k + 1) with (Z.succ k) by lia; apply Z.pow_succ_r, Hk).
  destruct mrs as [m rb sb]. cbn [shr_m] in *.
  assert (S : orb rb sb = negb (r =? 0)).
  { destruct rb, sb, (r =? 0); simpl in *; congruence. }
  destruct m as [| [p | p |] | p]; try lia; cbn [shr_1].
  - exists r. rewrite E. cbn [shr_m loc_of_shr_record]. rewrite S.
    split; [lia|]. split; [lia|].
    destruct (Z.eqb_spec r 0); cbn [negb]; [reflexivity|].
    f_equal. symmetry. apply Z.compare_lt_iff. lia.
  - exists (2 ^ k + r). rewrite E. cbn [shr_m loc_of_shr_record]. rewrite S.
    split; [lia|]. split; [rewrite Hv, Pos2Z.inj_xI; ring|].
    destruct (Z.eqb_spec (2 ^ k + r) 0); [lia|].
    destruct (Z.eqb_spec r 0); cbn [negb]; f_equal; symmetry.
    + apply Z.compare_eq_iff. lia.
    + apply Z.compare_gt_iff. lia.
  - exists r. rewrite E. cbn [shr_m loc_of_shr_record]. rewrite S.
    split; [lia|]. split; [rewrite Hv, Pos2Z.inj_xO; ring|].
    destruct (Z.eqb_spec r 0); cbn [negb]; [reflexivity|].
    f_equal. symmetry. apply Z.compare_lt_iff. lia.
  - exists (2 ^ k + r). rewrite E. cbn [shr_m loc_of_shr_record]. rewrite S.
    split; [lia|]. split; [lia|].
    destruct (Z.eqb_spec (2 ^ k + r) 0); [lia|].
    destruct (Z.eqb_spec r 0); cbn [negb]; f_equal; symmetry.
    + apply Z.compare_eq_iff. lia.
    + apply Z.compare_gt_iff. lia.
Qed.

Lemma shifted_iter v p mrs :
  0 <= shr_m mrs -> shifted v 0 mrs ->
  shifted v (Z.pos p) (iter_pos shr_1 p mrs) /\ 0 <= shr_m (iter_pos shr_1 p mrs).
Proof.
  intros Hm Hs.
  apply (iter_pos_steps shr_1
           (fun k x => shifted v k x /\ 0 <= shr_m x)) with (k := 0) (p := p);
    [|lia|auto].
  intros k x Hk [S N]. split; [apply shifted_step; assumption|].
  apply shr_1_nonneg'. exact N.
Qed.

Lemma shifted_round v k mrs :
  0 <= k -> shifted v k mrs ->
  round_nearest_even (shr_m mrs) (loc_of_shr_record mrs) = rne v k.
Proof.
  intros Hk (r & Hr & Hv & Hl).
  assert (P : 0 < 2 ^ k) by (apply pow2_pos, Hk).
  assert (Q : v / 2 ^ k = shr_m mrs).
  { symmetry. apply Z.div_unique with r; lia. }
  assert (R : v mod 2 ^ k = r).
  { symmetry. apply Z.mod_unique with (shr_m mrs); lia. }
  unfold rne. rewrite Q, R, Hl.
  destruct (Z.eqb_spec r 0) as [-> | N]; cbn [round_nearest_even].
  - assert (C : (2 * 0 ?= 2 ^ k) = Lt) by (apply Z.compare_lt_iff; lia).
    rewrite C. reflexivity.
  - destruct (2 * r ?= 2 ^ k); reflexivity.
Qed.

(** The first shift of [binary_round_aux] on an exact quantity. *)
Lemma shr_fexp_rne m e :
  0 <= m ->
  let e1 := Z.max e (fexp 53 1024 (Zdigits2 m + e)) in
  let mrs := fst (shr_fexp 53 1024 m e loc_Exact) in
  snd (shr_fexp 53 1024 m e loc_Exact) = e1 /\
  round_nearest_even (shr_m mrs) (loc_of_shr_record mrs) = rne m (e1 - e).
Proof.
  intros Hm e1 mrs.
  assert (S : shifted m (e1 - e) mrs /\ snd (shr_fexp 53 1024 m e loc_Exact) = e1).
  { unfold mrs, shr_fexp, shr. cbn [shr_record_of_loc].
    destruct (fexp 53 1024 (Zdigits2 m + e) - e) as [| p | p] eqn:E; cbn [fst snd].
    - replace (e1 - e) with 0 by lia. split; [apply shifted_start | lia].
    - replace (e1 - e) with (Z.pos p) by lia. split; [|lia].
      apply shifted_iter; [exact Hm | apply shifted_start].
    - replace (e1 - e) with 0 by lia. split; [apply shifted_start | lia]. }
  destruct S as [S E]. split; [exact E|].
  apply shifted_round; [lia | exact S].
Qed.


Lemma Zdigits2_bounds m :
  0 < m -> 2 ^ (Zdigits2 m - 1) <= m < 2 ^ Zdigits2 m.
Proof.
  intros H. destruct m as [| p | p]; try lia. apply digits2_pos_bounds.
Qed.

Lemma Zdigits2_pos m : 0 < m -> 0 < Zdigits2 m.
Proof. intros H. destruct m as [| p | p]; simpl; lia. Qed.

Lemma Zdigits2_ge m k : 0 < m -> 2 ^ (k - 1) <= m -> k <= Zdigits2 m.
Proof.
  intros Hm H. destruct (Zdigits2_bounds m Hm) as [_ U].
  destruct (Z_le_gt_dec k (Zdigits2 m)) as [G | G]; [exact G|].
  pose proof (Zdigits2_pos m Hm).
  assert (2 ^ Zdigits2 m <= 2 ^ (k - 1)) by (apply Z.pow_le_mono_r; lia).
  lia.
Qed.

Lemma scale_pos m e : 0 < m -> -2200 <= e -> 0 < scale m e.
Proof.
  intros Hm He. unfold scale. pose proof (pow2_pos (e + 2200) ltac:(lia)). nia.
Qed.

Lemma Zdigits2_scale m e :
  0 < m -> -2200 <= e -> Zdigits2 (scale m e) = Zdigits2 m + e + 2200.
Proof.
  intros Hm He. unfold scale. rewrite Zdigits2_shift by lia. lia.
Qed.

Lemma scale_bounds m e :
  0 < m -> -2200 <= e ->
  2 ^ (Zdigits2 m + e + 2200 - 1) <= scale m e < 2 ^ (Zdigits2 m + e + 2200).
Proof.
  intros Hm He. rewrite <- Zdigits2_scale by assumption.
  apply Zdigits2_bounds, scale_pos; assumption.
Qed.

Lemma rne_bounds v k : v / 2 ^ k <= rne v k <= v / 2 ^ k + 1.
Proof.
  unfold rne. destruct (_ ?= _); [destruct (Z.even _)| |]; lia.
Qed.

Lemma rne_scale v k j : 0 <= k -> 0 <= j -> rne (v * 2 ^ j) (k + j) = rne v k.
Proof.
  intros Hk Hj. unfold rne.
  pose proof (pow2_pos j Hj) as Pj. pose proof (pow2_pos k Hk) as Pk.
  rewrite pow2_split by assumption.
  rewrite Z.div_mul_cancel_r by lia.
  rewrite Z.mul_mod_distr_r by lia.
  replace (2 * (v mod 2 ^ k * 2 ^ j) ?= 2 ^ k * 2 ^ j)
    with (2 * (v mod 2 ^ k) ?= 2 ^ k); [reflexivity|].
  rewrite Z.mul_assoc. apply Zmult_compare_compat_r. lia.
Qed.

(** Rounding an aligned exact quantity, by its value. *)
Lemma round64_scale m e :
  0 < m -> -2200 <= e ->
  let e1 := fexp 53 1024 (Zdigits2 m + e) in
  e <= e1 -> round64 (scale m e) = scale (rne m (e1 - e)) e1.
Proof.
  intros Hm He e1 Ha. unfold round64.
  rewrite Zdigits2_scale by assumption.
  replace (Zdigits2 m + e + 2200 - 2200) with (Zdigits2 m + e) by lia.
  fold e1. unfold scale at 1.
  replace (e1 + 2200) with ((e1 - e) + (e + 2200)) at 1 by lia.
  rewrite rne_scale by lia. reflexivity.
Qed.

Lemma scale_lt_pow m e t :
  0 <= m < 2 ^ 53 -> -2200 <= e -> e + 2253 <= t -> scale m e < 2 ^ t.
Proof.
  intros Hm He Ht. unfold scale.
  pose proof (pow2_pos (e + 2200) ltac:(lia)) as P.
  apply Z.lt_le_trans with (2 ^ 53 * 2 ^ (e + 2200)); [nia|].
  rewrite <- pow2_split by lia. apply Z.pow_le_mono_r; lia.
Qed.

Lemma scale_ge_pow m e t :
  2 ^ 52 <= m -> -2200 <= e -> t <= e + 2252 -> 2 ^ t <= scale m e.
Proof.
  intros Hm He Ht. unfold scale.
  pose proof (pow2_pos (e + 2200) ltac:(lia)) as P.
  apply Z.le_trans with (2 ^ 52 * 2 ^ (e + 2200)); [|nia].
  rewrite <- pow2_split by lia. apply Z.pow_le_mono_r; lia.
Qed.

Lemma binary_round_aux_value m e :
  0 < m -> -2200 <= e -> e <= fexp 53 1024 (Zdigits2 m + e) ->
  let r := binary_round_aux 53 1024 false m e loc_Exact in
  SFnonneg r = true /\ SFvalue r = Z.min (round64 (scale m e)) top.
Proof.
  intros Hm He Ha r.
  split; [apply binary_round_aux_nonneg; lia|].
  rewrite round64_scale by assumption.
  set (e1 := fexp 53 1024 (Zdigits2 m + e)) in *.
  assert (He1 : -1074 <= e1 /\ Zdigits2 m + e - 53 <= e1
                /\ (e1 = -1074 \/ e1 = Zdigits2 m + e - 53))
    by (unfold e1, fexp, emin; lia).
  set (k := e1 - e).
  assert (Hk : 0 <= k) by (unfold k; lia).
  pose proof (pow2_pos k Hk) as Pk.
  destruct (Zdigits2_bounds m Hm) as [Lm Um].
  pose proof (Zdigits2_pos m Hm) as Dm.
  assert (Hq : 0 <= m / 2 ^ k < 2 ^ 53).
  { split; [apply Z.div_pos; lia|].
    apply Z.div_lt_upper_bound; [lia|].
    rewrite <- pow2_split by lia.
    apply Z.lt_le_trans with (1 := Um). apply Z.pow_le_mono_r; unfold k; lia. }
  pose proof (rne_bounds m k) as Hr.
  subst r. unfold binary_round_aux.
  destruct (shr_fexp_rne m e ltac:(lia)) as [E1 R1].
  destruct (shr_fexp 53 1024 m e loc_Exact) as [mrs' e1'].
  cbn [fst snd] in E1, R1.
  replace (Z.max e (fexp 53 1024 (Zdigits2 m + e))) with e1 in E1, R1
    by (unfold e1; lia).
  rewrite R1, E1. fold k.
  set (m2 := rne m k) in *.
  destruct (shr_fexp_value m2 e1 loc_Exact ltac:(lia)) as [E2 V2].
  destruct (shr_fexp 53 1024 m2 e1 loc_Exact) as [mrs'' e3].
  cbn [fst snd] in E2, V2. rewrite <- E2 in V2.
  assert (C : m2 = 0 \/ 0 < m2 < 2 ^ 53 \/ m2 = 2 ^ 53) by lia.
  destruct C as [C | [C | C]].
  - rewrite C in *. cbn [Zdigits2] in *.
    assert (X : e3 = e1) by (rewrite E2; unfold fexp, emin; lia).
    clear E2. subst e3.
    rewrite Z.sub_diag, Z.pow_0_r, Z.div_1_r in V2. rewrite V2.
    cbn [SFvalue]. unfold scale. rewrite Z.mul_0_l.
    pose proof top_pos. lia.
  - assert (D2 : Zdigits2 m2 <= 53) by (apply Zdigits2_le; lia).
    assert (X : e3 = e1) by (rewrite E2; unfold fexp, emin; lia).
    clear E2. subst e3.
    rewrite Z.sub_diag, Z.pow_0_r, Z.div_1_r in V2. rewrite V2.
    destruct m2 as [| p | p] eqn:Em2; try lia.
    destruct (Z.leb_spec e1 (1024 - 53)) as [G | G]; cbn [SFvalue].
    + pose proof (scale_lt_pow (Z.pos p) e1 3224 ltac:(lia) ltac:(lia) ltac:(lia)).
      fold top in H. lia.
    + assert (2 ^ 52 <= Z.pos p).
      { assert (Q : 2 ^ 52 <= m / 2 ^ k); [|lia].
        apply Z.div_le_lower_bound; [lia|].
        apply Z.le_trans with (2 := Lm).
        rewrite Z.mul_comm, <- pow2_split by lia.
        apply Z.pow_le_mono_r; unfold k; lia. }
      pose proof (scale_ge_pow (Z.pos p) e1 3224 ltac:(lia) ltac:(lia) ltac:(lia)).
      fold top in H0. lia.
  - assert (D2 : Zdigits2 m2 = 54) by (rewrite C; reflexivity).
    assert (X : e3 = e1 + 1) by (rewrite E2, D2; unfold fexp, emin; lia).
    clear E2. subst e3.
    replace (e1 + 1 - e1) with 1 in V2 by lia.
    assert (V3 : shr_m mrs'' = 2 ^ 52) by (rewrite V2, C; reflexivity).
    rewrite V3. change (2 ^ 52) with (Z.pos 4503599627370496).
    assert (S : scale m2 e1 = scale (2 ^ 52) (e1 + 1)).
    { rewrite C. unfold scale.
      replace (e1 + 1 + 2200) with (1 + (e1 + 2200)) by lia.
      rewrite (pow2_split 1 (e1 + 2200)) by lia.
      change (2 ^ 53) with (2 ^ 52 * 2 ^ 1). ring. }
    rewrite S.
    destruct (Z.leb_spec (e1 + 1) (1024 - 53)) as [G | G]; cbn [SFvalue].
    + pose proof (scale_lt_pow (2 ^ 52) (e1 + 1) 3224 ltac:(lia) ltac:(lia) ltac:(lia)).
      fold top in H. change (Z.pos 4503599627370496) with (2 ^ 52). lia.
    + pose proof (scale_ge_pow (2 ^ 52) (e1 + 1) 3224 ltac:(lia) ltac:(lia) ltac:(lia)).
      fold top in H. lia.
Qed.


(** ** Rounding is monotone and keeps what is representable *)

Lemma rne_mono v1 v2 k : 0 <= k -> v1 <= v2 -> rne v1 k <= rne v2 k.
Proof.
  intros Hk Hv. pose proof (pow2_pos k Hk) as P.
  assert (Q : v1 / 2 ^ k <= v2 / 2 ^ k) by (apply Z.div_le_mono; lia).
  pose proof (rne_bounds v1 k) as B1. pose proof (rne_bounds v2 k) as B2.
  destruct (Z.eq_dec (v1 / 2 ^ k) (v2 / 2 ^ k)) as [E | N]; [|lia].
  assert (R : v1 mod 2 ^ k <= v2 mod 2 ^ k).
  { pose proof (Z.div_mod v1 (2 ^ k) ltac:(lia)).
    pose proof (Z.div_mod v2 (2 ^ k) ltac:(lia)). nia. }
  unfold rne. rewrite E.
  destruct (Z.compare_spec (2 * (v1 mod 2 ^ k)) (2 ^ k));
    destruct (Z.compare_spec (2 * (v2 mod 2 ^ k)) (2 ^ k));
    try destruct (Z.even (v2 / 2 ^ k)); lia.
Qed.

Lemma rne_exact g k : 0 <= k -> rne (g * 2 ^ k) k = g.
Proof.
  intros Hk. pose proof (pow2_pos k Hk) as P. unfold rne.
  rewrite Z.div_mul, Z.mod_mul by lia.
  assert (C : (2 * 0 ?= 2 ^ k) = Lt) by (apply Z.compare_lt_iff; lia).
  rewrite C. reflexivity.
Qed.

Lemma rne_le_grid v g k : 0 <= k -> v <= g * 2 ^ k -> rne v k <= g.
Proof.
  intros Hk Hv. rewrite <- (rne_exact g k Hk). apply rne_mono; assumption.
Qed.

Lemma rne_ge_grid v g k : 0 <= k -> g * 2 ^ k <= v -> g <= rne v k.
Proof.
  intros Hk Hv. rewrite <- (rne_exact g k Hk) at 1. apply rne_mono; assumption.
Qed.

Lemma Zdigits2_mono a b : 0 <= a -> a <= b -> Zdigits2 a <= Zdigits2 b.
Proof.
  intros Ha Hab. destruct (Z.eq_dec a 0) as [-> | N].
  - destruct b; simpl; lia.
  - apply Zdigits2_ge; [lia|].
    destruct (Zdigits2_bounds a ltac:(lia)). lia.
Qed.

Lemma round64_exponent v :
  let n := fexp 53 1024 (Zdigits2 v - 2200) + 2200 in
  1126 <= n /\ Zdigits2 v - 53 <= n /\ (n = 1126 \/ n = Zdigits2 v - 53).
Proof. unfold fexp, emin. lia. Qed.

Lemma round64_mono v1 v2 : 0 <= v1 -> v1 <= v2 -> round64 v1 <= round64 v2.
Proof.
  intros H1 H12. unfold round64.
  pose proof (round64_exponent v1) as X1. pose proof (round64_exponent v2) as X2.
  cbv zeta in X1, X2.
  set (n1 := fexp 53 1024 (Zdigits2 v1 - 2200) + 2200) in *.
  set (n2 := fexp 53 1024 (Zdigits2 v2 - 2200) + 2200) in *.
  pose proof (Zdigits2_mono v1 v2 H1 H12) as D.
  assert (N : n1 <= n2) by (unfold n1, n2, fexp, emin; lia).
  destruct (Z.eq_dec n1 n2) as [E | NE].
  - rewrite E. pose proof (pow2_pos n2 ltac:(lia)).
    pose proof (rne_mono v1 v2 n2 ltac:(lia) H12). nia.
  - assert (E2 : n2 = Zdigits2 v2 - 53) by lia.
    assert (D12 : Zdigits2 v1 < Zdigits2 v2) by (unfold n1, n2, fexp, emin in *; lia).
    assert (P2 : 0 < v2).
    { destruct (Z.eq_dec v2 0) as [Z | Z]; [|lia].
      rewrite Z in D12. assert (v1 = 0) by lia. subst v1. simpl in D12. lia. }
    destruct (Zdigits2_bounds v2 P2) as [L2 _].
    assert (U1 : v1 <= 2 ^ (Zdigits2 v2 - 1)).
    { destruct (Z.eq_dec v1 0) as [-> | Z]; [apply Z.pow_nonneg; lia|].
      destruct (Zdigits2_bounds v1 ltac:(lia)) as [_ U].
      assert (2 ^ Zdigits2 v1 <= 2 ^ (Zdigits2 v2 - 1))
        by (apply Z.pow_le_mono_r; lia).
      lia. }
    set (t := Zdigits2 v2 - 1) in *.
    assert (G1 : 2 ^ t = 2 ^ (t - n1) * 2 ^ n1)
      by (rewrite <- pow2_split by lia; f_equal; lia).
    assert (G2 : 2 ^ t = 2 ^ (t - n2) * 2 ^ n2)
      by (rewrite <- pow2_split by lia; f_equal; lia).
    apply Z.le_trans with (2 ^ t).
    + rewrite G1 at 1. apply Z.mul_le_mono_nonneg_r; [apply Z.pow_nonneg; lia|].
      apply rne_le_grid; [lia|]. rewrite <- G1. exact U1.
    + rewrite G2 at 1. apply Z.mul_le_mono_nonneg_r; [apply Z.pow_nonneg; lia|].
      apply rne_ge_grid; [lia|]. rewrite <- G2. exact L2.
Qed.

(** A value with at most 53 significant bits above the least exponent
    is kept. *)
Lemma round64_scale_exact m e :
  0 < m -> e = fexp 53 1024 (Zdigits2 m + e) ->
  round64 (scale m e) = scale m e.
Proof.
  intros Hm He.
  assert (-1074 <= e) by (rewrite He; unfold fexp, emin; lia).
  rewrite round64_scale by lia. cbv zeta. rewrite <- He.
  rewrite Z.sub_diag. f_equal.
  unfold rne. rewrite Z.pow_0_r, Z.div_1_r, Z.mod_1_r. reflexivity.
Qed.

Lemma round64_zero : round64 0 = 0.
Proof. reflexivity. Qed.

(** A whole multiple of [2^t] with at most 53 bits, or 2^53 times it, is
    representable. *)
Lemma round64_fixed j t :
  0 <= j <= 2 ^ 53 -> 1126 <= t -> round64 (j * 2 ^ t) = j * 2 ^ t.
Proof.
  intros Hj Ht. destruct (Z.eq_dec j 0) as [-> | N];
    [rewrite Z.mul_0_l; reflexivity|].
  assert (P : 0 < 2 ^ t) by (apply Z.pow_pos_nonneg; lia).
  assert (D : Zdigits2 (j * 2 ^ t) = Zdigits2 j + t)
    by (apply Zdigits2_shift; lia).
  unfold round64. rewrite D.
  set (n := fexp 53 1024 (Zdigits2 j + t - 2200) + 2200).
  assert (G : exists g, j * 2 ^ t = g * 2 ^ n /\ 0 <= n).
  { destruct (Z_lt_ge_dec j (2 ^ 53)) as [L | L].
    - assert (Zdigits2 j <= 53) by (apply Zdigits2_le; lia).
      assert (1126 <= n <= t) by (unfold n, fexp, emin; lia).
      exists (j * 2 ^ (t - n)). split; [|lia].
      rewrite <- Z.mul_assoc, <- Z.pow_add_r by lia. f_equal. f_equal. lia.
    - assert (E : j = 2 ^ 53) by lia.
      assert (Zdigits2 j = 54) by (rewrite E; reflexivity).
      assert (n = t + 1) by (unfold n, fexp, emin; lia).
      exists (2 ^ 52). split; [|lia].
      rewrite E. replace n with (1 + t) by lia.
      rewrite (Z.pow_add_r 2 1 t) by lia.
      change (2 ^ 53) with (2 ^ 52 * 2 ^ 1). ring. }
  destruct G as (g & Hg & Hn).
  rewrite Hg at 1. rewrite rne_exact by exact Hn. symmetry. exact Hg.
Qed.

Lemma round64_top : round64 top = top.
Proof.
  unfold top.
  replace (2 ^ 3224) with (2 ^ 52 * 2 ^ 3172)
    by (rewrite <- Z.pow_add_r by lia; f_equal).
  apply round64_fixed; [|lia].
  split; [apply Z.pow_nonneg; lia | apply Z.pow_le_mono_r; lia].
Qed.

(** ** Valid numbers: value and order *)

Lemma bounded_facts m e :
  bounded 53 1024 m e = true ->
  -1074 <= e <= 971 /\ e = fexp 53 1024 (Zdigits2 (Z.pos m) + e) /\
  Z.pos m < 2 ^ 53 /\ (-1074 < e -> 2 ^ 52 <= Z.pos m).
Proof.
  unfold bounded, canonical_mantissa. intros H.
  apply andb_true_iff in H. destruct H as [C B].
  apply Z.eqb_eq in C. apply Z.leb_le in B. cbn [Zdigits2].
  pose proof (digits2_pos_bounds m) as [L U].
  assert (F : -1074 <= e /\ Z.pos (digits2_pos m) <= 53
              /\ (-1074 < e -> Z.pos (digits2_pos m) = 53))
    by (unfold fexp, emin in C; lia).
  split; [lia|]. split; [symmetry; exact C|]. split.
  - apply Z.lt_le_trans with (1 := U). apply Z.pow_le_mono_r; lia.
  - intros G. destruct F as (_ & _ & F). rewrite (F G) in L. exact L.
Qed.

Lemma SFvalue_nonneg x : 0 <= SFvalue x.
Proof.
  destruct x as [s | [] | | [] m e]; cbn [SFvalue]; try lia.
  - unfold top. apply Z.pow_nonneg. lia.
  - unfold scale. apply Z.mul_nonneg_nonneg; [lia | apply Z.pow_nonneg; lia].
Qed.

Lemma SFvalue_finite m e :
  bounded 53 1024 m e = true ->
  0 < scale (Z.pos m) e < top.
Proof.
  intros V. destruct (bounded_facts m e V) as (B & _ & U & _).
  split; [apply scale_pos; lia|].
  apply scale_lt_pow; lia.
Qed.

Lemma SFvalue_le_top x : valid_binary x = true -> SFvalue x <= top.
Proof.
  destruct x as [s | [] | | [] m e]; cbn [SFvalue valid_binary];
    pose proof top_pos; try lia.
  intros V. pose proof (SFvalue_finite m e V). lia.
Qed.

Lemma scale_compare m1 e1 m2 e2 :
  bounded 53 1024 m1 e1 = true -> bounded 53 1024 m2 e2 = true ->
  match e1 ?= e2 with
  | Lt => Lt
  | Gt => Gt
  | Eq => Pos.compare_cont Eq m1 m2
  end = (scale (Z.pos m1) e1 ?= scale (Z.pos m2) e2).
Proof.
  intros V1 V2.
  destruct (bounded_facts m1 e1 V1) as (B1 & _ & U1 & L1).
  destruct (bounded_facts m2 e2 V2) as (B2 & _ & U2 & L2).
  symmetry.
  destruct (Z.compare_spec e1 e2) as [E | E | E].
  - subst e2. unfold scale.
    pose proof (pow2_pos (e1 + 2200) ltac:(lia)) as P.
    change (Pos.compare_cont Eq m1 m2) with (Z.pos m1 ?= Z.pos m2).
    destruct (Z.compare_spec (Z.pos m1) (Z.pos m2)) as [C | C | C].
    + rewrite C. apply Z.compare_refl.
    + apply Z.compare_lt_iff. nia.
    + apply Z.compare_gt_iff. nia.
  - apply Z.compare_lt_iff.
    apply Z.lt_le_trans with (2 ^ (e1 + 2253)).
    + apply scale_lt_pow; lia.
    + apply scale_ge_pow; lia.
  - apply Z.compare_gt_iff.
    apply Z.lt_le_trans with (2 ^ (e2 + 2253)).
    + apply scale_lt_pow; lia.
    + apply scale_ge_pow; lia.
Qed.

Lemma SFcompare_value x y :
  valid_binary x = true -> valid_binary y = true ->
  SFnonneg x = true -> SFnonneg y = true ->
  SFcompare x y = Some (SFvalue x ?= SFvalue y).
Proof.
  intros Vx Vy Nx Ny.
  destruct x as [[] | [] | | [] mx ex]; try discriminate;
    destruct y as [[] | [] | | [] my ey]; try discriminate;
    cbn [SFcompare SFvalue valid_binary] in *; f_equal; symmetry;
    pose proof top_pos as T.
  all: try (symmetry; apply scale_compare; assumption).
  all: try pose proof (SFvalue_finite _ _ Vx) as Fx;
    try pose proof (SFvalue_finite _ _ Vy) as Fy;
    first [ apply Z.compare_refl
          | apply Z.compare_lt_iff; lia
          | apply Z.compare_gt_iff; lia ].
Qed.

Lemma SFvalue_inj x y :
  valid_binary x = true -> valid_binary y = true ->
  SFnonneg x = true -> SFnonneg y = true ->
  SFvalue x = SFvalue y -> x = y.
Proof.
  intros Vx Vy Nx Ny E.
  pose proof (SFcompare_value x y Vx Vy Nx Ny) as C.
  rewrite E, Z.compare_refl in C.
  destruct x as [[] | [] | | [] mx ex]; try discriminate Nx;
    destruct y as [[] | [] | | [] my ey]; try discriminate Ny;
    cbn [SFcompare] in C; try discriminate C; try reflexivity.
  destruct (Z.compare_spec ex ey) as [Q | Q | Q]; try discriminate.
  injection C as C. apply Pos.compare_eq in C. congruence.
Qed.


(** ** Values of sums and products *)

Lemma binary_round_value p e :
  -2200 <= e ->
  let r := binary_round 53 1024 false p e in
  SFnonneg r = true /\ SFvalue r = Z.min (round64 (scale (Z.pos p) e)) top.
Proof.
  intros He r. subst r. unfold binary_round.
  set (e' := fexp 53 1024 (Z.pos (digits2_pos p) + e)).
  destruct (shl_align_value p e e') as [E0 V0].
  destruct (shl_align p e e') as [mz ez]. cbn [fst snd] in E0, V0.
  assert (He' : -1074 <= e') by (unfold e', fexp, emin; lia).
  assert (D : Zdigits2 (Z.pos mz) + ez = Z.pos (digits2_pos p) + e).
  { rewrite V0, Zdigits2_shift by lia. cbn [Zdigits2]. lia. }
  assert (S : scale (Z.pos mz) ez = scale (Z.pos p) e).
  { unfold scale. rewrite V0, <- Z.mul_assoc, <- pow2_split by lia.
    f_equal. f_equal. lia. }
  rewrite <- S. apply binary_round_aux_value; try lia.
  rewrite D. fold e'. lia.
Qed.

Lemma binary_normalize_value z e :
  0 <= z -> -2200 <= e ->
  let r := binary_normalize 53 1024 z e false in
  SFnonneg r = true /\ SFvalue r = Z.min (round64 (scale z e)) top.
Proof.
  intros Hz He. destruct z as [| p | p]; try lia; cbn [binary_normalize].
  - split; [reflexivity|]. unfold scale. rewrite Z.mul_0_l, round64_zero.
    reflexivity.
  - apply binary_round_value, He.
Qed.

Lemma mul_shuffle a p b q r w :
  p * q = r * w -> a * p * (b * q) = a * b * r * w.
Proof.
  intros H. replace (a * p * (b * q)) with (a * b * (p * q)) by ring.
  rewrite H. ring.
Qed.

Lemma scale_mul a ea b eb :
  -2200 <= ea + eb -> -2200 <= ea -> -2200 <= eb ->
  scale a ea * scale b eb = scale (a * b) (ea + eb) * whole.
Proof.
  intros H Ha Hb. unfold scale, whole. apply mul_shuffle.
  rewrite <- !Z.pow_add_r by lia. f_equal. lia.
Qed.

Lemma product_aligned mx ex my ey :
  bounded 53 1024 mx ex = true -> bounded 53 1024 my ey = true ->
  ex + ey <= fexp 53 1024 (Zdigits2 (Z.pos mx * Z.pos my) + (ex + ey)).
Proof.
  intros Vx Vy.
  destruct (bounded_facts mx ex Vx) as (Bx & _ & Ux & Lx).
  destruct (bounded_facts my ey Vy) as (By & _ & Uy & Ly).
  destruct (Z_le_gt_dec (ex + ey) (-1074)) as [G | G];
    [unfold fexp, emin; lia|].
  assert (D : 53 <= Zdigits2 (Z.pos mx * Z.pos my)).
  { apply Zdigits2_ge; [lia|]. change (2 ^ (53 - 1)) with (2 ^ 52).
    assert (0 < 2 ^ 52) by reflexivity.
    destruct (Z_le_gt_dec ex (-1074)).
    - specialize (Ly ltac:(lia)). nia.
    - specialize (Lx ltac:(lia)). nia. }
  unfold fexp, emin. lia.
Qed.

Lemma SFmul_value x y :
  valid_binary x = true -> valid_binary y = true ->
  SFnonneg x = true -> SFnonneg y = true ->
  SFfinite x = true -> SFfinite y = true ->
  SFnonneg (SFmul 53 1024 x y) = true /\
  SFvalue (SFmul 53 1024 x y)
  = Z.min (round64 (SFvalue x * SFvalue y / whole)) top.
Proof.
  intros Vx Vy Nx Ny Fx Fy.
  destruct x as [[] | [] | | [] mx ex]; try discriminate;
    destruct y as [[] | [] | | [] my ey]; try discriminate;
    cbn [SFmul SFvalue xorb valid_binary] in *.
  - split; reflexivity.
  - split; reflexivity.
  - split; [reflexivity|]. rewrite Z.mul_0_r. reflexivity.
  - destruct (bounded_facts mx ex Vx) as (Bx & _).
    destruct (bounded_facts my ey Vy) as (By & _).
    rewrite scale_mul by lia.
    rewrite Z.div_mul by (pose proof whole_pos; lia).
    rewrite Pos2Z.inj_mul.
    apply binary_round_aux_value; [lia | lia |].
    apply product_aligned; assumption.
Qed.

Lemma SFadd_value x y :
  valid_binary x = true -> valid_binary y = true ->
  SFnonneg x = true -> SFnonneg y = true ->
  SFnonneg (SFadd 53 1024 x y) = true /\
  SFvalue (SFadd 53 1024 x y) = Z.min (round64 (SFvalue x + SFvalue y)) top.
Proof.
  intros Vx Vy Nx Ny.
  assert (I : forall v, 0 <= v -> top = Z.min (round64 (top + v)) top).
  { intros v Hv. pose proof top_pos as T.
    pose proof (round64_mono top (top + v) ltac:(lia) ltac:(lia)) as M.
    rewrite round64_top in M. lia. }
  assert (F : forall m e, bounded 53 1024 m e = true ->
                scale (Z.pos m) e = Z.min (round64 (scale (Z.pos m) e)) top).
  { intros m e V. destruct (bounded_facts m e V) as (B & C & _).
    rewrite round64_scale_exact by (assumption || lia).
    pose proof (SFvalue_finite m e V). lia. }
  destruct x as [[] | [] | | [] mx ex]; try discriminate;
    destruct y as [[] | [] | | [] my ey]; try discriminate;
    cbn [SFadd SFvalue valid_binary] in *.
  - split; reflexivity.
  - split; [reflexivity|]. rewrite Z.add_0_l, round64_top. pose proof top_pos. lia.
  - split; [reflexivity|]. rewrite Z.add_0_l. apply F, Vy.
  - split; [reflexivity|]. rewrite Z.add_0_r, round64_top. pose proof top_pos. lia.
  - split; [reflexivity|]. apply I. pose proof top_pos. lia.
  - split; [reflexivity|]. apply I.
    pose proof (SFvalue_finite my ey Vy). lia.
  - split; [reflexivity|]. rewrite Z.add_0_r. apply F, Vx.
  - split; [reflexivity|]. rewrite Z.add_comm. apply I.
    pose proof (SFvalue_finite mx ex Vx). lia.
  - destruct (bounded_facts mx ex Vx) as (Bx & _).
    destruct (bounded_facts my ey Vy) as (By & _).
    cbn [cond_Zopp].
    set (ez := Z.min ex ey).
    destruct (shl_align_value mx ex ez) as [_ Wx].
    destruct (shl_align_value my ey ez) as [_ Wy].
    replace (Z.min ex ez) with ez in Wx by lia.
    replace (Z.min ey ez) with ez in Wy by lia.
    assert (S : scale (Z.pos mx) ex + scale (Z.pos my) ey
                = scale (Z.pos (fst (shl_align mx ex ez))
                         + Z.pos (fst (shl_align my ey ez))) ez).
    { rewrite Wx, Wy. unfold scale.
      rewrite Z.mul_add_distr_r, <- !Z.mul_assoc, <- !pow2_split by lia.
      f_equal; f_equal; f_equal; lia. }
    rewrite S. apply binary_normalize_value; lia.
Qed.

End Value.

(** * JavaScript numbers by value *)

Lemma value_nonneg x : (0 <= value x)%Z.
Proof. apply SFvalue_nonneg. Qed.

Lemma value_le_top x : (value x <= top)%Z.
Proof. apply SFvalue_le_top, Prim2SF_valid. Qed.

Lemma nonneg_cases x :
  nonneg x = true -> finite x = true \/ Prim2SF x = S754_infinity false.
Proof.
  unfold nonneg, finite.
  destruct (Prim2SF x) as [[] | [] | | [] m e]; simpl; auto; discriminate.
Qed.

Lemma value_finite x : finite x = true -> (value x < top)%Z.
Proof.
  unfold finite, value. pose proof (Prim2SF_valid x) as V.
  destruct (Prim2SF x) as [s | s | | [] m e]; cbn [SFfinite SFvalue];
    try discriminate; pose proof top_pos as T; try lia.
  intros _. apply SFvalue_finite, V.
Qed.

Lemma value_infinite x : nonneg x = true -> value x = top -> finite x = false.
Proof.
  intros N E. destruct (finite x) eqn:F; [|reflexivity].
  pose proof (value_finite x F). lia.
Qed.

Lemma compare_value x y :
  nonneg x = true -> nonneg y = true ->
  SFcompare (Prim2SF x) (Prim2SF y) = Some (value x ?= value y)%Z.
Proof.
  intros Nx Ny. apply SFcompare_value; auto using Prim2SF_valid.
Qed.

Lemma leb_value x y :
  nonneg x = true -> nonneg y = true -> (x <=? y) = (value x <=? value y)%Z.
Proof.
  intros Nx Ny. rewrite FloatAxioms.leb_spec. unfold SFleb.
  rewrite (compare_value x y Nx Ny). unfold Z.leb.
  destruct (value x ?= value y)%Z; reflexivity.
Qed.

Lemma ltb_value x y :
  nonneg x = true -> nonneg y = true -> (x <? y) = (value x <? value y)%Z.
Proof.
  intros Nx Ny. rewrite FloatAxioms.ltb_spec. unfold SFltb.
  rewrite (compare_value x y Nx Ny). unfold Z.ltb.
  destruct (value x ?= value y)%Z; reflexivity.
Qed.

Lemma leb_of_value x y :
  nonneg x = true -> nonneg y = true -> (value x <= value y)%Z ->
  (x <=? y) = true.
Proof.
  intros Nx Ny H. rewrite leb_value by assumption. apply Z.leb_le, H.
Qed.

Lemma value_of_leb x y :
  nonneg x = true -> nonneg y = true -> (x <=? y) = true ->
  (value x <= value y)%Z.
Proof.
  intros Nx Ny H. rewrite leb_value in H by assumption. apply Z.leb_le, H.
Qed.

Lemma value_inj x y :
  nonneg x = true -> nonneg y = true -> value x = value y -> x = y.
Proof.
  intros Nx Ny E. apply Prim2SF_inj.
  apply SFvalue_inj; auto using Prim2SF_valid.
Qed.

Lemma value_add x y :
  nonneg x = true -> nonneg y = true ->
  nonneg (x + y) = true /\
  value (x + y) = Z.min (round64 (value x + value y)) top.
Proof.
  intros Nx Ny. unfold nonneg, value. rewrite FloatAxioms.add_spec.
  apply SFadd_value; auto using Prim2SF_valid.
Qed.

Lemma value_mul x y :
  nonneg x = true -> nonneg y = true -> finite x = true -> finite y = true ->
  nonneg (x * y) = true /\
  value (x * y) = Z.min (round64 (value x * value y / whole)) top.
Proof.
  intros Nx Ny Fx Fy. unfold nonneg, value. rewrite FloatAxioms.mul_spec.
  apply SFmul_value; auto using Prim2SF_valid.
Qed.

Lemma positive_facts c :
  SFpositive (Prim2SF c) = true ->
  nonneg c = true /\ finite c = true /\ (0 < value c)%Z.
Proof.
  unfold nonneg, finite, value. pose proof (Prim2SF_valid c) as V.
  destruct (Prim2SF c) as [s | s | | [] m e]; try discriminate.
  intros _. repeat split. apply SFvalue_finite, V.
Qed.

Lemma mul_infinity x c :
  Prim2SF x = S754_infinity false -> SFpositive (Prim2SF c) = true ->
  Prim2SF (x * c) = S754_infinity false.
Proof.
  intros E P. rewrite FloatAxioms.mul_spec, E.
  destruct (Prim2SF c) as [s | s | | [] m e]; try discriminate. reflexivity.
Qed.

Lemma min_round_mono u v :
  (0 <= u)%Z -> (u <= v)%Z ->
  (Z.min (round64 u) top <= Z.min (round64 v) top)%Z.
Proof.
  intros H0 H. pose proof (round64_mono u v H0 H). lia.
Qed.

(** Sums and products of non-negative numbers are monotone. *)
Lemma add_mono a b c d :
  nonneg a = true -> nonneg b = true -> nonneg c = true -> nonneg d = true ->
  (value a <= value b)%Z -> (value c <= value d)%Z ->
  (value (a + c)%float <= value (b + d)%float)%Z.
Proof.
  intros Na Nb Nc Nd H1 H2.
  destruct (value_add a c Na Nc) as [_ ->].
  destruct (value_add b d Nb Nd) as [_ ->].
  pose proof (value_nonneg a). pose proof (value_nonneg c).
  apply min_round_mono; lia.
Qed.

Lemma mul_mono a b c d :
  nonneg a = true -> nonneg b = true ->
  SFpositive (Prim2SF c) = true -> SFpositive (Prim2SF d) = true ->
  (value a <= value b)%Z -> (value c <= value d)%Z ->
  (value (a * c)%float <= value (b * d)%float)%Z.
Proof.
  intros Na Nb Pc Pd H1 H2.
  destruct (positive_facts c Pc) as (Nc & Fc & Vc).
  destruct (positive_facts d Pd) as (Nd & Fd & Vd).
  destruct (nonneg_cases b Nb) as [Fb | Ib].
  - assert (Fa : finite a = true).
    { destruct (nonneg_cases a Na) as [Fa | Ia]; [exact Fa|].
      pose proof (value_finite b Fb). unfold value in H1 at 1.
      rewrite Ia in H1. cbn [SFvalue] in H1. lia. }
    destruct (value_mul a c Na Nc Fa Fc) as [_ ->].
    destruct (value_mul b d Nb Nd Fb Fd) as [_ ->].
    pose proof (value_nonneg a).
    pose proof whole_pos as W.
    apply min_round_mono.
    + apply Z.div_pos; [nia | exact W].
    + apply Z.div_le_mono; [exact W | nia].
  - unfold value at 2. rewrite (mul_infinity b d Ib Pd). cbn [SFvalue].
    apply value_le_top.
Qed.

(** ** Whole numbers, [Math.ceil], [Math.max] and halving *)

Lemma scale_whole z : scale z 0 = (z * whole)%Z.
Proof. reflexivity. Qed.

Lemma small_below_top j : (0 <= j <= 2 ^ 53)%Z -> (j * whole < top)%Z.
Proof.
  intros H. pose proof whole_pos as W. rewrite top_whole.
  apply Z.mul_lt_mono_pos_r; [exact W|].
  apply Z.le_lt_trans with (2 ^ 53)%Z; [lia|].
  apply Z.pow_lt_mono_r; lia.
Qed.

Lemma value_of_Z z :
  (0 <= z <= 2 ^ 53)%Z ->
  nonneg (of_Z z) = true /\ value (of_Z z) = (z * whole)%Z.
Proof.
  intros Hz. split; [apply of_Z_nonneg|].
  unfold value, of_Z. rewrite of_uint63_spec, Uint63.of_Z_spec.
  rewrite Z.mod_small
    by (split; [lia|]; apply Z.le_lt_trans with (2 ^ 53)%Z; [lia | reflexivity]).
  destruct (binary_normalize_value z 0 ltac:(lia) ltac:(lia)) as [_ V].
  change (binary_normalize prec emax z 0 false)
    with (binary_normalize 53 1024 z 0 false).
  rewrite V, scale_whole. unfold whole at 1.
  rewrite round64_fixed by lia. fold whole.
  pose proof (small_below_top z Hz). lia.
Qed.

Lemma round64_value x :
  nonneg x = true -> round64 (value x) = value x.
Proof.
  unfold nonneg, value. pose proof (Prim2SF_valid x) as V.
  destruct (Prim2SF x) as [[] | [] | | [] m e]; try discriminate; intros _;
    cbn [SFvalue].
  - reflexivity.
  - apply round64_top.
  - destruct (bounded_facts m e V) as (_ & C & _).
    apply round64_scale_exact; [lia | exact C].
Qed.

Lemma ceil_multiple g : ((g * whole + whole - 1) / whole * whole = g * whole)%Z.
Proof.
  pose proof whole_pos as W.
  replace (g * whole + whole - 1)%Z with (g * whole + (whole - 1))%Z by lia.
  rewrite Z.div_add_l by lia. rewrite (Z.div_small (whole - 1)) by lia.
  f_equal. lia.
Qed.

Lemma value_Math_ceil x :
  nonneg x = true ->
  nonneg (Math_ceil x) = true /\
  value (Math_ceil x) = ((value x + whole - 1) / whole * whole)%Z.
Proof.
  intros N. split; [apply Math_ceil_nonneg, N|].
  pose proof (Prim2SF_valid x) as V.
  unfold Math_ceil, value, nonneg in *.
  destruct (Prim2SF x) as [[] | [] | | [] m e] eqn:E; try discriminate;
    try rewrite E; cbn [SFvalue].
  - symmetry. apply (ceil_multiple 0).
  - rewrite top_whole. symmetry. apply ceil_multiple.
  - destruct (bounded_facts m e V) as (B & _ & U & _).
    destruct (Z.leb_spec 0 e) as [G | G].
    + rewrite E. cbn [SFvalue].
      assert (S : scale (Z.pos m) e = (Z.pos m * 2 ^ e * whole)%Z).
      { unfold scale, whole. rewrite Z.pow_add_r by lia. apply Z.mul_assoc. }
      rewrite S. symmetry. apply ceil_multiple.
    + set (d := (2 ^ (- e))%Z).
      set (w := (2 ^ (e + 2200))%Z).
      assert (Pd : (2 <= d)%Z).
      { unfold d. change 2%Z with (2 ^ 1)%Z at 1. apply Z.pow_le_mono_r; lia. }
      assert (Pw : (0 < w)%Z) by (apply Z.pow_pos_nonneg; lia).
      assert (W : whole = (d * w)%Z).
      { unfold whole, d, w. rewrite <- Z.pow_add_r by lia. f_equal. lia. }
      pose proof (Z.div_mod (Z.pos m) d ltac:(lia)) as DM.
      pose proof (Z.mod_pos_bound (Z.pos m) d ltac:(lia)) as RB.
      set (q := (Z.pos m / d)%Z) in *. set (r := (Z.pos m mod d)%Z) in *.
      assert (Q : (0 <= q < 2 ^ 52)%Z).
      { change (2 ^ 53)%Z with (2 * 2 ^ 52)%Z in U.
        assert (0 < 2 ^ 52)%Z by reflexivity. split; nia. }
      assert (Q' : (2 ^ 52 + 1 <= 2 ^ 53)%Z) by (vm_compute; discriminate).
      assert (V' : value (of_Z (if (r =? 0)%Z then q else (q + 1)%Z))
                   = ((if (r =? 0)%Z then q else (q + 1)%Z) * whole)%Z).
      { apply value_of_Z. destruct (r =? 0)%Z; lia. }
      unfold value in V'. rewrite V'. f_equal.
      unfold scale. fold w. rewrite W. clear V'. clearbody d w q r.
      destruct (Z.eqb_spec r 0) as [R0 | R0].
      * apply Z.div_unique with (d * w - 1)%Z; nia.
      * apply Z.div_unique with (r * w - 1)%Z; nia.
Qed.

Lemma value_Math_max a b :
  nonneg a = true -> nonneg b = true ->
  nonneg (Math_max a b) = true /\
  value (Math_max a b) = Z.max (value a) (value b).
Proof.
  intros Na Nb. unfold Math_max.
  rewrite (nonneg_not_nan a Na), (nonneg_not_nan b Nb). cbn [orb].
  rewrite !ltb_value by assumption.
  destruct (Z.ltb_spec (value a) (value b)); [split; [exact Nb | lia]|].
  destruct (Z.ltb_spec (value b) (value a)); [split; [exact Na | lia]|].
  rewrite (get_sign_nonneg a Na). split; [exact Na | lia].
Qed.

Lemma whole_exponent m e :
  bounded 53 1024 m e = true -> (whole <= scale (Z.pos m) e)%Z ->
  (-53 < e)%Z.
Proof.
  intros V H. destruct (bounded_facts m e V) as (B & _ & U & _).
  destruct (Z_lt_ge_dec (-53) e) as [G | G]; [exact G|].
  exfalso. apply (Z.lt_irrefl whole).
  apply Z.le_lt_trans with (1 := H). unfold whole.
  apply scale_lt_pow; lia.
Qed.

(** Halving zero or a number that is at least 1 is exact. *)
Lemma value_div_two x :
  nonneg x = true -> finite x = true ->
  (value x = 0 \/ whole <= value x)%Z ->
  nonneg (x / 2) = true /\ (2 * value (x / 2)%float = value x)%Z.
Proof.
  intros N F H. split; [apply nonneg_div; [exact N | reflexivity]|].
  pose proof (Prim2SF_valid x) as V.
  unfold value, nonneg, finite in *. rewrite FloatAxioms.div_spec.
  change (Prim2SF 2) with (S754_finite false 4503599627370496 (-51)).
  destruct (Prim2SF x) as [[] | [] | | [] m e]; try discriminate.
  - reflexivity.
  - cbn [SFvalue] in H.
    destruct (bounded_facts m e V) as (B & C & U & L).
    assert (E : (-1073 <= e)%Z).
    { destruct H as [H | H].
      - pose proof (SFvalue_finite m e V). lia.
      - pose proof (whole_exponent m e V H). lia. }
    clear H.
    specialize (L ltac:(lia)).
    assert (D : Zdigits2 (Z.pos m) = 53%Z).
    { apply Zdigits2_unique; [lia|]. change (2 ^ (53 - 1))%Z with (2 ^ 52)%Z. lia. }
    unfold SF64div. cbn [SFdiv xorb]. unfold SFdiv_core_binary.
    rewrite D. change (Zdigits2 (Z.pos 4503599627370496)) with 53%Z.
    set (e' := Z.min (fexp prec emax (53 + e - (53 + -51))) (e - -51)).
    assert (He' : (-1074 <= e' /\ e' <= e - 1)%Z)
      by (unfold e', fexp, SpecFloat.emin; change prec with 53%Z;
          change emax with 1024%Z; lia).
    set (m' := match (e - -51 - e')%Z with
               | Z0 => Z.pos m
               | Z.pos _ => Z.shiftl (Z.pos m) (e - -51 - e')
               | Z.neg _ => 0%Z
               end).
    assert (Hm' : m' = (Z.pos m * 2 ^ (e - 1 - e') * 2 ^ 52)%Z).
    { subst m'. destruct (e - -51 - e')%Z as [| p | p] eqn:Q; try lia.
      rewrite Z.shiftl_mul_pow2 by lia. rewrite <- Q.
      rewrite <- Z.mul_assoc, <- Z.pow_add_r by lia. f_equal. f_equal. lia. }
    clearbody m' e'.
    assert (Hq : Z.div_eucl m' (Z.pos 4503599627370496)
                 = ((Z.pos m * 2 ^ (e - 1 - e'))%Z, 0%Z)).
    { change (Z.pos 4503599627370496) with (2 ^ 52)%Z.
      pose proof (Z.div_eucl_eq m' (2 ^ 52)%Z ltac:(lia)) as Q.
      pose proof (Z.mod_pos_bound m' (2 ^ 52)%Z ltac:(lia)) as R.
      unfold Z.modulo in R.
      destruct (Z.div_eucl m' (2 ^ 52)) as [q r].
      assert (0 < 2 ^ 52)%Z by lia.
      assert (q = Z.pos m * 2 ^ (e - 1 - e'))%Z by nia.
      f_equal; nia. }
    rewrite Hq. change (new_location (Z.pos 4503599627370496) 0) with loc_Exact.
    assert (Ps : (0 < 2 ^ (e - 1 - e'))%Z) by (apply Z.pow_pos_nonneg; lia).
    assert (Dq : Zdigits2 (Z.pos m * 2 ^ (e - 1 - e')) = (53 + (e - 1 - e'))%Z).
    { rewrite Zdigits2_shift by lia. lia. }
    destruct (binary_round_aux_value (Z.pos m * 2 ^ (e - 1 - e')) e')%Z
      as [_ R]; try lia.
    { rewrite Dq. unfold fexp, SpecFloat.emin. lia. }
    change (binary_round_aux prec emax) with (binary_round_aux 53 1024).
    rewrite R.
    assert (S : scale (Z.pos m * 2 ^ (e - 1 - e')) e' = scale (Z.pos m) (e - 1)).
    { unfold scale. rewrite <- Z.mul_assoc, <- Z.pow_add_r by lia.
      f_equal. f_equal. lia. }
    rewrite S, round64_scale_exact;
      [| lia | rewrite D; unfold fexp, SpecFloat.emin; lia].
    assert (T : (2 * scale (Z.pos m) (e - 1) = scale (Z.pos m) e)%Z).
    { unfold scale. replace (e + 2200)%Z with (1 + (e - 1 + 2200))%Z by lia.
      rewrite (Z.pow_add_r 2 1) by lia. change (2 ^ 1)%Z with 2%Z. ring. }
    pose proof (SFvalue_finite m e V). cbn [SFvalue]. lia.
Qed.

(** A representable value stays representable when doubled. *)
Lemma round64_double v :
  (0 <= v)%Z -> round64 v = v -> round64 (2 * v) = (2 * v)%Z.
Proof.
  intros Hv E. destruct (Z.eq_dec v 0) as [-> | N]; [reflexivity|].
  assert (D : Zdigits2 (2 * v) = (Zdigits2 v + 1)%Z).
  { replace (2 * v)%Z with (v * 2 ^ 1)%Z by (change (2 ^ 1)%Z with 2%Z; ring).
    apply Zdigits2_shift; lia. }
  pose proof (round64_exponent v) as X1.
  pose proof (round64_exponent (2 * v)) as X2. cbv zeta in X1, X2.
  unfold round64 in *.
  set (n1 := (fexp 53 1024 (Zdigits2 v - 2200) + 2200)%Z) in *.
  set (n2 := (fexp 53 1024 (Zdigits2 (2 * v) - 2200) + 2200)%Z) in *.
  assert (N12 : (n1 <= n2 <= n1 + 1)%Z) by lia.
  assert (P1 : (0 < 2 ^ n1)%Z) by (apply Z.pow_pos_nonneg; lia).
  assert (G : exists g, (2 * v = g * 2 ^ n2)%Z).
  { destruct (Z.eq_dec n2 n1) as [Q | Q].
    - exists (2 * rne v n1)%Z. rewrite Q. lia.
    - exists (rne v n1). replace n2 with (1 + n1)%Z by lia.
      rewrite (Z.pow_add_r 2 1) by lia. change (2 ^ 1)%Z with 2%Z. lia. }
  destruct G as (g & Hg). rewrite Hg at 1.
  rewrite rne_exact by lia. symmetry. exact Hg.
Qed.

Lemma scale_pow2 a e :
  (0 <= a)%Z -> (-2200 <= e)%Z -> scale (2 ^ a) e = (2 ^ (a + (e + 2200)))%Z.
Proof. intros Ha He. unfold scale. symmetry. apply Z.pow_add_r; lia. Qed.

Lemma whole_pow2 a : (0 <= a)%Z -> (2 ^ a * whole = 2 ^ (a + 2200))%Z.
Proof. intros Ha. unfold whole. symmetry. apply Z.pow_add_r; lia. Qed.

Lemma value_two : value 2 = (2 * whole)%Z.
Proof.
  unfold value. change (Prim2SF 2) with (S754_finite false 4503599627370496 (-51)).
  cbn [SFvalue]. change (Z.pos 4503599627370496) with (2 ^ 52)%Z.
  change 2%Z with (2 ^ 1)%Z at 2.
  rewrite scale_pow2, whole_pow2 by lia. f_equal.
Qed.

Lemma value_mul_two x :
  nonneg x = true -> finite x = true ->
  nonneg (x * 2) = true /\
  value (x * 2)%float = Z.min (2 * value x) top.
Proof.
  intros N F.
  destruct (value_mul x 2 N eq_refl F eq_refl) as [N2 V]. split; [exact N2|].
  rewrite V, value_two.
  replace (value x * (2 * whole))%Z with (2 * value x * whole)%Z by ring.
  rewrite Z.div_mul by (pose proof whole_pos; lia).
  rewrite round64_double; [reflexivity | apply value_nonneg | apply round64_value, N].
Qed.

(** [x - 1] and [x + -1] are the same number. *)
Lemma sub_one x : x - 1 = x + -1.
Proof.
  apply Prim2SF_inj. rewrite FloatAxioms.sub_spec, FloatAxioms.add_spec.
  change (Prim2SF 1) with (S754_finite false 4503599627370496 (-52)).
  change (Prim2SF (-1)) with (S754_finite true 4503599627370496 (-52)).
  destruct (Prim2SF x) as [[] | [] | | [] m e]; reflexivity.
Qed.

Lemma value_one : value 1 = whole.
Proof.
  unfold value. change (Prim2SF 1) with (S754_finite false 4503599627370496 (-52)).
  cbn [SFvalue]. change (Z.pos 4503599627370496) with (2 ^ 52)%Z.
  rewrite scale_pow2 by lia. unfold whole. f_equal.
Qed.

Lemma value_half : value 0.5 = half_whole.
Proof.
  unfold value.
  change (Prim2SF 0.5) with (S754_finite false 4503599627370496 (-53)).
  cbn [SFvalue]. change (Z.pos 4503599627370496) with (2 ^ 52)%Z.
  rewrite scale_pow2 by lia. unfold half_whole. f_equal.
Qed.

Lemma whole_halves : whole = (2 * half_whole)%Z.
Proof.
  unfold whole, half_whole. change 2200%Z with (Z.succ 2199).
  apply Z.pow_succ_r. lia.
Qed.

Lemma value_2_53 : value 9007199254740992 = (2 ^ 53 * whole)%Z.
Proof.
  unfold value.
  change (Prim2SF 9007199254740992)
    with (S754_finite false 4503599627370496 1).
  cbn [SFvalue]. change (Z.pos 4503599627370496) with (2 ^ 52)%Z.
  rewrite scale_pow2, whole_pow2 by lia. f_equal.
Qed.

(** Taking one from a number that is at least one. *)
Lemma value_minus_one x :
  nonneg x = true -> finite x = true -> (whole <= value x)%Z ->
  nonneg (x + -1) = true /\
  value (x + -1)%float = round64 (value x - whole).
Proof.
  intros N F H. pose proof (Prim2SF_valid x) as V. pose proof whole_pos as W.
  unfold nonneg, finite, value in *. rewrite FloatAxioms.add_spec.
  change (Prim2SF (-1)) with (S754_finite true 4503599627370496 (-52)).
  destruct (Prim2SF x) as [[] | [] | | [] m e]; try discriminate;
    cbn [SFvalue] in *; [lia|].
  destruct (bounded_facts m e V) as (B & _).
  unfold SF64add. cbn [SFadd cond_Zopp].
  set (ez := Z.min e (-52)).
  destruct (shl_align_value m e ez) as [_ Wx].
  destruct (shl_align_value 4503599627370496 (-52) ez) as [_ Wy].
  replace (Z.min e ez) with ez in Wx by lia.
  replace (Z.min (-52) ez) with ez in Wy by lia.
  set (a := fst (shl_align m e ez)) in *.
  set (b := fst (shl_align 4503599627370496 (-52) ez)) in *.
  assert (Sa : scale (Z.pos a) ez = scale (Z.pos m) e).
  { rewrite Wx. unfold scale. rewrite <- Z.mul_assoc, <- Z.pow_add_r by lia.
    f_equal. f_equal. lia. }
  assert (Sb : scale (Z.pos b) ez = whole).
  { rewrite Wy. unfold scale, whole.
    change (Z.pos 4503599627370496) with (2 ^ 52)%Z.
    rewrite <- !Z.pow_add_r by lia. f_equal. lia. }
  assert (S : scale (Z.pos a + - Z.pos b) ez = (scale (Z.pos m) e - whole)%Z).
  { rewrite <- Sa, <- Sb. unfold scale. ring. }
  assert (P : (0 <= Z.pos a + - Z.pos b)%Z).
  { apply (Z.mul_le_mono_pos_r _ _ (2 ^ (ez + 2200))%Z);
      [apply Z.pow_pos_nonneg; lia|].
    change ((Z.pos a + - Z.pos b) * 2 ^ (ez + 2200))%Z
      with (scale (Z.pos a + - Z.pos b) ez).
    rewrite S. lia. }
  destruct (binary_normalize_value (Z.pos a + - Z.pos b) ez P ltac:(lia))
    as [N' V'].
  change (binary_normalize prec emax) with (binary_normalize 53 1024).
  split; [exact N'|]. rewrite V', S.
  pose proof (SFvalue_finite m e V) as Fm.
  pose proof (round64_mono (scale (Z.pos m) e - whole) (scale (Z.pos m) e)
                ltac:(lia) ltac:(lia)) as M.
  rewrite (round64_scale_exact (Z.pos m) e) in M
    by (lia || apply (bounded_facts m e V)).
  lia.
Qed.

(** ** Counters *)

Lemma eqb_value x y :
  nonneg x = true -> nonneg y = true -> (x =? y) = (value x =? value y)%Z.
Proof.
  intros Nx Ny. rewrite FloatAxioms.eqb_spec. unfold SFeqb.
  rewrite (compare_value x y Nx Ny). unfold Z.eqb.
  destruct (value x) as [| p | p], (value y) as [| q | q]; try reflexivity;
    cbn [Z.compare]; try (destruct (Pos.compare_spec p q); subst;
      rewrite ?Pos.eqb_refl; try reflexivity;
      symmetry; apply Pos.eqb_neq; lia).
  all: rewrite <- Pos.compare_antisym; destruct (Pos.compare_spec p q); subst;
    rewrite ?Pos.eqb_refl; try reflexivity; symmetry; apply Pos.eqb_neq; lia.
Qed.

Lemma is_counter_value c :
  is_counter c = true ->
  nonneg c = true /\ finite c = true /\
  exists j, (0 <= j <= 2 ^ 53)%Z /\ value c = (j * whole)%Z.
Proof.
  intros H. split; [apply is_counter_nonneg, H|].
  split; [apply (below_finite 54), is_counter_below, H|].
  pose proof (Prim2SF_valid c) as V.
  unfold is_counter, value in *.
  destruct (Prim2SF c) as [[] | [] | | [] m e]; try discriminate.
  - exists 0%Z. split; [split; [lia | vm_compute; discriminate] | reflexivity].
  - destruct (bounded_facts m e V) as (B & _).
    destruct (SFcounter_cases m e H) as [[S D] | [-> ->]].
    + destruct (counter_aligned m e (-2200) S D ltac:(lia) ltac:(lia))
        as (j & Hj & Ej).
      exists j. split; [clear Ej; lia|]. cbn [SFvalue]. unfold scale, whole.
      replace (e + 2200)%Z with (e - -2200)%Z by (clear Ej; lia). exact Ej.
    + exists (2 ^ 53)%Z. split; [split; [vm_compute; discriminate | lia]|].
      cbn [SFvalue]. change (Z.pos 4503599627370496) with (2 ^ 52)%Z.
      rewrite scale_pow2, whole_pow2 by lia. f_equal.
Qed.

Lemma value_zero x : nonneg x = true -> value x = 0%Z -> x = 0.
Proof. intros N E. apply value_inj; [exact N | reflexivity | exact E]. Qed.

Lemma finite_of_value x :
  nonneg x = true -> (value x < top)%Z -> finite x = true.
Proof.
  intros N H. destruct (nonneg_cases x N) as [F | I]; [exact F|].
  unfold value in H. rewrite I in H. cbn [SFvalue] in H. lia.
Qed.

(** [Math.max(0, x)] is [x] for a non-negative [x]. *)
Lemma clamp_nonneg x : nonneg x = true -> Math_max 0 x = x.
Proof.
  intros N. destruct (value_Math_max 0 x eq_refl N) as [N' V].
  apply value_inj; [exact N' | exact N|].
  rewrite V. change (value 0) with 0%Z. pose proof (value_nonneg x). lia.
Qed.

(** One more than a whole number below 2^53. *)
Lemma add_one_value c j :
  nonneg c = true -> value c = (j * whole)%Z -> (0 <= j < 2 ^ 53)%Z ->
  nonneg (c + 1) = true /\ value (c + 1)%float = ((j + 1) * whole)%Z.
Proof.
  intros N E Hj.
  destruct (value_add c 1 N eq_refl) as [N1 V1]. split; [exact N1|].
  rewrite E, value_one in V1.
  replace (j * whole + whole)%Z with ((j + 1) * whole)%Z in V1 by ring.
  unfold whole in V1 at 1. rewrite round64_fixed in V1 by lia.
  fold whole in V1.
  pose proof (small_below_top (j + 1) ltac:(lia)) as T. lia.
Qed.

(** One less than a whole number between 1 and 2^53. *)
Lemma add_minus_one_value c j :
  nonneg c = true -> value c = (j * whole)%Z -> (1 <= j <= 2 ^ 53)%Z ->
  nonneg (c + -1) = true /\ value (c + -1)%float = ((j - 1) * whole)%Z.
Proof.
  intros N E Hj. pose proof whole_pos as W.
  pose proof (small_below_top j ltac:(lia)) as T.
  assert (F : finite c = true) by (apply finite_of_value; [exact N | lia]).
  destruct (value_minus_one c N F ltac:(rewrite E; nia)) as [N1 V1].
  split; [exact N1|]. rewrite E in V1.
  replace (j * whole - whole)%Z with ((j - 1) * whole)%Z in V1 by ring.
  unfold whole in V1 at 1. rewrite round64_fixed in V1 by lia. exact V1.
Qed.

Lemma counter_positive c j :
  is_counter c = true -> value c = (j * whole)%Z -> (c =? 0) = false ->
  (1 <= j)%Z.
Proof.
  intros H E Z. destruct (is_counter_value c H) as (N & _).
  rewrite (eqb_value c 0 N eq_refl) in Z. change (value 0) with 0%Z in Z.
  apply Z.eqb_neq in Z. pose proof (value_nonneg c). pose proof whole_pos.
  nia.
Qed.

Lemma counter_below c j :
  is_counter c = true -> value c = (j * whole)%Z ->
  (c <? 9007199254740992) = true -> (j < 2 ^ 53)%Z.
Proof.
  intros H E L. destruct (is_counter_value c H) as (N & _).
  rewrite (ltb_value c 9007199254740992 N eq_refl) in L. apply Z.ltb_lt in L.
  rewrite value_2_53, E in L. pose proof whole_pos as W. nia.
Qed.

(** One less and then one more, for a whole number that is not zero. *)
Lemma minus_plus c :
  is_counter c = true -> (c =? 0) = false ->
  nonneg (c + -1) = true /\ c + -1 + 1 = c.
Proof.
  intros H Z. destruct (is_counter_value c H) as (N & F & j & Hj & E).
  pose proof (counter_positive c j H E Z) as P.
  destruct (add_minus_one_value c j N E ltac:(lia)) as [N1 V1].
  destruct (add_one_value (c + -1) (j - 1) N1 V1 ltac:(lia)) as [N2 V2].
  split; [exact N1|].
  apply value_inj; [exact N2 | exact N|]. rewrite V2, E. f_equal. lia.
Qed.

(** One more and then one less, for a whole number below 2^53. *)
Lemma plus_minus c :
  is_counter c = true -> (c <? 9007199254740992) = true ->
  nonneg (c + 1) = true /\ c + 1 + -1 = c.
Proof.
  intros H L. destruct (is_counter_value c H) as (N & F & j & Hj & E).
  pose proof (counter_below c j H E L) as B.
  destruct (add_one_value c j N E ltac:(lia)) as [N1 V1].
  destruct (add_minus_one_value (c + 1) (j + 1) N1 V1 ltac:(lia)) as [N2 V2].
  split; [exact N1|].
  apply value_inj; [exact N2 | exact N|]. rewrite V2, E. f_equal. lia.
Qed.

(** Minus and then plus on a counter that is not zero gives it back. *)
Lemma counter_down_up c :
  is_counter c = true -> (c =? 0) = false ->
  Math_max 0 (Math_max 0 (c + -1) + 1) = c.
Proof.
  intros H Z. destruct (minus_plus c H Z) as [N E].
  rewrite (clamp_nonneg (c + -1) N), E.
  apply clamp_nonneg, is_counter_nonneg, H.
Qed.

(** Plus and then minus gives the counter back, below 2^53. *)
Lemma counter_up_down c :
  is_counter c = true -> (c <? 9007199254740992) = true ->
  Math_max 0 (Math_max 0 (c + 1) + -1) = c.
Proof.
  intros H L. destruct (plus_minus c H L) as [N E].
  rewrite (clamp_nonneg (c + 1) N), E.
  apply clamp_nonneg, is_counter_nonneg, H.
Qed.

(** * Writes that leave the dependencies alone *)

Lemma option_string_eqb_refl a : option_string_eqb a a = true.
Proof. destruct a as [s|]; [apply String.eqb_refl | reflexivity]. Qed.

Lemma option_string_eqb_eq a b : option_string_eqb a b = true <-> a = b.
Proof.
  destruct a as [x|], b as [y|]; simpl; split; intros H;
    try discriminate; try reflexivity.
  - apply String.eqb_eq in H. congruence.
  - injection H as ->. apply String.eqb_refl.
Qed.

Lemma Object_is_refl x : Object_is x x = true.
Proof. unfold Object_is. apply Leibniz.eqb_spec. reflexivity. Qed.

Lemma deps_changed_false old new :
  deps_changed old new = false <-> date old = date new /\ hours old = hours new.
Proof.
  unfold deps_changed. rewrite negb_false_iff, andb_true_iff.
  rewrite option_string_eqb_eq. unfold Object_is.
  split; intros [D H]; (split; [exact D|]); apply Leibniz.eqb_spec; exact H.
Qed.

Lemma setBooking_same_deps updater w :
  date (updater (booking w)) = date (booking w) ->
  hours (updater (booking w)) = hours (booking w) ->
  setBooking updater w = with_booking (updater (booking w)) w.
Proof.
  intros D H. unfold setBooking. cbn [booking with_booking].
  replace (deps_changed (booking w) (updater (booking w))) with false;
    [reflexivity|].
  symmetry. apply deps_changed_false. split; symmetry; assumption.
Qed.

Lemma setBooking_other_deps updater w :
  date (updater (booking w)) <> date (booking w)
  \/ hours (updater (booking w)) <> hours (booking w) ->
  setBooking updater w
  = availabilityEffect (with_booking (updater (booking w)) w).
Proof.
  intros H. apply setBooking_changed.
  destruct (deps_changed (booking w) (updater (booking w))) eqn:E;
    [reflexivity|].
  apply deps_changed_false in E. destruct E as [D K].
  destruct H as [H | H]; exfalso; apply H; symmetry; assumption.
Qed.

(** X1.  The availability effect runs exactly when a write changes the
    date or the hours.  A write that leaves both as they are changes the
    booking record and nothing else: the slot list, the loading flag and
    the calls in flight stay as they were, and no call is issued.  The
    step buttons are such writes. *)
Theorem effect_runs_only_on_date_or_hours :
  forall (updater : BookingState -> BookingState) (w : Wizard),
    (date (updater (booking w)) = date (booking w) ->
     hours (updater (booking w)) = hours (booking w) ->
     setBooking updater w = with_booking (updater (booking w)) w) /\
    (date (updater (booking w)) <> date (booking w)
     \/ hours (updater (booking w)) <> hours (booking w) ->
     setBooking updater w
     = availabilityEffect (with_booking (updater (booking w)) w)) /\
    handleNext w = with_booking (with_step (step (booking w) + 1) (booking w)) w /\
    handleBack w = with_booking (with_step (step (booking w) - 1) (booking w)) w.
Proof.
  intros updater w. split; [apply setBooking_same_deps|].
  split; [apply setBooking_other_deps|].
  split.
  - apply (setBooking_same_deps (fun prev => with_step (step prev + 1) prev) w);
      reflexivity.
  - apply (setBooking_same_deps (fun prev => with_step (step prev - 1) prev) w);
      reflexivity.
Qed.

Lemma effect_runs_only_on_date_or_hours_witness :
  setBooking (with_timeSlot (Some slot_9)) dated
  = with_booking (with_timeSlot (Some slot_9) (booking dated)) dated /\
  setBooking (with_hours 4) dated
  = availabilityEffect (with_booking (with_hours 4 (booking dated)) dated).
Proof.
  split.
  - apply (effect_runs_only_on_date_or_hours (with_timeSlot (Some slot_9)) dated);
      reflexivity.
  - apply (effect_runs_only_on_date_or_hours (with_hours 4) dated).
    right. apply number_neq. reflexivity.
Defined.

(** * The calls of the availability service *)

Lemma availabilityEffect_skips w :
  (truthy_string (date (booking w)) && truthy (hours (booking w)))%bool = false ->
  availabilityEffect w = setAvailableSlots [] w.
Proof.
  intros G. unfold availabilityEffect, fetchSlots.
  cbn [booking setAvailableSlots]. rewrite G. reflexivity.
Qed.

(** What a write does to the loading flag and the calls in flight:
    nothing, or one call for the new date and hours with the flag up. *)
Lemma setBooking_calls updater w :
  (isLoadingSlots (setBooking updater w) = isLoadingSlots w /\
   inFlight (setBooking updater w) = inFlight w) \/
  (isLoadingSlots (setBooking updater w) = true /\
   inFlight (setBooking updater w)
   = inFlight w ++ [{| fetch_id := nextFetch w;
                       fetch_date := date (updater (booking w));
                       fetch_duration := Math_ceil (hours (updater (booking w))) |}] /\
   truthy_string (date (updater (booking w))) = true /\
   truthy (hours (updater (booking w))) = true).
Proof.
  unfold setBooking. cbn [booking with_booking].
  destruct (deps_changed (booking w) (updater (booking w))); [|left; split; reflexivity].
  set (w' := with_booking (updater (booking w)) w).
  destruct (truthy_string (date (booking w')) && truthy (hours (booking w')))%bool
    eqn:G.
  - apply andb_true_iff in G. destruct G as [D H].
    right. rewrite (availabilityEffect_issues w' D H).
    repeat split; assumption.
  - left. rewrite (availabilityEffect_skips w' G). split; reflexivity.
Qed.

Lemma run_calls ev w :
  (isLoadingSlots (run ev w) = isLoadingSlots w /\
   inFlight (run ev w) = inFlight w) \/
  (isLoadingSlots (run ev w) = true /\
   inFlight (run ev w)
   = inFlight w ++ [{| fetch_id := nextFetch w;
                       fetch_date := date (booking (run ev w));
                       fetch_duration := Math_ceil (hours (booking (run ev w))) |}] /\
   truthy_string (date (booking (run ev w))) = true) \/
  (isLoadingSlots (run ev w) = false /\
   exists n, inFlight (run ev w)
             = filter (fun f => negb (Nat.eqb (fetch_id f) n)) (inFlight w)).
Proof.
  assert (S : forall updater w0,
             isLoadingSlots w0 = isLoadingSlots w -> inFlight w0 = inFlight w ->
             nextFetch w0 = nextFetch w ->
             (isLoadingSlots (setBooking updater w0) = isLoadingSlots w /\
              inFlight (setBooking updater w0) = inFlight w) \/
             (isLoadingSlots (setBooking updater w0) = true /\
              inFlight (setBooking updater w0)
              = inFlight w ++ [{| fetch_id := nextFetch w;
                                  fetch_date := date (booking (setBooking updater w0));
                                  fetch_duration :=
                                    Math_ceil (hours (booking (setBooking updater w0))) |}] /\
              truthy_string (date (booking (setBooking updater w0))) = true)).
  { intros updater w0 L I N. rewrite booking_setBooking.
    destruct (setBooking_calls updater w0) as [[A B] | (A & B & C & _)].
    - left. rewrite A, B. auto.
    - right. rewrite B, I, N. auto. }
  destruct ev as [| | f d | f d | v | n r | updater]; cbn [run].
  - destruct (S (fun prev => with_step (step prev + 1) prev) w) as [H | H]; auto.
  - destruct (S (fun prev => with_step (step prev - 1) prev) w) as [H | H]; auto.
  - unfold handleHomeChange.
    destruct (homeUpdate f d (homeEstimator w)) as [newState finalHours].
    destruct (S (fun b => with_hours finalHours b) (setHomeEstimator newState w))
      as [H | H]; auto.
  - unfold handleOfficeChange.
    destruct (officeUpdate f d (officeEstimator w)) as [newState finalHours].
    destruct (S (fun b => with_hours finalHours b) (setOfficeEstimator newState w))
      as [H | H]; auto.
  - unfold sliderChange.
    destruct (S (fun _ => with_hours v (booking w)) w) as [H | H]; auto.
  - unfold settle. destruct (is_in_flight n w); [|left; split; reflexivity].
    right. right. split; [destruct r; reflexivity|].
    exists n. destruct r; reflexivity.
  - destruct (S updater w) as [H | H]; auto.
Qed.

Lemma mount_calls currentUser :
  isLoadingSlots (mount currentUser) = false /\
  inFlight (mount currentUser) = [] /\
  availableSlots (mount currentUser) = [] /\
  console (mount currentUser) = [].
Proof. destruct currentUser as [u|]; repeat split; reflexivity. Qed.

(** Every event of a list is possible. *)
Ltac possible_events :=
  repeat (apply Forall_cons;
          [first [exact I | intros ?; reflexivity | simpl; auto 20]|]);
  apply Forall_nil.

Lemma loading_invariant currentUser w :
  reachable currentUser w -> isLoadingSlots w = true -> inFlight w <> [].
Proof.
  induction 1 as [| w ev R IH P].
  - destruct (mount_calls currentUser) as (L & _). congruence.
  - destruct (run_calls ev w) as [[A B] | [(A & B & _) | (A & _)]].
    + rewrite A, B. exact IH.
    + intros _. rewrite B. intros E. apply app_eq_nil in E.
      destruct E as [_ E]. discriminate.
    + congruence.
Qed.

(** X2.  In every state a session can reach, the loading flag is up
    only while a call of the availability service is in flight.  The
    converse does not hold: of two calls in flight, the first to settle
    lowers the flag although the other is still awaited. *)
Theorem loading_flag_needs_a_call :
  (forall (currentUser : option User.t) (w : Wizard),
     reachable currentUser w -> isLoadingSlots w = true -> inFlight w <> []) /\
  (let w := run_all [OtherWrite (with_date (Some "2025-06-02"%string));
                     Slider 4;
                     Settle 0 (Fulfilled [slot_9])] (mount None) in
   reachable None w /\ isLoadingSlots w = false /\
   map fetch_id (inFlight w) = [1%nat]).
Proof.
  split; [exact loading_invariant|].
  split; [|split; reflexivity].
  apply reachable_run_all; [apply reachable_mount|].
  possible_events.
Qed.

Lemma loading_flag_needs_a_call_witness :
  inFlight (run (OtherWrite (with_date (Some "2025-06-02"%string))) (mount None))
  <> [].
Proof.
  apply (proj1 loading_flag_needs_a_call None).
  - apply reachable_run; [apply reachable_mount | intros b; reflexivity].
  - reflexivity.
Defined.

(** * The duration handed to the availability service *)

Lemma finite_below x : nonneg x = true -> finite x = true -> below 1024 x = true.
Proof.
  unfold nonneg, finite, below. pose proof (Prim2SF_valid x) as V.
  destruct (Prim2SF x) as [[] | [] | | [] m e]; try discriminate; auto.
  intros _ _. cbn [SFbelow]. apply Z.leb_le.
  destruct (bounded_facts m e V) as (B & C & _).
  cbn [Zdigits2] in C. unfold fexp, SpecFloat.emin in C. lia.
Qed.

Lemma Math_ceil_finite x :
  nonneg x = true -> finite x = true -> finite (Math_ceil x) = true.
Proof.
  intros N F. apply (below_finite 1024), Math_ceil_below; [lia|].
  apply finite_below; assumption.
Qed.

Lemma multiple_of_half_finite h : multiple_of_half h = true -> finite h = true.
Proof.
  unfold multiple_of_half, finite.
  destruct (Prim2SF h) as [s | s | | s m e]; simpl; congruence.
Qed.

(** A non-negative multiple of one half, in halves. *)
Lemma multiple_of_half_value h :
  nonneg h = true -> multiple_of_half h = true ->
  exists j, (0 <= j)%Z /\ value h = (j * half_whole)%Z.
Proof.
  unfold nonneg, multiple_of_half, value. pose proof (Prim2SF_valid h) as V.
  destruct (Prim2SF h) as [[] | [] | | [] m e]; try discriminate; intros _ M.
  - exists 0%Z. split; [lia | reflexivity].
  - cbn [SFmultiple] in M. apply scaledb_scaled in M.
    destruct (bounded_facts m e V) as (B & _).
    cbn [SFvalue]. unfold scale, half_whole.
    destruct (Z_le_gt_dec (-1) e) as [G | G].
    + exists (Z.pos m * 2 ^ (e + 1))%Z.
      split; [apply Z.mul_nonneg_nonneg; [lia | apply Z.pow_nonneg; lia]|].
      rewrite <- Z.mul_assoc, <- Z.pow_add_r by lia. f_equal. f_equal. lia.
    + destruct (scaled_split (-1) _ e M ltac:(lia)) as [z Hz].
      assert (0 < 2 ^ (-1 - e))%Z by (apply Z.pow_pos_nonneg; lia).
      exists z. split; [nia|].
      rewrite Hz, <- Z.mul_assoc, <- Z.pow_add_r by lia. f_equal. f_equal. lia.
Qed.

Lemma ceil_above v : (v <= (v + whole - 1) / whole * whole)%Z.
Proof.
  pose proof whole_pos as W.
  pose proof (Z.div_mod (v + whole - 1) whole ltac:(lia)) as D.
  pose proof (Z.mod_pos_bound (v + whole - 1) whole W) as R.
  lia.
Qed.

Lemma ceil_below v : ((v + whole - 1) / whole * whole < v + whole)%Z.
Proof.
  pose proof whole_pos as W.
  pose proof (Z.div_mod (v + whole - 1) whole ltac:(lia)) as D.
  pose proof (Z.mod_pos_bound (v + whole - 1) whole W) as R.
  lia.
Qed.

Lemma hours_ok_truthy h : hours_ok h -> truthy h = true.
Proof.
  intros (N & L & _). unfold truthy, PrimFloat.is_zero.
  change (h =? zero) with (h =? 0).
  rewrite (nonneg_not_nan h N), orb_false_r.
  rewrite (eqb_value h 0 N eq_refl). change (value 0) with 0%Z.
  pose proof (value_of_leb 2 h eq_refl N L) as V. rewrite value_two in V.
  pose proof whole_pos.
  destruct (Z.eqb_spec (value h) 0); [lia | reflexivity].
Qed.

(** [Math.ceil] of hours that are a multiple of one half and at least 2. *)
Lemma hours_ok_ceil h :
  hours_ok h ->
  is_integer (Math_ceil h) = true /\ (2 <=? Math_ceil h) = true /\
  (h <=? Math_ceil h) = true /\
  (Math_ceil h = h \/ Math_ceil h = h + 0.5).
Proof.
  intros (N & L & M).
  pose proof (multiple_of_half_finite h M) as F.
  destruct (value_Math_ceil h N) as [Nc Vc].
  pose proof (ceil_above (value h)) as A. rewrite <- Vc in A.
  pose proof (value_of_leb 2 h eq_refl N L) as V2.
  split; [apply Math_ceil_integer, Math_ceil_finite; assumption|].
  split; [apply leb_of_value; [reflexivity | exact Nc | lia]|].
  split; [apply leb_of_value; assumption|].
  destruct (multiple_of_half_value h N M) as (j & Hj & Ej).
  pose proof whole_halves as WH.
  assert (P : (0 < half_whole)%Z) by (pose proof whole_pos; lia).
  destruct (Z.even j) eqn:Ev.
  - left. apply value_inj; [exact Nc | exact N|].
    apply Z.even_spec in Ev. destruct Ev as [i Hi].
    rewrite Vc, Ej, Hi.
    replace (2 * i * half_whole)%Z with (i * whole)%Z by (rewrite WH; ring).
    apply ceil_multiple.
  - right.
    assert (Od : Z.odd j = true) by (rewrite <- Z.negb_even, Ev; reflexivity).
    apply Z.odd_spec in Od. destruct Od as [i Hi].
    assert (Vc' : value (Math_ceil h) = (value h + half_whole)%Z).
    { rewrite Vc, Ej, Hi.
      replace ((2 * i + 1) * half_whole + whole - 1)%Z
        with ((i + 1) * whole + (half_whole - 1))%Z by (rewrite WH; ring).
      rewrite Z.div_add_l by lia.
      rewrite (Z.div_small (half_whole - 1)) by lia.
      rewrite WH. ring. }
    destruct (value_add h 0.5 N eq_refl) as [Na Va].
    apply value_inj; [exact Nc | exact Na|].
    rewrite Va, value_half, <- Vc', round64_value by exact Nc.
    pose proof (value_le_top (Math_ceil h)). lia.
Qed.

Lemma filter_Forall {A} (P : A -> Prop) (f : A -> bool) l :
  Forall P l -> Forall P (filter f l).
Proof.
  intros H. apply Forall_forall. intros x I. apply filter_In in I.
  rewrite Forall_forall in H. apply H, I.
Qed.

Lemma calls_invariant currentUser w :
  reachable currentUser w ->
  Forall (fun f => truthy_string (fetch_date f) = true /\
                   is_integer (fetch_duration f) = true /\
                   (2 <=? fetch_duration f) = true) (inFlight w).
Proof.
  induction 1 as [| w ev R IH P].
  - destruct (mount_calls currentUser) as (_ & I & _). rewrite I. constructor.
  - destruct (run_calls ev w) as [[A B] | [(A & B & D) | (A & n & B)]];
      rewrite B.
    + exact IH.
    + apply Forall_app. split; [exact IH|].
      constructor; [|constructor]. cbn [fetch_date fetch_duration].
      destruct (reachable_invariant currentUser (run ev w)) as (_ & _ & K).
      { apply reachable_run; assumption. }
      destruct (hours_ok_ceil _ K) as (I1 & I2 & _). auto.
    + apply filter_Forall, IH.
Qed.

(** X3.  Every call of the availability service a session makes carries
    a date that is set and a duration that is a whole number of hours,
    at least 2. *)
Theorem calls_carry_a_date_and_whole_hours :
  forall (currentUser : option User.t) (w : Wizard) (f : Fetch),
    reachable currentUser w -> In f (inFlight w) ->
    truthy_string (fetch_date f) = true /\
    is_integer (fetch_duration f) = true /\
    (2 <=? fetch_duration f) = true.
Proof.
  intros currentUser w f R I.
  pose proof (calls_invariant currentUser w R) as K.
  rewrite Forall_forall in K. apply (K f I).
Qed.

Lemma calls_carry_a_date_and_whole_hours_witness :
  truthy_string (Some "2025-06-02"%string) = true /\
  is_integer 4 = true /\ (2 <=? 4) = true.
Proof.
  apply (calls_carry_a_date_and_whole_hours None
           (run_all [OtherWrite (with_date (Some "2025-06-02"%string)); Slider 3.5]
              (mount None))
           {| fetch_id := 1; fetch_date := Some "2025-06-02"%string;
              fetch_duration := 4 |}).
  - apply reachable_run_all; [apply reachable_mount | possible_events].
  - vm_compute. right. left. reflexivity.
Defined.

(** X4.  In a reachable state with a date set, the effect always calls
    the availability service: the hours are never 0 or NaN.  The
    duration it passes is the hours themselves when they are whole and
    half an hour more otherwise. *)
Theorem query_duration_within_half_an_hour :
  forall (currentUser : option User.t) (w : Wizard),
    reachable currentUser w ->
    truthy_string (date (booking w)) = true ->
    exists d,
      inFlight (availabilityEffect w)
      = inFlight w ++ [{| fetch_id := nextFetch w;
                          fetch_date := date (booking w);
                          fetch_duration := d |}] /\
      (hours (booking w) <=? d) = true /\
      (d = hours (booking w) \/ d = hours (booking w) + 0.5).
Proof.
  intros currentUser w R D.
  destruct (reachable_invariant currentUser w R) as (_ & _ & K).
  exists (Math_ceil (hours (booking w))).
  rewrite (availabilityEffect_issues w D (hours_ok_truthy _ K)).
  destruct (hours_ok_ceil _ K) as (_ & _ & L & C).
  split; [reflexivity|]. split; assumption.
Qed.

Lemma query_duration_within_half_an_hour_witness :
  let w := run_all [OtherWrite (with_date (Some "2025-06-02"%string)); Slider 3.5]
             (mount None) in
  exists d,
    inFlight (availabilityEffect w)
    = inFlight w ++ [{| fetch_id := nextFetch w; fetch_date := date (booking w);
                        fetch_duration := d |}] /\
    (hours (booking w) <=? d) = true /\
    (d = hours (booking w) \/ d = hours (booking w) + 0.5).
Proof.
  apply (query_duration_within_half_an_hour None
           (run_all [OtherWrite (with_date (Some "2025-06-02"%string)); Slider 3.5]
              (mount None))).
  - apply reachable_run_all; [apply reachable_mount | possible_events].
  - reflexivity.
Defined.

(** * Autofill and the first render *)

(** X5.  When a user is logged in, the autofill effect overwrites the
    five contact fields of the booking with the user's, a missing one
    becoming the empty text, and keeps the notes.  It changes nothing
    else: it issues no call and leaves the slot list alone.  Running it
    again changes nothing, and without a user it does nothing. *)
Theorem autofill_overwrites_contact_fields :
  forall (u : User.t) (w : Wizard),
    let details :=
      {| firstName := or_empty (User.firstName u);
         lastName := or_empty (User.lastName u);
         email := or_empty (User.email u);
         phone := or_empty (User.phone u);
         address := or_empty (User.address u);
         notes := notes (clientDetails (booking w)) |} in
    let w' := autofillEffect (Some u) w in
    w' = with_booking (with_clientDetails details (booking w)) w /\
    autofillEffect (Some u) w' = w' /\
    autofillEffect None w = w.
Proof.
  intros u w details w'.
  assert (E : w' = with_booking (with_clientDetails details (booking w)) w).
  { unfold w', autofillEffect.
    match goal with |- setBooking ?f w = _ =>
      apply (setBooking_same_deps f w); reflexivity end. }
  split; [exact E|]. split; [|reflexivity].
  unfold autofillEffect.
  match goal with |- setBooking ?f w' = _ =>
    rewrite (setBooking_same_deps f w') by reflexivity end.
  rewrite E. reflexivity.
Qed.

(** X6.  The first render issues no call of the availability service,
    whoever is logged in: no date is set yet.  The wizard starts with an
    empty slot list, the loading flag down and nothing logged; with no
    user it is the initial state, and with a user it differs from it in
    the contact fields only. *)
Theorem first_render_issues_no_call :
  mount None = initial /\
  forall u : User.t,
    mount (Some u)
    = with_booking
        (with_clientDetails
           {| firstName := or_empty (User.firstName u);
              lastName := or_empty (User.lastName u);
              email := or_empty (User.email u);
              phone := or_empty (User.phone u);
              address := or_empty (User.address u);
              notes := "" |}
           INITIAL_STATE)
        initial.
Proof. split; [reflexivity | intros u; reflexivity]. Qed.

(** * The selected catalog entry *)

Lemma currentService_missing SERVICE_OPTIONS b :
  (forall s, In s SERVICE_OPTIONS -> service b <> Some (id s)) ->
  currentService SERVICE_OPTIONS b = None.
Proof.
  intros H. unfold currentService.
  destruct (find _ SERVICE_OPTIONS) as [s|] eqn:F; [|reflexivity].
  destruct (currentService_some SERVICE_OPTIONS b s F) as [I E].
  exfalso. exact (H s I E).
Qed.

(** X7.  A service identifier that no catalog entry carries is priced
    like no service at all: the five figures are zero, nothing fails,
    and the home counters are the ones shown. *)
Theorem unknown_service_prices_at_zero :
  forall (SERVICE_OPTIONS : list ServiceOption) (b : BookingState),
    (forall s, In s SERVICE_OPTIONS -> service b <> Some (id s)) ->
    currentService SERVICE_OPTIONS b = None /\
    isOfficeService SERVICE_OPTIONS b = false /\
    subtotal SERVICE_OPTIONS b = 0 /\ hstAmount SERVICE_OPTIONS b = 0 /\
    totalCost SERVICE_OPTIONS b = 0 /\ depositAmount SERVICE_OPTIONS b = 0 /\
    remainingAmount SERVICE_OPTIONS b = 0.
Proof.
  intros SERVICE_OPTIONS b H.
  pose proof (currentService_missing SERVICE_OPTIONS b H) as N.
  unfold isOfficeService, remainingAmount, depositAmount, totalCost, hstAmount,
    subtotal.
  rewrite N. repeat split; reflexivity.
Qed.

Lemma unknown_service_prices_at_zero_witness :
  totalCost example_catalog (with_service (Some "deep"%string) INITIAL_STATE) = 0.
Proof.
  apply (unknown_service_prices_at_zero example_catalog
           (with_service (Some "deep"%string) INITIAL_STATE)).
  intros s [<- | [<- | []]]; discriminate.
Defined.

Lemma find_first {A} (f : A -> bool) l x :
  find f l = Some x ->
  exists l1 l2, l = l1 ++ x :: l2 /\ f x = true /\ forall y, In y l1 -> f y = false.
Proof.
  induction l as [| a l IH]; [discriminate|]. cbn [find].
  destruct (f a) eqn:Fa.
  - intros [= ->]. exists [], l. repeat split; [exact Fa | intros y []].
  - intros H. destruct (IH H) as (l1 & l2 & E & Fx & N).
    exists (a :: l1), l2. rewrite E. repeat split; [exact Fx|].
    intros y [<- | I]; [exact Fa | exact (N y I)].
Qed.

(** X8.  The selected entry is the first of the catalog that carries
    the booked identifier: entries before it carry another one, and a
    later entry with the same identifier is never used.  The office
    counters are shown exactly when the booked identifier is ['office']
    and the catalog has an entry for it. *)
Theorem first_catalog_entry_wins :
  forall (SERVICE_OPTIONS : list ServiceOption) (b : BookingState),
    (forall s,
       currentService SERVICE_OPTIONS b = Some s ->
       exists before after,
         SERVICE_OPTIONS = before ++ s :: after /\
         service b = Some (id s) /\
         forall s', In s' before -> id s' <> id s) /\
    (isOfficeService SERVICE_OPTIONS b = true <->
     service b = Some "office"%string /\
     exists s, In s SERVICE_OPTIONS /\ id s = "office"%string).
Proof.
  intros SERVICE_OPTIONS b. split.
  - intros s C. destruct (currentService_some _ _ _ C) as [_ E].
    unfold currentService in C.
    destruct (find_first _ _ _ C) as (l1 & l2 & L & _ & N).
    exists l1, l2. repeat split; [exact L | exact E|].
    intros s' I Q. specialize (N s' I). rewrite E, Q in N.
    cbn [id_strict_eq] in N. rewrite String.eqb_refl in N. discriminate.
  - unfold isOfficeService. split.
    + destruct (currentService SERVICE_OPTIONS b) as [s|] eqn:C; [|discriminate].
      intros O. apply String.eqb_eq in O.
      destruct (currentService_some _ _ _ C) as [I E].
      split; [rewrite E, O; reflexivity|]. exists s. auto.
    + intros (E & s & I & O).
      destruct (currentService SERVICE_OPTIONS b) as [s'|] eqn:C.
      * destruct (currentService_some _ _ _ C) as [_ E'].
        rewrite E in E'. injection E' as <-. reflexivity.
      * exfalso. unfold currentService in C.
        pose proof (find_none _ _ C s I) as N. cbv beta in N.
        rewrite E, O in N. discriminate.
Qed.

Lemma first_catalog_entry_wins_witness :
  exists before after,
    example_catalog
    = before ++ {| id := "office"; title := "Office Cleaning";
                   hourlyRate := 65; recommendedHours := 4 |} :: after /\
    service (with_service (Some "office"%string) INITIAL_STATE) = Some "office"%string /\
    forall s', In s' before -> id s' <> "office"%string.
Proof.
  apply (proj1 (first_catalog_entry_wins example_catalog
                  (with_service (Some "office"%string) INITIAL_STATE))
           {| id := "office"; title := "Office Cleaning";
              hourlyRate := 65; recommendedHours := 4 |}).
  reflexivity.
Defined.

(** * The counters on the screen *)

Lemma isOfficeService_service SERVICE_OPTIONS b b' :
  service b' = service b ->
  isOfficeService SERVICE_OPTIONS b' = isOfficeService SERVICE_OPTIONS b.
Proof.
  intros E. unfold isOfficeService, currentService. rewrite E. reflexivity.
Qed.

Lemma estimatorSection_home SERVICE_OPTIONS field delta w :
  map counter_value (estimatorSection SERVICE_OPTIONS (handleHomeChange field delta w))
  = if isOfficeService SERVICE_OPTIONS (booking w)
    then map counter_value (estimatorSection SERVICE_OPTIONS w)
    else let e := home_set field (Math_max 0 (home_get field (homeEstimator w) + delta))
                    (homeEstimator w) in
         [bedrooms e; bathrooms e; kitchen e; living e].
Proof.
  destruct (handleHomeChange_frame field delta w) as (B & H & O).
  unfold estimatorSection. rewrite B, H, O.
  rewrite (isOfficeService_service SERVICE_OPTIONS (booking w)) by reflexivity.
  destruct (isOfficeService SERVICE_OPTIONS (booking w)); reflexivity.
Qed.

Lemma estimatorSection_office SERVICE_OPTIONS field delta w :
  map counter_value (estimatorSection SERVICE_OPTIONS (handleOfficeChange field delta w))
  = if isOfficeService SERVICE_OPTIONS (booking w)
    then let e := office_set field
                    (Math_max 0 (office_get field (officeEstimator w) + delta))
                    (officeEstimator w) in
         [rooms e; cafeteria e; desks e; washrooms e]
    else map counter_value (estimatorSection SERVICE_OPTIONS w).
Proof.
  destruct (handleOfficeChange_frame field delta w) as (B & H & O).
  unfold estimatorSection. rewrite B, H, O.
  rewrite (isOfficeService_service SERVICE_OPTIONS (booking w)) by reflexivity.
  destruct (isOfficeService SERVICE_OPTIONS (booking w)); reflexivity.
Qed.

(** X9.  Each counter on the screen is wired to itself.  The minus
    button is disabled exactly when the shown value is 0, the plus
    button never; a click on either changes the shown value of that
    counter to [Math.max(0, value - 1)] or [Math.max(0, value + 1)] and
    leaves the other three counters as they are. *)
Theorem each_button_moves_its_own_counter :
  forall (SERVICE_OPTIONS : list ServiceOption) (w : Wizard) (i : nat)
         (c : CounterView),
    nth_error (estimatorSection SERVICE_OPTIONS w) i = Some c ->
    disabled (minus c) = (counter_value c =? 0) /\
    disabled (plus c) = false /\
    forall (delta : number) (b : Button),
      delta = -1 /\ b = minus c \/ delta = 1 /\ b = plus c ->
      forall j,
        nth_error
          (map counter_value (estimatorSection SERVICE_OPTIONS (onClick b w))) j
        = if Nat.eqb j i then Some (Math_max 0 (counter_value c + delta))
          else nth_error (map counter_value (estimatorSection SERVICE_OPTIONS w)) j.
Proof.
  intros SERVICE_OPTIONS w i c Hc.
  assert (K : forall delta j,
             nth_error
               (map counter_value
                  (estimatorSection SERVICE_OPTIONS
                     (onClick (if delta =? 1 then plus c else minus c) w))) j
             = if Nat.eqb j i
               then Some (Math_max 0 (counter_value c
                                      + (if delta =? 1 then 1 else -1)))
               else nth_error
                      (map counter_value (estimatorSection SERVICE_OPTIONS w)) j).
  { intros delta j. unfold estimatorSection in Hc |- * at 2.
    destruct (isOfficeService SERVICE_OPTIONS (booking w)) eqn:O;
      destruct i as [| [| [| [| i]]]]; cbn [nth_error] in Hc;
      try (destruct i; discriminate Hc); injection Hc as <-;
      destruct (delta =? 1); cbn [plus minus onClick Counter counter_value];
      rewrite ?estimatorSection_home, ?estimatorSection_office, O;
      destruct j as [| [| [| [| j]]]]; try reflexivity;
      destruct j; reflexivity. }
  split; [|split].
  - unfold estimatorSection in Hc.
    destruct (isOfficeService SERVICE_OPTIONS (booking w));
      destruct i as [| [| [| [| i]]]]; cbn [nth_error] in Hc;
      try (destruct i; discriminate Hc); injection Hc as <-; reflexivity.
  - unfold estimatorSection in Hc.
    destruct (isOfficeService SERVICE_OPTIONS (booking w));
      destruct i as [| [| [| [| i]]]]; cbn [nth_error] in Hc;
      try (destruct i; discriminate Hc); injection Hc as <-; reflexivity.
  - intros delta b [[-> ->] | [-> ->]] j.
    + exact (K (-1) j).
    + exact (K 1 j).
Qed.

Lemma each_button_moves_its_own_counter_witness :
  let c := Counter "Bathrooms" 1 (handleHomeChange Bathrooms) None in
  disabled (minus c) = (counter_value c =? 0) /\
  nth_error
    (map counter_value (estimatorSection example_catalog (onClick (plus c) (mount None))))
    1
  = Some (Math_max 0 (counter_value c + 1)).
Proof.
  split.
  - apply (each_button_moves_its_own_counter example_catalog (mount None) 1).
    reflexivity.
  - apply (proj2 (proj2 (each_button_moves_its_own_counter example_catalog
                           (mount None) 1
                           (Counter "Bathrooms" 1 (handleHomeChange Bathrooms) None)
                           eq_refl))
             1 (plus (Counter "Bathrooms" 1 (handleHomeChange Bathrooms) None))
             (or_intror (conj eq_refl eq_refl)) 1%nat).
Defined.

(** * Round trips *)

Lemma home_set_get field v e :
  home_get field (home_set field v e) = v.
Proof. destruct field; reflexivity. Qed.

Lemma home_set_back field v e :
  home_set field (home_get field e) (home_set field v e) = e.
Proof. destruct e, field; reflexivity. Qed.

Lemma office_set_get field v e :
  office_get field (office_set field v e) = v.
Proof. destruct field; reflexivity. Qed.

Lemma office_set_back field v e :
  office_set field (office_get field e) (office_set field v e) = e.
Proof. destruct e, field; reflexivity. Qed.

(** Two clicks on a home counter whose second undoes the first. *)
Lemma home_round_trip field d1 d2 w :
  home_counters (homeEstimator w) -> d1 = 1 \/ d1 = -1 ->
  Math_max 0 (Math_max 0 (home_get field (homeEstimator w) + d1) + d2)
  = home_get field (homeEstimator w) ->
  let w' := handleHomeChange field d2 (handleHomeChange field d1 w) in
  homeEstimator w' = homeEstimator w /\
  officeEstimator w' = officeEstimator w /\
  hours (booking w') = homeHours (homeEstimator w).
Proof.
  intros C D E. cbv zeta.
  destruct (handleHomeChange_frame field d1 w) as (_ & H1 & O1).
  set (w1 := handleHomeChange field d1 w) in *.
  destruct (handleHomeChange_frame field d2 w1) as (_ & H2 & O2).
  set (w' := handleHomeChange field d2 w1) in *.
  assert (C1 : home_counters (homeEstimator w1)).
  { rewrite H1. apply homeUpdate_ok; assumption. }
  assert (R : homeEstimator w' = homeEstimator w).
  { rewrite H2, H1. unfold homeUpdate. cbn [fst].
    rewrite home_set_get, E. apply home_set_back. }
  split; [exact R|]. split; [rewrite O2, O1; reflexivity|].
  rewrite <- R. apply home_mutation_writes_homeHours_aux.
  apply home_counters_nonneg, C1.
Qed.

Lemma office_round_trip field d1 d2 w :
  office_counters (officeEstimator w) -> d1 = 1 \/ d1 = -1 ->
  Math_max 0 (Math_max 0 (office_get field (officeEstimator w) + d1) + d2)
  = office_get field (officeEstimator w) ->
  let w' := handleOfficeChange field d2 (handleOfficeChange field d1 w) in
  homeEstimator w' = homeEstimator w /\
  officeEstimator w' = officeEstimator w /\
  hours (booking w') = officeHours (officeEstimator w).
Proof.
  intros C D E. cbv zeta.
  destruct (handleOfficeChange_frame field d1 w) as (_ & H1 & O1).
  set (w1 := handleOfficeChange field d1 w) in *.
  destruct (handleOfficeChange_frame field d2 w1) as (_ & H2 & O2).
  set (w' := handleOfficeChange field d2 w1) in *.
  assert (C1 : office_counters (officeEstimator w1)).
  { rewrite O1. apply officeUpdate_ok; assumption. }
  assert (R : officeEstimator w' = officeEstimator w).
  { rewrite O2, O1. unfold officeUpdate. cbn [fst].
    rewrite office_set_get, E. apply office_set_back. }
  split; [rewrite H2, H1; reflexivity|]. split; [exact R|].
  rewrite <- R. apply office_mutation_writes_officeHours_aux.
  apply office_counters_nonneg, C1.
Qed.

(** The counters of the section, one by one. *)
Lemma estimatorSection_cases SERVICE_OPTIONS w c :
  In c (estimatorSection SERVICE_OPTIONS w) ->
  (isOfficeService SERVICE_OPTIONS (booking w) = false /\
   exists field label,
     c = Counter label (home_get field (homeEstimator w))
           (handleHomeChange field) None) \/
  (isOfficeService SERVICE_OPTIONS (booking w) = true /\
   exists field label note,
     c = Counter label (office_get field (officeEstimator w))
           (handleOfficeChange field) note).
Proof.
  unfold estimatorSection.
  destruct (isOfficeService SERVICE_OPTIONS (booking w)); intros I.
  - right. split; [reflexivity|].
    destruct I as [<- | [<- | [<- | [<- | []]]]];
      [exists Rooms | exists Cafeteria | exists Desks | exists Washrooms];
      eexists; eexists; reflexivity.
  - left. split; [reflexivity|].
    destruct I as [<- | [<- | [<- | [<- | []]]]];
      [exists Bedrooms | exists Bathrooms | exists Kitchen | exists Living];
      eexists; reflexivity.
Qed.

(** X10.  In a reachable state, a click on an enabled minus button
    followed by a click on plus of the same counter brings all the
    counters back; so does plus followed by minus, as long as the
    counter is below 2^53.  The hours are then the estimate for those
    counters, whatever they were before the two clicks. *)
Theorem opposite_clicks_restore_the_counters :
  forall (SERVICE_OPTIONS : list ServiceOption) (currentUser : option User.t)
         (w : Wizard) (c : CounterView),
    reachable currentUser w ->
    In c (estimatorSection SERVICE_OPTIONS w) ->
    let estimate :=
      if isOfficeService SERVICE_OPTIONS (booking w)
      then officeHours (officeEstimator w) else homeHours (homeEstimator w) in
    (disabled (minus c) = false ->
     let w' := onClick (plus c) (onClick (minus c) w) in
     homeEstimator w' = homeEstimator w /\
     officeEstimator w' = officeEstimator w /\
     hours (booking w') = estimate) /\
    ((counter_value c <? 9007199254740992) = true ->
     let w' := onClick (minus c) (onClick (plus c) w) in
     homeEstimator w' = homeEstimator w /\
     officeEstimator w' = officeEstimator w /\
     hours (booking w') = estimate).
Proof.
  intros SERVICE_OPTIONS currentUser w c R I estimate.
  destruct (reachable_invariant currentUser w R) as (CH & CO & _).
  destruct (estimatorSection_cases SERVICE_OPTIONS w c I)
    as [(O & f & l & ->) | (O & f & l & n & ->)];
    unfold estimate; rewrite O; cbn [Counter minus plus onClick disabled
                                       counter_value]; split; intros H.
  - apply home_round_trip; [exact CH | auto|].
    apply counter_down_up; [apply home_get_counter, CH | exact H].
  - apply home_round_trip; [exact CH | auto|].
    apply counter_up_down; [apply home_get_counter, CH | exact H].
  - apply office_round_trip; [exact CO | auto|].
    apply counter_down_up; [apply office_get_counter, CO | exact H].
  - apply office_round_trip; [exact CO | auto|].
    apply counter_up_down; [apply office_get_counter, CO | exact H].
Qed.

Lemma opposite_clicks_restore_the_counters_witness :
  let c := Counter "Kitchens" 1 (handleHomeChange Kitchen) None in
  let w' := onClick (plus c) (onClick (minus c) (run (Slider 8) (mount None))) in
  homeEstimator w' = homeEstimator (run (Slider 8) (mount None)) /\
  officeEstimator w' = officeEstimator (run (Slider 8) (mount None)) /\
  hours (booking w') = homeHours (homeEstimator (run (Slider 8) (mount None))).
Proof.
  apply (proj1 (opposite_clicks_restore_the_counters example_catalog None
                  (run (Slider 8) (mount None))
                  (Counter "Kitchens" 1 (handleHomeChange Kitchen) None)
                  (reachable_run None _ (Slider 8) (reachable_mount None)
                     ltac:(simpl; auto 20))
                  ltac:(simpl; auto))).
  reflexivity.
Defined.

Lemma with_booking_same w : with_booking (booking w) w = w.
Proof. destruct w; reflexivity. Qed.

Lemma with_step_twice s1 s2 b : with_step s2 (with_step s1 b) = with_step s2 b.
Proof. reflexivity. Qed.

Lemma with_step_same b : with_step (step b) b = b.
Proof. destruct b; reflexivity. Qed.

(** Two step buttons in a row. *)
Lemma two_steps w d1 d2 :
  setBooking (fun prev => with_step (step prev + d2) prev)
    (setBooking (fun prev => with_step (step prev + d1) prev) w)
  = with_booking (with_step (step (booking w) + d1 + d2) (booking w)) w.
Proof.
  rewrite (setBooking_same_deps (fun prev => with_step (step prev + d1) prev) w)
    by reflexivity.
  match goal with |- setBooking ?f ?x = _ =>
    rewrite (setBooking_same_deps f x) by reflexivity end.
  reflexivity.
Qed.

(** X11.  The two step buttons undo each other: Back after Next gives
    the wizard back as it was, slot list and calls in flight included,
    for a whole step number below 2^53, and Next after Back does for a
    whole step number that is not 0. *)
Theorem back_undoes_next :
  forall w : Wizard,
    is_counter (step (booking w)) = true ->
    ((step (booking w) <? 9007199254740992) = true ->
     handleBack (handleNext w) = w) /\
    ((step (booking w) =? 0) = false ->
     handleNext (handleBack w) = w).
Proof.
  intros w C.
  assert (B : forall w0, handleBack w0
                = setBooking (fun prev => with_step (step prev + -1) prev) w0).
  { intros w0. unfold handleBack, setBooking. cbn [booking with_booking].
    rewrite sub_one. reflexivity. }
  split; intros H.
  - rewrite B. unfold handleNext. rewrite two_steps.
    destruct (plus_minus _ C H) as [_ ->].
    rewrite with_step_same. apply with_booking_same.
  - rewrite B. unfold handleNext. rewrite two_steps.
    destruct (minus_plus _ C H) as [_ ->].
    rewrite with_step_same. apply with_booking_same.
Qed.

Lemma back_undoes_next_witness :
  handleBack (handleNext (mount None)) = mount None /\
  handleNext (handleBack (mount None)) = mount None.
Proof.
  split; apply (back_undoes_next (mount None)); reflexivity.
Defined.

(** * Order: the estimates and the pricing figures *)

Lemma leb_same x : nonneg x = true -> (x <=? x) = true.
Proof. intros N. apply leb_refl, nonneg_not_nan, N. Qed.

Lemma add_ge x y :
  nonneg x = true -> nonneg y = true -> (value x <= value (x + y)%float)%Z.
Proof.
  intros Nx Ny. destruct (value_add x y Nx Ny) as [_ ->].
  pose proof (value_nonneg x). pose proof (value_nonneg y).
  pose proof (value_le_top x).
  pose proof (round64_mono (value x) (value x + value y) ltac:(lia) ltac:(lia)) as M.
  rewrite (round64_value x Nx) in M. lia.
Qed.

(** Multiplying by a constant that is at most 1 does not increase. *)
Lemma mul_le x c :
  nonneg x = true -> SFpositive (Prim2SF c) = true -> (value c <= whole)%Z ->
  (value (x * c)%float <= value x)%Z.
Proof.
  intros N P C. destruct (positive_facts c P) as (Nc & Fc & Vc).
  destruct (nonneg_cases x N) as [F | I].
  - destruct (value_mul x c N Nc F Fc) as [_ ->].
    pose proof (value_nonneg x) as X. pose proof whole_pos as W.
    assert (Q : (0 <= value x * value c / whole <= value x)%Z).
    { split; [apply Z.div_pos; nia|].
      apply Z.div_le_upper_bound; [exact W | nia]. }
    pose proof (round64_mono _ (value x) (proj1 Q) (proj2 Q)) as M.
    rewrite (round64_value x N) in M. lia.
  - unfold value. rewrite (mul_infinity x c I P), I. reflexivity.
Qed.

Lemma ceil_mono u v :
  (u <= v)%Z -> ((u + whole - 1) / whole * whole <= (v + whole - 1) / whole * whole)%Z.
Proof.
  intros H. pose proof whole_pos as W.
  apply Z.mul_le_mono_nonneg_r; [lia|].
  apply Z.div_le_mono; lia.
Qed.

(** The value of a rounded estimate: twice the raw value, rounded up to
    a whole number, halved. *)
Lemma roundUpToHalf_value k x :
  (51 <= k <= 900)%Z -> below k x = true ->
  nonneg (roundUpToHalf x) = true /\
  (2 * value (roundUpToHalf x)
   = (2 * value x + whole - 1) / whole * whole)%Z.
Proof.
  intros Hk B.
  pose proof (below_nonneg k x B) as N. pose proof (below_finite k x B) as F.
  destruct (value_mul_two x N F) as [N2 V2].
  assert (B2 : below (k + 3) (x * 2) = true).
  { replace (k + 3)%Z with (k + 2 + 1)%Z by lia.
    apply (below_mul k 2); [exact B | reflexivity | lia]. }
  pose proof (value_finite _ (below_finite _ _ B2)) as T2.
  assert (E2 : value (x * 2)%float = (2 * value x)%Z) by lia.
  destruct (value_Math_ceil (x * 2) N2) as [Nc Vc]. rewrite E2 in Vc.
  assert (Bc : below (k + 3) (Math_ceil (x * 2)) = true)
    by (apply Math_ceil_below; [lia | exact B2]).
  unfold roundUpToHalf.
  destruct (value_div_two (Math_ceil (x * 2)) Nc (below_finite _ _ Bc))
    as [Nr Vr].
  { rewrite Vc. pose proof whole_pos as W.
    set (g := ((2 * value x + whole - 1) / whole)%Z).
    assert (G : (0 <= g)%Z).
    { apply Z.div_pos; [|exact W]. pose proof (value_nonneg x). lia. }
    destruct (Z.eq_dec g 0) as [-> | NZ]; [left; reflexivity | right]. nia. }
  split; [exact Nr|]. rewrite Vr. exact Vc.
Qed.

Lemma roundUpToHalf_mono k x y :
  (51 <= k <= 900)%Z -> below k x = true -> below k y = true ->
  (value x <= value y)%Z ->
  (value (roundUpToHalf x) <= value (roundUpToHalf y))%Z.
Proof.
  intros Hk Bx By H.
  destruct (roundUpToHalf_value k x Hk Bx) as [_ Vx].
  destruct (roundUpToHalf_value k y Hk By) as [_ Vy].
  pose proof (ceil_mono (2 * value x) (2 * value y) ltac:(lia)). lia.
Qed.

(** Rounding up to the half hour: not below the raw value, and at most
    half an hour above it. *)
Lemma roundUpToHalf_bounds k x :
  (51 <= k <= 900)%Z -> below k x = true ->
  (value x <= value (roundUpToHalf x))%Z /\
  (value (roundUpToHalf x) <= value (x + 0.5)%float)%Z.
Proof.
  intros Hk B. pose proof (below_nonneg k x B) as N.
  destruct (roundUpToHalf_value k x Hk B) as [Nr Vr].
  pose proof (ceil_above (2 * value x)) as A.
  pose proof (ceil_below (2 * value x)) as U.
  pose proof whole_halves as WH.
  split; [lia|].
  destruct (value_add x 0.5 N eq_refl) as [_ ->]. rewrite value_half.
  pose proof (value_le_top (roundUpToHalf x)).
  pose proof (value_nonneg (roundUpToHalf x)).
  pose proof (round64_mono (value (roundUpToHalf x)) (value x + half_whole)
                ltac:(lia) ltac:(lia)) as M.
  rewrite (round64_value _ Nr) in M. lia.
Qed.

Lemma max_mono c x y :
  nonneg c = true -> nonneg x = true -> nonneg y = true ->
  (value x <= value y)%Z ->
  (Math_max c x <=? Math_max c y) = true.
Proof.
  intros Nc Nx Ny H.
  destruct (value_Math_max c x Nc Nx) as [N1 V1].
  destruct (value_Math_max c y Nc Ny) as [N2 V2].
  apply leb_of_value; [exact N1 | exact N2 | lia].
Qed.

(** The raw sums of the two estimators, for counters that are whole
    numbers up to 2^53. *)
Lemma homeRaw_below e :
  home_counters e ->
  below 63 (kitchen e * 0.75 + bathrooms e * 0.5 + bedrooms e * 0.3
            + living e * 0.25) = true.
Proof.
  intros (A & B & C & D).
  pose proof (term_below _ 0.75 C eq_refl) as T1.
  pose proof (term_below _ 0.5 B eq_refl) as T2.
  pose proof (term_below _ 0.3 A eq_refl) as T3.
  pose proof (term_below _ 0.25 D eq_refl) as T4.
  pose proof (below_add 55 55 _ _ T1 T2 ltac:(lia)) as S2.
  pose proof (below_add 57 55 _ _ S2 T3 ltac:(lia)) as S3.
  pose proof (below_add 59 55 _ _ S3 T4 ltac:(lia)) as S4.
  apply below_mono with (2 := S4). lia.
Qed.

Lemma officeRaw_below e :
  office_counters e ->
  below 65 (rooms e * 0.3 + cafeteria e * 0.67 + desks e * 0.133
            + washrooms e * 0.42 + 0.75) = true.
Proof.
  intros (A & B & C & D).
  pose proof (term_below _ 0.3 A eq_refl) as T1.
  pose proof (term_below _ 0.67 B eq_refl) as T2.
  pose proof (term_below _ 0.133 C eq_refl) as T3.
  pose proof (term_below _ 0.42 D eq_refl) as T4.
  pose proof (below_add 55 55 _ _ T1 T2 ltac:(lia)) as S2.
  pose proof (below_add 57 55 _ _ S2 T3 ltac:(lia)) as S3.
  pose proof (below_add 59 55 _ _ S3 T4 ltac:(lia)) as S4.
  pose proof (below_add 61 0 _ 0.75 S4 eq_refl ltac:(lia)) as S5.
  apply below_mono with (2 := S5). lia.
Qed.

Lemma term_mono a b k :
  is_counter a = true -> is_counter b = true -> (a <=? b) = true ->
  SFpositive (Prim2SF k) = true ->
  nonneg (a * k) = true /\ nonneg (b * k) = true /\
  (value (a * k)%float <= value (b * k)%float)%Z.
Proof.
  intros Ca Cb L P.
  pose proof (is_counter_nonneg a Ca) as Na.
  pose proof (is_counter_nonneg b Cb) as Nb.
  split; [apply nonneg_mul; assumption|].
  split; [apply nonneg_mul; assumption|].
  apply mul_mono; try assumption; [|lia].
  apply value_of_leb; assumption.
Qed.

Lemma sum_mono a b c d :
  nonneg a = true -> nonneg b = true -> nonneg c = true -> nonneg d = true ->
  (value a <= value b)%Z -> (value c <= value d)%Z ->
  nonneg (a + c) = true /\ nonneg (b + d) = true /\
  (value (a + c)%float <= value (b + d)%float)%Z.
Proof.
  intros Na Nb Nc Nd H1 H2.
  split; [apply value_add; assumption|].
  split; [apply value_add; assumption|].
  apply add_mono; assumption.
Qed.

Lemma homeHours_mono e e' :
  home_counters e -> home_counters e' -> home_le e e' ->
  (homeHours e <=? homeHours e') = true.
Proof.
  intros C C' (L1 & L2 & L3 & L4).
  pose proof (homeRaw_below e C) as B. pose proof (homeRaw_below e' C') as B'.
  destruct C as (A1 & A2 & A3 & A4). destruct C' as (A1' & A2' & A3' & A4').
  destruct (term_mono _ _ 0.75 A3 A3' L3 eq_refl) as (N1 & N1' & T1).
  destruct (term_mono _ _ 0.5 A2 A2' L2 eq_refl) as (N2 & N2' & T2).
  destruct (term_mono _ _ 0.3 A1 A1' L1 eq_refl) as (N3 & N3' & T3).
  destruct (term_mono _ _ 0.25 A4 A4' L4 eq_refl) as (N4 & N4' & T4).
  destruct (sum_mono _ _ _ _ N1 N1' N2 N2' T1 T2) as (M2 & M2' & S2).
  destruct (sum_mono _ _ _ _ M2 M2' N3 N3' S2 T3) as (M3 & M3' & S3).
  destruct (sum_mono _ _ _ _ M3 M3' N4 N4' S3 T4) as (M4 & M4' & S4).
  unfold homeHours.
  apply max_mono; [reflexivity | | |].
  - apply (roundUpToHalf_value 63); [lia | exact B].
  - apply (roundUpToHalf_value 63); [lia | exact B'].
  - apply (roundUpToHalf_mono 63); [lia | exact B | exact B' | exact S4].
Qed.

Lemma officeHours_mono e e' :
  office_counters e -> office_counters e' -> office_le e e' ->
  (officeHours e <=? officeHours e') = true.
Proof.
  intros C C' (L1 & L2 & L3 & L4).
  pose proof (officeRaw_below e C) as B. pose proof (officeRaw_below e' C') as B'.
  destruct C as (A1 & A2 & A3 & A4). destruct C' as (A1' & A2' & A3' & A4').
  destruct (term_mono _ _ 0.3 A1 A1' L1 eq_refl) as (N1 & N1' & T1).
  destruct (term_mono _ _ 0.67 A2 A2' L2 eq_refl) as (N2 & N2' & T2).
  destruct (term_mono _ _ 0.133 A3 A3' L3 eq_refl) as (N3 & N3' & T3).
  destruct (term_mono _ _ 0.42 A4 A4' L4 eq_refl) as (N4 & N4' & T4).
  destruct (sum_mono _ _ _ _ N1 N1' N2 N2' T1 T2) as (M2 & M2' & S2).
  destruct (sum_mono _ _ _ _ M2 M2' N3 N3' S2 T3) as (M3 & M3' & S3).
  destruct (sum_mono _ _ _ _ M3 M3' N4 N4' S3 T4) as (M4 & M4' & S4).
  destruct (sum_mono _ _ 0.75 0.75 M4 M4' eq_refl eq_refl S4 ltac:(lia))
    as (M5 & M5' & S5).
  unfold officeHours.
  apply max_mono; [reflexivity | | |].
  - apply (roundUpToHalf_value 65); [lia | exact B].
  - apply (roundUpToHalf_value 65); [lia | exact B'].
  - apply (roundUpToHalf_mono 65); [lia | exact B | exact B' | exact S5].
Qed.

(** A counter and what a click makes of it. *)
Lemma click_up c :
  is_counter c = true -> (c <=? Math_max 0 (c + 1)) = true.
Proof.
  intros C. pose proof (is_counter_nonneg c C) as N.
  destruct (value_add c 1 N eq_refl) as [N1 _].
  rewrite (clamp_nonneg _ N1).
  apply leb_of_value; [exact N | exact N1 | apply add_ge; [exact N | reflexivity]].
Qed.

Lemma click_down c :
  is_counter c = true -> (Math_max 0 (c + -1) <=? c) = true.
Proof.
  intros C. destruct (is_counter_value c C) as (N & F & j & Hj & E).
  destruct (Z.eq_dec j 0) as [-> | NZ].
  - rewrite (value_zero c N E). reflexivity.
  - destruct (add_minus_one_value c j N E ltac:(lia)) as [N1 V1].
    rewrite (clamp_nonneg _ N1).
    apply leb_of_value; [exact N1 | exact N|].
    rewrite V1, E. pose proof whole_pos. nia.
Qed.

Lemma home_le_set_up field e :
  home_counters e ->
  home_le e (home_set field (Math_max 0 (home_get field e + 1)) e).
Proof.
  intros C. pose proof (home_counters_nonneg e C) as (N1 & N2 & N3 & N4).
  destruct C as (C1 & C2 & C3 & C4).
  destruct field; cbn [home_set home_get]; repeat split;
    cbn [bedrooms bathrooms kitchen living];
    first [apply click_up; assumption | apply leb_same; assumption].
Qed.

Lemma home_le_set_down field e :
  home_counters e ->
  home_le (home_set field (Math_max 0 (home_get field e + -1)) e) e.
Proof.
  intros C. pose proof (home_counters_nonneg e C) as (N1 & N2 & N3 & N4).
  destruct C as (C1 & C2 & C3 & C4).
  destruct field; cbn [home_set home_get]; repeat split;
    cbn [bedrooms bathrooms kitchen living];
    first [apply click_down; assumption | apply leb_same; assumption].
Qed.

Lemma office_le_set_up field e :
  office_counters e ->
  office_le e (office_set field (Math_max 0 (office_get field e + 1)) e).
Proof.
  intros C. pose proof (office_counters_nonneg e C) as (N1 & N2 & N3 & N4).
  destruct C as (C1 & C2 & C3 & C4).
  destruct field; cbn [office_set office_get]; repeat split;
    cbn [rooms cafeteria desks washrooms];
    first [apply click_up; assumption | apply leb_same; assumption].
Qed.

Lemma office_le_set_down field e :
  office_counters e ->
  office_le (office_set field (Math_max 0 (office_get field e + -1)) e) e.
Proof.
  intros C. pose proof (office_counters_nonneg e C) as (N1 & N2 & N3 & N4).
  destruct C as (C1 & C2 & C3 & C4).
  destruct field; cbn [office_set office_get]; repeat split;
    cbn [rooms cafeteria desks washrooms];
    first [apply click_down; assumption | apply leb_same; assumption].
Qed.

(** X12.  The home estimate is monotone: counters that are each at
    least as large never give fewer hours.  So a click on plus never
    brings the hours below the estimate for the counters as they were,
    and a click on minus never brings them above it. *)
Theorem more_rooms_never_fewer_hours :
  (forall e e' : HomeEstimator,
     home_counters e -> home_counters e' -> home_le e e' ->
     (homeHours e <=? homeHours e') = true) /\
  (forall (w : Wizard) (field : HomeField),
     home_counters (homeEstimator w) ->
     (homeHours (homeEstimator w)
      <=? hours (booking (handleHomeChange field 1 w))) = true /\
     (hours (booking (handleHomeChange field (-1) w))
      <=? homeHours (homeEstimator w)) = true).
Proof.
  split; [exact homeHours_mono|].
  intros w field C.
  pose proof (home_counters_nonneg _ C) as N.
  rewrite !home_mutation_writes_homeHours_aux by exact N.
  destruct (handleHomeChange_frame field 1 w) as (_ & -> & _).
  destruct (handleHomeChange_frame field (-1) w) as (_ & -> & _).
  split.
  - apply homeHours_mono; [exact C | apply homeUpdate_ok; auto|].
    apply home_le_set_up, C.
  - apply homeHours_mono; [apply homeUpdate_ok; auto | exact C|].
    apply home_le_set_down, C.
Qed.

Lemma more_rooms_never_fewer_hours_witness :
  (homeHours (homeEstimator (mount None))
   <=? hours (booking (handleHomeChange Kitchen 1 (mount None)))) = true.
Proof.
  apply (proj2 more_rooms_never_fewer_hours (mount None) Kitchen).
  repeat split; reflexivity.
Defined.

(** X13.  The office estimate is monotone in the same way. *)
Theorem more_office_space_never_fewer_hours :
  (forall e e' : OfficeEstimator,
     office_counters e -> office_counters e' -> office_le e e' ->
     (officeHours e <=? officeHours e') = true) /\
  (forall (w : Wizard) (field : OfficeField),
     office_counters (officeEstimator w) ->
     (officeHours (officeEstimator w)
      <=? hours (booking (handleOfficeChange field 1 w))) = true /\
     (hours (booking (handleOfficeChange field (-1) w))
      <=? officeHours (officeEstimator w)) = true).
Proof.
  split; [exact officeHours_mono|].
  intros w field C.
  pose proof (office_counters_nonneg _ C) as N.
  rewrite !office_mutation_writes_officeHours_aux by exact N.
  destruct (handleOfficeChange_frame field 1 w) as (_ & _ & ->).
  destruct (handleOfficeChange_frame field (-1) w) as (_ & _ & ->).
  split.
  - apply officeHours_mono; [exact C | apply officeUpdate_ok; auto|].
    apply office_le_set_up, C.
  - apply officeHours_mono; [apply officeUpdate_ok; auto | exact C|].
    apply office_le_set_down, C.
Qed.

Lemma more_office_space_never_fewer_hours_witness :
  (hours (booking (handleOfficeChange Desks (-1) (mount None)))
   <=? officeHours (officeEstimator (mount None))) = true.
Proof.
  apply (proj2 more_office_space_never_fewer_hours (mount None) Desks).
  repeat split; reflexivity.
Defined.

Lemma homeUpdate_raw field delta prev :
  snd (homeUpdate field delta prev)
  = Math_max 2 (roundUpToHalf (homeRaw (fst (homeUpdate field delta prev)))).
Proof. reflexivity. Qed.

Lemma officeUpdate_raw field delta prev :
  snd (officeUpdate field delta prev)
  = Math_max 3 (roundUpToHalf (officeRaw (fst (officeUpdate field delta prev)))).
Proof. reflexivity. Qed.

Lemma homeRaw_spec e :
  home_counters e ->
  homeRaw e = kitchen e * 0.75 + bathrooms e * 0.5 + bedrooms e * 0.3
              + living e * 0.25.
Proof.
  intros (A & B & C & D). unfold homeRaw.
  rewrite add_zero_l; [reflexivity|].
  apply nonneg_not_neg_zero, nonneg_mul;
    [apply is_counter_nonneg, C | reflexivity].
Qed.

Lemma officeRaw_spec e :
  office_counters e ->
  officeRaw e = rooms e * 0.3 + cafeteria e * 0.67 + desks e * 0.133
                + washrooms e * 0.42 + 0.75.
Proof.
  intros (A & B & C & D). unfold officeRaw.
  rewrite add_zero_l; [reflexivity|].
  apply nonneg_not_neg_zero, nonneg_mul;
    [apply is_counter_nonneg, A | reflexivity].
Qed.

(** The floor applied to a rounded raw value. *)
Lemma floor_bounds c k x :
  nonneg c = true -> (51 <= k <= 900)%Z -> below k x = true ->
  (x <=? Math_max c (roundUpToHalf x)) = true /\
  (Math_max c (roundUpToHalf x) <=? Math_max c (x + 0.5)) = true.
Proof.
  intros Nc Hk B. pose proof (below_nonneg k x B) as N.
  destruct (roundUpToHalf_value k x Hk B) as [Nr _].
  destruct (roundUpToHalf_bounds k x Hk B) as [L U].
  destruct (value_add x 0.5 N eq_refl) as [Na _].
  destruct (value_Math_max c (roundUpToHalf x) Nc Nr) as [N1 V1].
  split.
  - apply leb_of_value; [exact N | exact N1 | lia].
  - apply max_mono; assumption.
Qed.

(** X14.  The hours a counter click writes are never below the raw sum
    of the new counters, and exceed it by at most half an hour unless
    the minimum applies: they are at most the larger of the minimum
    (2 for a home, 3 for an office) and the raw sum plus 0.5. *)
Theorem estimate_within_half_an_hour_of_raw_sum :
  (forall (field : HomeField) (delta : number) (prev : HomeEstimator),
     home_counters prev -> delta = 1 \/ delta = -1 ->
     let newState := fst (homeUpdate field delta prev) in
     let finalHours := snd (homeUpdate field delta prev) in
     (homeRaw newState <=? finalHours) = true /\
     (finalHours <=? Math_max 2 (homeRaw newState + 0.5)) = true) /\
  (forall (field : OfficeField) (delta : number) (prev : OfficeEstimator),
     office_counters prev -> delta = 1 \/ delta = -1 ->
     let newState := fst (officeUpdate field delta prev) in
     let finalHours := snd (officeUpdate field delta prev) in
     (officeRaw newState <=? finalHours) = true /\
     (finalHours <=? Math_max 3 (officeRaw newState + 0.5)) = true).
Proof.
  split.
  - intros field delta prev C D newState finalHours.
    destruct (homeUpdate_ok field delta prev C D) as [C' _].
    unfold finalHours. rewrite homeUpdate_raw. fold newState.
    apply (floor_bounds 2 63); [reflexivity | lia|].
    unfold newState. rewrite (homeRaw_spec _ C'). apply homeRaw_below, C'.
  - intros field delta prev C D newState finalHours.
    destruct (officeUpdate_ok field delta prev C D) as [C' _].
    unfold finalHours. rewrite officeUpdate_raw. fold newState.
    apply (floor_bounds 3 65); [reflexivity | lia|].
    unfold newState. rewrite (officeRaw_spec _ C'). apply officeRaw_below, C'.
Qed.

Lemma estimate_within_half_an_hour_of_raw_sum_witness :
  let newState := fst (homeUpdate Kitchen 1 (homeEstimator initial)) in
  let finalHours := snd (homeUpdate Kitchen 1 (homeEstimator initial)) in
  (homeRaw newState <=? finalHours) = true /\
  (finalHours <=? Math_max 2 (homeRaw newState + 0.5)) = true.
Proof.
  apply (proj1 estimate_within_half_an_hour_of_raw_sum Kitchen 1
           (homeEstimator initial)).
  - repeat split; reflexivity.
  - left. reflexivity.
Defined.

(** ** Pricing *)

Lemma value_030_070 : (value 0.30%float <= value 0.70%float)%Z.
Proof. apply value_of_leb; reflexivity. Qed.

Lemma below_one c :
  SFpositive (Prim2SF c) = true -> (c <=? 1) = true -> (value c <= whole)%Z.
Proof.
  intros P L. destruct (positive_facts c P) as (N & _).
  rewrite <- value_one. apply value_of_leb; [exact N | reflexivity | exact L].
Qed.

(** The figures derived from a subtotal. *)
Lemma figures_from_subtotal s :
  nonneg s = true ->
  let hst := s * HST_RATE in
  let total := s + hst in
  nonneg hst = true /\ nonneg total = true /\
  nonneg (total * 0.30) = true /\ nonneg (total * 0.70) = true /\
  (hst <=? s) = true /\ (s <=? total) = true /\
  (total * 0.30 <=? total * 0.70) = true /\ (total * 0.70 <=? total) = true.
Proof.
  intros N hst total.
  assert (Nh : nonneg hst = true) by (apply nonneg_mul; [exact N | reflexivity]).
  assert (Nt : nonneg total = true) by (apply value_add; assumption).
  assert (Nd : nonneg (total * 0.30) = true)
    by (apply nonneg_mul; [exact Nt | reflexivity]).
  assert (Nr : nonneg (total * 0.70) = true)
    by (apply nonneg_mul; [exact Nt | reflexivity]).
  repeat split; try assumption; apply leb_of_value; try assumption.
  - apply mul_le; [exact N | reflexivity | apply below_one; reflexivity].
  - apply add_ge; assumption.
  - apply mul_mono;
      [exact Nt | exact Nt | reflexivity | reflexivity | lia | exact value_030_070].
  - apply mul_le; [exact Nt | reflexivity | apply below_one; reflexivity].
Qed.

Lemma subtotal_nonneg SERVICE_OPTIONS b s :
  currentService SERVICE_OPTIONS b = Some s ->
  nonneg (hourlyRate s) = true -> finite (hourlyRate s) = true ->
  nonneg (hours b) = true -> finite (hours b) = true ->
  nonneg (subtotal SERVICE_OPTIONS b) = true.
Proof.
  intros C Nr Fr Nh Fh. unfold subtotal. rewrite C.
  apply value_mul; assumption.
Qed.

(** X15.  For a catalog entry with a finite rate that is not negative
    and finite hours that are not negative, none of the five pricing
    figures is negative or NaN, and as computed they are ordered: the
    tax is at most the subtotal, the subtotal at most the total, the
    deposit at most the remainder, and the remainder at most the
    total. *)
Theorem pricing_figures_are_ordered :
  forall (SERVICE_OPTIONS : list ServiceOption) (b : BookingState)
         (s : ServiceOption),
    currentService SERVICE_OPTIONS b = Some s ->
    nonneg (hourlyRate s) = true -> finite (hourlyRate s) = true ->
    nonneg (hours b) = true -> finite (hours b) = true ->
    (0 <=? hstAmount SERVICE_OPTIONS b) = true /\
    (hstAmount SERVICE_OPTIONS b <=? subtotal SERVICE_OPTIONS b) = true /\
    (subtotal SERVICE_OPTIONS b <=? totalCost SERVICE_OPTIONS b) = true /\
    (0 <=? depositAmount SERVICE_OPTIONS b) = true /\
    (depositAmount SERVICE_OPTIONS b <=? remainingAmount SERVICE_OPTIONS b) = true /\
    (remainingAmount SERVICE_OPTIONS b <=? totalCost SERVICE_OPTIONS b) = true.
Proof.
  intros SERVICE_OPTIONS b s C Nr Fr Nh Fh.
  pose proof (subtotal_nonneg SERVICE_OPTIONS b s C Nr Fr Nh Fh) as N.
  destruct (figures_from_subtotal _ N) as (A1 & A2 & A3 & A4 & L1 & L2 & L3 & L4).
  unfold remainingAmount, depositAmount, totalCost, hstAmount.
  repeat split; try assumption;
    (apply leb_of_value; [reflexivity | assumption | apply value_nonneg]).
Qed.

Lemma pricing_figures_are_ordered_witness :
  let b := with_hours 3.5 (with_service (Some "standard"%string) INITIAL_STATE) in
  (depositAmount example_catalog b <=? remainingAmount example_catalog b) = true.
Proof.
  apply (pricing_figures_are_ordered example_catalog
           (with_hours 3.5 (with_service (Some "standard"%string) INITIAL_STATE))
           {| id := "standard"; title := "Standard Home Clean";
              hourlyRate := 50; recommendedHours := 3 |});
    reflexivity.
Defined.

Lemma figures_mono s s' :
  nonneg s = true -> nonneg s' = true -> (value s <= value s')%Z ->
  let hst := s * HST_RATE in
  let hst' := s' * HST_RATE in
  (hst <=? hst') = true /\ (s + hst <=? s' + hst') = true /\
  ((s + hst) * 0.30 <=? (s' + hst') * 0.30) = true /\
  ((s + hst) * 0.70 <=? (s' + hst') * 0.70) = true.
Proof.
  intros N N' H hst hst'.
  destruct (figures_from_subtotal s N) as (A1 & A2 & A3 & A4 & _).
  destruct (figures_from_subtotal s' N') as (B1 & B2 & B3 & B4 & _).
  cbv zeta in *. fold hst in A1, A2, A3, A4. fold hst' in B1, B2, B3, B4.
  assert (Vh : (value hst <= value hst')%Z)
    by (apply mul_mono; try reflexivity; try assumption; lia).
  assert (Vt : (value (s + hst)%float <= value (s' + hst')%float)%Z)
    by (apply add_mono; assumption).
  repeat split; apply leb_of_value; try assumption;
    apply mul_mono; try reflexivity; try assumption; lia.
Qed.

(** X16.  For the same service, more hours never cost less: each of the
    five figures for the longer booking is at least the figure for the
    shorter one. *)
Theorem more_hours_never_cost_less :
  forall (SERVICE_OPTIONS : list ServiceOption) (b b' : BookingState)
         (s : ServiceOption),
    service b' = service b ->
    currentService SERVICE_OPTIONS b = Some s ->
    nonneg (hourlyRate s) = true -> finite (hourlyRate s) = true ->
    nonneg (hours b) = true -> finite (hours b) = true ->
    nonneg (hours b') = true -> finite (hours b') = true ->
    (hours b <=? hours b') = true ->
    (subtotal SERVICE_OPTIONS b <=? subtotal SERVICE_OPTIONS b') = true /\
    (hstAmount SERVICE_OPTIONS b <=? hstAmount SERVICE_OPTIONS b') = true /\
    (totalCost SERVICE_OPTIONS b <=? totalCost SERVICE_OPTIONS b') = true /\
    (depositAmount SERVICE_OPTIONS b <=? depositAmount SERVICE_OPTIONS b') = true /\
    (remainingAmount SERVICE_OPTIONS b <=? remainingAmount SERVICE_OPTIONS b') = true.
Proof.
  intros SERVICE_OPTIONS b b' s E C Nr Fr Nh Fh Nh' Fh' L.
  assert (C' : currentService SERVICE_OPTIONS b' = Some s)
    by (unfold currentService in *; rewrite E; exact C).
  pose proof (subtotal_nonneg SERVICE_OPTIONS b s C Nr Fr Nh Fh) as N.
  pose proof (subtotal_nonneg SERVICE_OPTIONS b' s C' Nr Fr Nh' Fh') as N'.
  assert (V : (value (subtotal SERVICE_OPTIONS b)
               <= value (subtotal SERVICE_OPTIONS b'))%Z).
  { unfold subtotal. rewrite C, C'.
    destruct (value_mul (hourlyRate s) (hours b) Nr Nh Fr Fh) as [_ ->].
    destruct (value_mul (hourlyRate s) (hours b') Nr Nh' Fr Fh') as [_ ->].
    pose proof (value_of_leb _ _ Nh Nh' L) as VL.
    pose proof (value_nonneg (hourlyRate s)). pose proof (value_nonneg (hours b)).
    pose proof whole_pos as W.
    apply min_round_mono.
    - apply Z.div_pos; [nia | exact W].
    - apply Z.div_le_mono; [exact W | nia]. }
  destruct (figures_mono _ _ N N' V) as (M1 & M2 & M3 & M4).
  unfold remainingAmount, depositAmount, totalCost, hstAmount.
  repeat split; try assumption. apply leb_of_value; assumption.
Qed.

Lemma more_hours_never_cost_less_witness :
  let b := with_service (Some "standard"%string) INITIAL_STATE in
  (totalCost example_catalog b <=? totalCost example_catalog (with_hours 3.5 b))
  = true.
Proof.
  apply (more_hours_never_cost_less example_catalog
           (with_service (Some "standard"%string) INITIAL_STATE)
           (with_hours 3.5 (with_service (Some "standard"%string) INITIAL_STATE))
           {| id := "standard"; title := "Standard Home Clean";
              hourlyRate := 50; recommendedHours := 3 |});
    reflexivity.
Defined.

(** * The counters throughout a session *)

Lemma is_counter_spec c :
  is_counter c = true ->
  is_integer c = true /\ (0 <=? c) = true /\ (c <=? 9007199254740992) = true.
Proof.
  intros H. destruct (is_counter_value c H) as (N & F & j & Hj & E).
  split; [|split].
  - unfold is_counter, is_integer in *.
    destruct (Prim2SF c) as [[] | [] | | [] m e]; try discriminate; [reflexivity|].
    destruct (SFcounter_cases m e H) as [[S _] | [-> ->]]; [|reflexivity].
    cbn [SFmultiple]. apply scaledb_true, S.
  - apply leb_of_value; [reflexivity | exact N | apply value_nonneg].
  - apply leb_of_value; [exact N | reflexivity|].
    rewrite value_2_53, E. pose proof whole_pos. nia.
Qed.

Lemma home_set_same field e : home_set field (home_get field e) e = e.
Proof. destruct e, field; reflexivity. Qed.

Lemma office_set_same field e : office_set field (office_get field e) e = e.
Proof. destruct e, field; reflexivity. Qed.

(** X17.  In every state a session can reach, each of the eight
    counters is a whole number, not negative and at most 2^53.  A click
    on minus when a counter is 0 leaves all counters as they are. *)
Theorem counters_stay_whole_and_never_negative :
  forall (currentUser : option User.t) (w : Wizard),
    reachable currentUser w ->
    (forall c,
       In c [bedrooms (homeEstimator w); bathrooms (homeEstimator w);
             kitchen (homeEstimator w); living (homeEstimator w);
             rooms (officeEstimator w); cafeteria (officeEstimator w);
             desks (officeEstimator w); washrooms (officeEstimator w)] ->
       is_integer c = true /\ (0 <=? c) = true /\
       (c <=? 9007199254740992) = true) /\
    (forall field,
       home_get field (homeEstimator w) = 0 ->
       homeEstimator (handleHomeChange field (-1) w) = homeEstimator w) /\
    (forall field,
       office_get field (officeEstimator w) = 0 ->
       officeEstimator (handleOfficeChange field (-1) w) = officeEstimator w).
Proof.
  intros currentUser w R.
  destruct (reachable_invariant currentUser w R)
    as ((A1 & A2 & A3 & A4) & (B1 & B2 & B3 & B4) & _).
  split; [|split].
  - intros c I. apply is_counter_spec.
    repeat (destruct I as [<- | I]; [assumption|]). destruct I.
  - intros field Z. destruct (handleHomeChange_frame field (-1) w) as (_ & -> & _).
    unfold homeUpdate. cbn [fst]. rewrite Z.
    change (Math_max 0 (0 + -1)) with 0. rewrite <- Z. apply home_set_same.
  - intros field Z. destruct (handleOfficeChange_frame field (-1) w) as (_ & _ & ->).
    unfold officeUpdate. cbn [fst]. rewrite Z.
    change (Math_max 0 (0 + -1)) with 0. rewrite <- Z. apply office_set_same.
Qed.

Lemma counters_stay_whole_and_never_negative_witness :
  is_integer 20 = true /\ (0 <=? 20) = true /\ (20 <=? 9007199254740992) = true.
Proof.
  apply (proj1 (counters_stay_whole_and_never_negative None (mount None)
                  (reachable_mount None)) 20).
  vm_compute. tauto.
Defined.

Lemma home_set_swap f1 f2 v1 v2 e :
  f1 <> f2 ->
  home_set f2 v2 (home_set f1 v1 e) = home_set f1 v1 (home_set f2 v2 e) /\
  home_get f2 (home_set f1 v1 e) = home_get f2 e.
Proof. intros N. destruct f1, f2; try congruence; split; reflexivity. Qed.

Lemma office_set_swap f1 f2 v1 v2 e :
  f1 <> f2 ->
  office_set f2 v2 (office_set f1 v1 e) = office_set f1 v1 (office_set f2 v2 e) /\
  office_get f2 (office_set f1 v1 e) = office_get f2 e.
Proof. intros N. destruct f1, f2; try congruence; split; reflexivity. Qed.

(** X18.  Clicks on two different counters of an estimator can be made
    in either order: the counters and the hours come out the same. *)
Theorem clicks_on_different_counters_commute :
  (forall (w : Wizard) (f1 f2 : HomeField) (d1 d2 : number),
     home_counters (homeEstimator w) -> f1 <> f2 ->
     d1 = 1 \/ d1 = -1 -> d2 = 1 \/ d2 = -1 ->
     let wa := handleHomeChange f2 d2 (handleHomeChange f1 d1 w) in
     let wb := handleHomeChange f1 d1 (handleHomeChange f2 d2 w) in
     homeEstimator wa = homeEstimator wb /\
     hours (booking wa) = hours (booking wb)) /\
  (forall (w : Wizard) (f1 f2 : OfficeField) (d1 d2 : number),
     office_counters (officeEstimator w) -> f1 <> f2 ->
     d1 = 1 \/ d1 = -1 -> d2 = 1 \/ d2 = -1 ->
     let wa := handleOfficeChange f2 d2 (handleOfficeChange f1 d1 w) in
     let wb := handleOfficeChange f1 d1 (handleOfficeChange f2 d2 w) in
     officeEstimator wa = officeEstimator wb /\
     hours (booking wa) = hours (booking wb)).
Proof.
  split.
  - intros w f1 f2 d1 d2 C N D1 D2. cbv zeta.
    destruct (handleHomeChange_frame f1 d1 w) as (_ & H1 & _).
    destruct (handleHomeChange_frame f2 d2 w) as (_ & H2 & _).
    set (w1 := handleHomeChange f1 d1 w) in *.
    set (w2 := handleHomeChange f2 d2 w) in *.
    assert (C1 : home_counters (homeEstimator w1))
      by (rewrite H1; apply homeUpdate_ok; assumption).
    assert (C2 : home_counters (homeEstimator w2))
      by (rewrite H2; apply homeUpdate_ok; assumption).
    assert (E : homeEstimator (handleHomeChange f2 d2 w1)
                = homeEstimator (handleHomeChange f1 d1 w2)).
    { destruct (handleHomeChange_frame f2 d2 w1) as (_ & -> & _).
      destruct (handleHomeChange_frame f1 d1 w2) as (_ & -> & _).
      rewrite H1, H2. unfold homeUpdate. cbn [fst].
      destruct (home_set_swap f1 f2 (Math_max 0 (home_get f1 (homeEstimator w) + d1))
                  (Math_max 0 (home_get f2 (homeEstimator w) + d2))
                  (homeEstimator w) N) as [S G2].
      destruct (home_set_swap f2 f1 (Math_max 0 (home_get f2 (homeEstimator w) + d2))
                  (Math_max 0 (home_get f1 (homeEstimator w) + d1))
                  (homeEstimator w) (not_eq_sym N)) as [_ G1].
      rewrite G1, G2. exact S. }
    split; [exact E|].
    rewrite !home_mutation_writes_homeHours_aux
      by (apply home_counters_nonneg; assumption).
    rewrite E. reflexivity.
  - intros w f1 f2 d1 d2 C N D1 D2. cbv zeta.
    destruct (handleOfficeChange_frame f1 d1 w) as (_ & _ & H1).
    destruct (handleOfficeChange_frame f2 d2 w) as (_ & _ & H2).
    set (w1 := handleOfficeChange f1 d1 w) in *.
    set (w2 := handleOfficeChange f2 d2 w) in *.
    assert (C1 : office_counters (officeEstimator w1))
      by (rewrite H1; apply officeUpdate_ok; assumption).
    assert (C2 : office_counters (officeEstimator w2))
      by (rewrite H2; apply officeUpdate_ok; assumption).
    assert (E : officeEstimator (handleOfficeChange f2 d2 w1)
                = officeEstimator (handleOfficeChange f1 d1 w2)).
    { destruct (handleOfficeChange_frame f2 d2 w1) as (_ & _ & ->).
      destruct (handleOfficeChange_frame f1 d1 w2) as (_ & _ & ->).
      rewrite H1, H2. unfold officeUpdate. cbn [fst].
      destruct (office_set_swap f1 f2
                  (Math_max 0 (office_get f1 (officeEstimator w) + d1))
                  (Math_max 0 (office_get f2 (officeEstimator w) + d2))
                  (officeEstimator w) N) as [S G2].
      destruct (office_set_swap f2 f1
                  (Math_max 0 (office_get f2 (officeEstimator w) + d2))
                  (Math_max 0 (office_get f1 (officeEstimator w) + d1))
                  (officeEstimator w) (not_eq_sym N)) as [_ G1].
      rewrite G1, G2. exact S. }
    split; [exact E|].
    rewrite !office_mutation_writes_officeHours_aux
      by (apply office_counters_nonneg; assumption).
    rewrite E. reflexivity.
Qed.

Lemma clicks_on_different_counters_commute_witness :
  let wa := handleHomeChange Kitchen 1 (handleHomeChange Bedrooms (-1) (mount None)) in
  let wb := handleHomeChange Bedrooms (-1) (handleHomeChange Kitchen 1 (mount None)) in
  homeEstimator wa = homeEstimator wb /\ hours (booking wa) = hours (booking wb).
Proof.
  apply (proj1 clicks_on_different_counters_commute (mount None) Bedrooms Kitchen
           (-1) 1).
  - repeat split; reflexivity.
  - discriminate.
  - right. reflexivity.
  - left. reflexivity.
Defined.
